(** * TestCycle-Automation: the MongoDB state manager ([mongoManager.py])

    A shallow embedding of [MongoDBManager] and of the part of the document
    store it drives, followed by the properties of the state-management
    layer: tenant isolation, uniqueness of test cases, the self-heal approval
    workflow, flaky-test detection, UI diffing, the context cache and the
    success-rate statistic.

    Conventions.
    - A Python [dict] handed to the manager, and a stored document, is a
      finite map from field names to BSON values ([gmap string value]).
      Nested documents keep their field order (an association list).  The
      values are null, booleans, integers, strings, dates, identifiers,
      arrays and documents; arguments have the types of their annotations.
    - [datetime.utcnow()] and [ObjectId()] are inputs of the operation that
      calls them: every reading of the clock and every generated identifier
      is an explicit parameter.  A [datetime] is a number of milliseconds,
      the resolution of a stored date, between the years 1 and 9999: adding
      or subtracting a [timedelta] that leaves this range raises
      [OverflowError].
    - A Python [float] obtained by dividing two counters is the exact
      rational [Q], and so are the two bounds of [get_flaky_tests].
    - A method that mutates the dictionary it is given returns the mutated
      dictionary next to its result. *)

From Stdlib Require Import QArith Qminmax Sorting.Sorted Sorting.Permutation.
From stdpp Require Import gmap strings list fin_maps.

Local Open Scope Z_scope.

(* ===================================================================== *)
(** * BSON values as the driver hands them to Python *)
(* ===================================================================== *)

#[warnings="-register-all"]
Inductive value : Type :=
  | VNull
  | VBool (b : bool)
  | VInt (n : Z)
  | VStr (s : string)
  | VDate (t : Z)
  | VOid (o : N)
  | VList (l : list value)
  | VDoc (kvs : list (string * value)).

(** Structural equality, by recursion through both containers. *)
Fixpoint value_eqb (v w : value) {struct v} : bool :=
  match v, w with
  | VNull, VNull => true
  | VBool a, VBool b => Bool.eqb a b
  | VInt a, VInt b => Z.eqb a b
  | VStr a, VStr b => String.eqb a b
  | VDate a, VDate b => Z.eqb a b
  | VOid a, VOid b => N.eqb a b
  | VList l, VList m =>
      (fix go (l m : list value) {struct l} : bool :=
         match l, m with
         | [], [] => true
         | x :: l', y :: m' => value_eqb x y && go l' m'
         | _, _ => false
         end) l m
  | VDoc l, VDoc m =>
      (fix go (l m : list (string * value)) {struct l} : bool :=
         match l, m with
         | [], [] => true
         | (k, x) :: l', (k', y) :: m' =>
             String.eqb k k' && value_eqb x y && go l' m'
         | _, _ => false
         end) l m
  | _, _ => false
  end.

(** The induction principle the nested containers need. *)
Section value_induction.
Variable P : value → Prop.
Hypothesis Hnull : P VNull.
Hypothesis Hbool : ∀ b, P (VBool b).
Hypothesis Hint : ∀ n, P (VInt n).
Hypothesis Hstr : ∀ s, P (VStr s).
Hypothesis Hdate : ∀ t, P (VDate t).
Hypothesis Hoid : ∀ o, P (VOid o).
Hypothesis Hlist : ∀ l, Forall P l → P (VList l).
Hypothesis Hdoc : ∀ kvs, Forall (λ kv, P kv.2) kvs → P (VDoc kvs).

Fixpoint value_nested_ind (v : value) : P v :=
  match v with
  | VNull => Hnull
  | VBool b => Hbool b
  | VInt n => Hint n
  | VStr s => Hstr s
  | VDate t => Hdate t
  | VOid o => Hoid o
  | VList l =>
      Hlist l
        ((fix go (l : list value) : Forall P l :=
            match l with
            | [] => Forall_nil_2 P
            | x :: l' => Forall_cons_2 P x l' (value_nested_ind x) (go l')
            end) l)
  | VDoc kvs =>
      Hdoc kvs
        ((fix go (l : list (string * value)) : Forall (λ kv, P kv.2) l :=
            match l with
            | [] => Forall_nil_2 _
            | kv :: l' =>
                Forall_cons_2 (λ kv, P kv.2) kv l'
                  (value_nested_ind kv.2) (go l')
            end) kvs)
  end.
End value_induction.

Lemma value_eqb_eq (v w : value) : value_eqb v w = true ↔ v = w.
Proof.
  revert w. induction v as [|b|n|s|t|o|l IH|kvs IH] using value_nested_ind;
    intros w; destruct w as [| | | | | |m|m]; simpl;
    try (split; [discriminate | congruence]); try tauto.
  - rewrite Bool.eqb_true_iff. split; congruence.
  - rewrite Z.eqb_eq. split; congruence.
  - rewrite String.eqb_eq. split; congruence.
  - rewrite Z.eqb_eq. split; congruence.
  - rewrite N.eqb_eq. split; congruence.
  - revert m. induction IH as [|x l Hx _ IHl]; intros [|y m]; simpl;
      try (split; [discriminate | congruence]); try tauto.
    rewrite andb_true_iff, Hx, IHl. split.
    + intros [-> [= ->]]. reflexivity.
    + intros [= -> ->]. auto.
  - revert m. induction IH as [|[k x] l Hx _ IHl]; intros [|[k' y] m]; simpl;
      try (split; [discriminate | congruence]); try tauto.
    simpl in Hx.
    rewrite !andb_true_iff, String.eqb_eq, Hx, IHl. split.
    + intros [[-> ->] [= ->]]. reflexivity.
    + intros [= -> -> ->]. auto.
Qed.

#[global] Instance value_eq_dec : EqDecision value.
Proof.
  intros v w. destruct (value_eqb v w) eqn:E.
  - left. by apply value_eqb_eq.
  - right. intros H. apply value_eqb_eq in H. congruence.
Defined.

Lemma value_eqb_refl (v : value) : value_eqb v v = true.
Proof. by apply value_eqb_eq. Qed.

Lemma value_eqb_neq (v w : value) : value_eqb v w = false ↔ v ≠ w.
Proof.
  rewrite <- value_eqb_eq. destruct (value_eqb v w); split; congruence.
Qed.

(* ===================================================================== *)
(** * Python-side helpers *)
(* ===================================================================== *)

Abbreviation document := (gmap string value).

(** The exceptions the manager can let through. *)
Inductive exn : Type :=
  | DuplicateKeyError
  | WriteError
  | OperationFailure
  | TypeError
  | OverflowError.

Inductive result (A : Type) : Type :=
  | Ok (a : A)
  | Raise (e : exn).
Arguments Ok {A} a.
Arguments Raise {A} e.

(** [result] is an error monad; stdpp's [x ← r; k] sequences it. *)
#[global] Instance result_ret : MRet result := λ A a, Ok a.
#[global] Instance result_bind : MBind result := λ A B k r,
  match r with
  | Ok a => k a
  | Raise e => Raise e
  end.

#[global] Instance exn_eq_dec : EqDecision exn.
Proof. solve_decision. Defined.

(** [d.get(k)]: the value under [k], [None] when the key is missing. *)
Definition py_get (d : document) (k : string) : value :=
  default VNull (d !! k).

(** [d.get(k, dflt)]. *)
Definition py_get_default (d : document) (k : string) (dflt : value) : value :=
  default dflt (d !! k).

(** [d.update(other)]: the keys of [other] win. *)
Definition py_update (d other : document) : document := other ∪ d.

(** Python's [==] and [hash] on the hashable values: a [bool] is the [int] 1
    or 0. *)
Definition py_key (v : value) : value :=
  match v with
  | VBool b => VInt (Z.b2z b)
  | _ => v
  end.

Definition py_eqb (v w : value) : bool := value_eqb (py_key v) (py_key w).

Definition py_hashable (v : value) : bool :=
  match v with
  | VList _ | VDoc _ => false
  | _ => true
  end.

Definition py_mem (x : value) (s : list value) : bool := existsb (py_eqb x) s.

(** A Python [set] is a list without [==]-duplicates; the first occurrence of
    an element is the one kept. *)
Fixpoint py_set_of_list (l : list value) (acc : list value) : list value :=
  match l with
  | [] => acc
  | x :: l' => py_set_of_list l' (if py_mem x acc then acc else acc ++ [x])
  end.

Fixpoint chars (s : string) : list value :=
  match s with
  | EmptyString => []
  | String c s' => VStr (String c EmptyString) :: chars s'
  end.

(** Iterating a value: a list gives its elements, a dictionary its keys, a
    string its characters; nothing else is iterable. *)
Definition py_iter (v : value) : result (list value) :=
  match v with
  | VList l => Ok l
  | VDoc kvs => Ok (map (λ kv, VStr kv.1) kvs)
  | VStr s => Ok (chars s)
  | _ => Raise TypeError
  end.

(** [set(v)]. *)
Definition py_set (v : value) : result (list value) :=
  l ← py_iter v;
  if forallb py_hashable l then Ok (py_set_of_list l []) else Raise TypeError.

(** [a - b] on sets. *)
Definition py_set_diff (a b : list value) : list value :=
  List.filter (λ x, negb (py_mem x b)) a.

(** Truth value of a dictionary: empty is false. *)
Definition py_truthy (d : document) : bool := negb (bool_decide (d = ∅)).

(* ===================================================================== *)
(** * The document store, as far as the manager drives it *)
(* ===================================================================== *)

(** A collection is the list of its documents in insertion order.  Field
    names are atomic (no dotted paths), and filters are conjunctions of the
    three condition shapes the manager writes.  Of what the server checks on
    a write, the unique indexes and the immutability of [_id] are modelled;
    any dictionary is otherwise a valid document.  Sorting compares an
    array-valued key as a whole; every key the manager sorts on is a date it
    stamped itself. *)
Module Mongo.

(** BSON's order across types: null, numbers, strings, documents, arrays,
    identifiers, booleans, dates. *)
Definition bson_rank (v : value) : Z :=
  match v with
  | VNull => 1
  | VInt _ => 2
  | VStr _ => 3
  | VDoc _ => 4
  | VList _ => 5
  | VOid _ => 7
  | VBool _ => 8
  | VDate _ => 9
  end.

Fixpoint bson_compare (v w : value) {struct v} : comparison :=
  match v, w with
  | VNull, VNull => Eq
  | VBool a, VBool b => Bool.compare a b
  | VInt a, VInt b => a ?= b
  | VStr a, VStr b => String.compare a b
  | VDate a, VDate b => a ?= b
  | VOid a, VOid b => (a ?= b)%N
  | VList l, VList m =>
      (fix go (l m : list value) {struct l} : comparison :=
         match l, m with
         | [], [] => Eq
         | [], _ :: _ => Lt
         | _ :: _, [] => Gt
         | x :: l', y :: m' =>
             match bson_compare x y with
             | Eq => go l' m'
             | c => c
             end
         end) l m
  | VDoc l, VDoc m =>
      (fix go (l m : list (string * value)) {struct l} : comparison :=
         match l, m with
         | [], [] => Eq
         | [], _ :: _ => Lt
         | _ :: _, [] => Gt
         | (k, x) :: l', (k', y) :: m' =>
             match bson_rank x ?= bson_rank y with
             | Eq =>
                 match String.compare k k' with
                 | Eq =>
                     match bson_compare x y with
                     | Eq => go l' m'
                     | c => c
                     end
                 | c => c
                 end
             | c => c
             end
         end) l m
  | _, _ => bson_rank v ?= bson_rank w
  end.

(** A sort or [$max] key: a missing field counts as null. *)
Definition sort_key (f : string) (d : document) : value := py_get d f.

(** ** Filters *)

Inductive cond : Type :=
  | FieldEq (f : string) (q : value)     (* {f: q} *)
  | FieldGt (f : string) (q : value)     (* {f: {"$gt": q}} *)
  | FieldGte (f : string) (q : value).   (* {f: {"$gte": q}} *)

(** A query condition on a field is tried on the stored value and, when that
    is an array, on each of its elements. *)
Definition candidates (fv : option value) : list value :=
  match fv with
  | None => []
  | Some (VList l) => VList l :: l
  | Some v => [v]
  end.

(** Comparison operators only relate values of one BSON type. *)
Definition cmp_holds (ok : comparison → bool) (q v : value) : bool :=
  (bson_rank v =? bson_rank q) && ok (bson_compare v q).

Definition is_gt (c : comparison) : bool :=
  match c with Gt => true | _ => false end.

Definition is_ge (c : comparison) : bool :=
  match c with Lt => false | _ => true end.

Definition cond_holds (d : document) (c : cond) : bool :=
  match c with
  | FieldEq f q =>
      match d !! f with
      | None => value_eqb q VNull
      | Some v => existsb (value_eqb q) (candidates (Some v))
      end
  | FieldGt f q => existsb (cmp_holds is_gt q) (candidates (d !! f))
  | FieldGte f q => existsb (cmp_holds is_ge q) (candidates (d !! f))
  end.

Definition matches (flt : list cond) (d : document) : bool :=
  forallb (cond_holds d) flt.

(** ** Unique indexes *)

(** The keys a document contributes to an index on [f]: a missing field is
    indexed as null, an array by its elements, an empty array as the
    undefined key (here [None]). *)
Definition index_keys (fv : option value) : list (option value) :=
  match fv with
  | None => [Some VNull]
  | Some (VList []) => [None]
  | Some (VList l) => Some <$> l
  | Some v => [Some v]
  end.

Definition key_clash (f : string) (doc d : document) : bool :=
  existsb (λ k, existsb (λ k', bool_decide (k = k')) (index_keys (d !! f)))
          (index_keys (doc !! f)).

(** Does [doc] collide with a document of [c] on one of the uniquely
    indexed fields? *)
Definition violates (unique : list string) (doc : document)
    (c : list document) : bool :=
  existsb (λ d, existsb (λ f, key_clash f doc d) unique) c.

(** ** insert_one *)

(** The driver adds a fresh [_id] to the caller's dictionary when it has
    none, before anything is sent. *)
Definition with_id (oid : N) (doc : document) : document :=
  match doc !! "_id" with
  | Some _ => doc
  | None => <["_id" := VOid oid]> doc
  end.

(** Returns the caller's dictionary as the driver leaves it, the collection
    afterwards, and [inserted_id] or the exception. *)
Definition insert_one (unique : list string) (oid : N) (doc : document)
    (c : list document) : document * list document * result value :=
  let doc' := with_id oid doc in
  if violates ("_id" :: unique) doc' c
  then (doc', c, Raise DuplicateKeyError)
  else (doc', c ++ [doc'], Ok (py_get doc' "_id")).

(** ** find_one, find *)

Definition find_one (flt : list cond) (c : list document) : option document :=
  List.find (matches flt) c.

(** Stable insertion into a list sorted on [f], greatest first. *)
Fixpoint insert_desc (f : string) (d : document) (sorted : list document)
    : list document :=
  match sorted with
  | [] => [d]
  | x :: rest =>
      match bson_compare (sort_key f d) (sort_key f x) with
      | Lt => x :: insert_desc f d rest
      | _ => d :: x :: rest
      end
  end.

Definition sort_desc (f : string) (c : list document) : list document :=
  foldr (insert_desc f) [] c.

(** [limit(n)]: zero means no limit, a negative limit counts as its absolute
    value. *)
Definition limit (n : Z) (c : list document) : list document :=
  if n =? 0 then c else take (Z.abs_nat n) c.

Definition find (flt : list cond) (c : list document) : list document :=
  List.filter (matches flt) c.

Definition find_one_sorted (flt : list cond) (f : string)
    (c : list document) : option document :=
  head (sort_desc f (find flt c)).

(** A [$text] query needs a text index; [_ensure_indexes] creates none. *)
Definition find_text (query : string) (flt : list cond) (c : list document)
    : result (list document) :=
  Raise OperationFailure.

(** ** update_one with [$set] *)

(** Splits a collection at its first document satisfying [p]. *)
Fixpoint split_first (p : document → bool) (c : list document)
    : option (list document * document * list document) :=
  match c with
  | [] => None
  | d :: c' =>
      if p d then Some ([], d, c')
      else
        match split_first p c' with
        | Some (before, x, after) => Some (d :: before, x, after)
        | None => None
        end
  end.

(** [$set]: the given fields replace or extend the document's ... *)
Definition set_fields (upd d : document) : document := upd ∪ d.

(** ... and [_id] is immutable. *)
Definition apply_set (upd d : document) : result document :=
  match upd !! "_id" with
  | Some i =>
      if bool_decide (d !! "_id" = Some i) then Ok (set_fields upd d)
      else Raise WriteError
  | None => Ok (set_fields upd d)
  end.

(** The document an upsert starts from: the equality conditions of the
    filter. *)
Fixpoint filter_seed (flt : list cond) : document :=
  match flt with
  | [] => ∅
  | FieldEq f q :: flt' => <[f := q]> (filter_seed flt')
  | _ :: flt' => filter_seed flt'
  end.

(** Returns the collection afterwards and [modified_count] or the
    exception. *)
Definition update_one (unique : list string) (flt : list cond)
    (upd : document) (upsert : bool) (oid : N) (c : list document)
    : list document * result nat :=
  match split_first (matches flt) c with
  | Some (before, d, after) =>
      match apply_set upd d with
      | Ok d' =>
          if violates unique d' (before ++ after)
          then (c, Raise DuplicateKeyError)
          else (before ++ d' :: after,
                Ok (if bool_decide (d' = d) then 0%nat else 1%nat))
      | Raise e => (c, Raise e)
      end
  | None =>
      if upsert then
        let '(_, c', r) := insert_one unique oid (upd ∪ filter_seed flt) c in
        (c', _ ← r; Ok 0%nat)
      else (c, Ok 0%nat)
  end.

End Mongo.

(* ===================================================================== *)
(** * MongoDBManager *)
(* ===================================================================== *)

(** One database per tenant, with the six collections [__init__] binds. *)
Record database : Type := {
  test_cases : list document;
  test_executions : list document;
  self_heal_decisions : list document;
  ui_snapshots : list document;
  code_changes : list document;
  llm_context_cache : list document
}.

Definition empty_database : database :=
  {| test_cases := []; test_executions := []; self_heal_decisions := [];
     ui_snapshots := []; code_changes := []; llm_context_cache := [] |}.

Definition set_test_cases (c : list document) (db : database) : database :=
  {| test_cases := c; test_executions := test_executions db;
     self_heal_decisions := self_heal_decisions db;
     ui_snapshots := ui_snapshots db; code_changes := code_changes db;
     llm_context_cache := llm_context_cache db |}.

Definition set_test_executions (c : list document) (db : database)
    : database :=
  {| test_cases := test_cases db; test_executions := c;
     self_heal_decisions := self_heal_decisions db;
     ui_snapshots := ui_snapshots db; code_changes := code_changes db;
     llm_context_cache := llm_context_cache db |}.

Definition set_self_heal_decisions (c : list document) (db : database)
    : database :=
  {| test_cases := test_cases db; test_executions := test_executions db;
     self_heal_decisions := c;
     ui_snapshots := ui_snapshots db; code_changes := code_changes db;
     llm_context_cache := llm_context_cache db |}.

Definition set_ui_snapshots (c : list document) (db : database) : database :=
  {| test_cases := test_cases db; test_executions := test_executions db;
     self_heal_decisions := self_heal_decisions db;
     ui_snapshots := c; code_changes := code_changes db;
     llm_context_cache := llm_context_cache db |}.

Definition set_llm_context_cache (c : list document) (db : database)
    : database :=
  {| test_cases := test_cases db; test_executions := test_executions db;
     self_heal_decisions := self_heal_decisions db;
     ui_snapshots := ui_snapshots db; code_changes := code_changes db;
     llm_context_cache := c |}.

(** The server: every database name denotes a database, empty until
    written. *)
Definition server : Type := string → database.

Definition empty_server : server := λ _, empty_database.

Definition set_database (name : string) (db : database) (s : server)
    : server :=
  λ n, if bool_decide (n = name) then db else s n.

Record MongoDBManager : Type := { hospital_id : string }.

(** [__init__]: the manager remembers its tenant ... *)
Definition MongoDBManager_init (hospital : string) : MongoDBManager :=
  {| hospital_id := hospital |}.

(** ... and works on the database [f"test_automation_{hospital_id}"]. *)
Definition db_name (self : MongoDBManager) : string :=
  "test_automation_" +:+ hospital_id self.

(** [_ensure_indexes]: the one unique index, on [test_cases.test_id]. *)
Definition test_cases_unique : list string := ["test_id"].

(** Clock ticks are milliseconds, the resolution of a stored date. *)
Definition hours (h : Z) : Z := h * 3600000.
Definition days (d : Z) : Z := d * 86400000.

(** A [datetime] lies between [datetime.min], the first instant of year 1,
    and [datetime.max], the last of year 9999; both are counted here from
    1970-01-01 like every date. *)
Definition datetime_min : Z := -62135596800000.
Definition datetime_max : Z := 253402300799999.

Definition in_datetime (t : Z) : bool :=
  (datetime_min <=? t) && (t <=? datetime_max).

(** [t + timedelta] and [t - timedelta]: an [OverflowError] when the result
    is no [datetime]; a [timedelta] too large to exist puts it there. *)
Definition datetime_add (t delta : Z) : result Z :=
  if in_datetime (t + delta) then Ok (t + delta) else Raise OverflowError.

Definition datetime_sub (t delta : Z) : result Z :=
  if in_datetime (t - delta) then Ok (t - delta) else Raise OverflowError.

(** ** The rows the aggregation pipelines produce *)

Record flaky_row : Type := {
  row_id : value;
  total_runs : nat;
  pass_count : nat;
  latest_execution : value;
  pass_rate : Q
}.

Record group_acc : Type := {
  g_id : value;
  g_total : nat;
  g_pass : nat;
  g_latest : value
}.

(** [$max]: null and missing values never win. *)
Definition acc_max (cur x : value) : value :=
  if Mongo.is_gt (Mongo.bson_compare x cur) then x else cur.

(** [$cond: [{$eq: [field, v]}, 1, 0]]. *)
Definition cond_eq_1_0 (d : document) (f : string) (v : value) : nat :=
  match d !! f with
  | Some x => if value_eqb x v then 1%nat else 0%nat
  | None => 0%nat
  end.

Definition group_new (d : document) : group_acc :=
  {| g_id := py_get d "test_case_id";
     g_total := 1;
     g_pass := cond_eq_1_0 d "status" (VStr "passed");
     g_latest := acc_max VNull (py_get d "timestamp") |}.

Definition group_step (g : group_acc) (d : document) : group_acc :=
  {| g_id := g_id g;
     g_total := S (g_total g);
     g_pass := (g_pass g + cond_eq_1_0 d "status" (VStr "passed"))%nat;
     g_latest := acc_max (g_latest g) (py_get d "timestamp") |}.

Fixpoint group_add (d : document) (gs : list group_acc) : list group_acc :=
  match gs with
  | [] => [group_new d]
  | g :: gs' =>
      if value_eqb (g_id g) (py_get d "test_case_id")
      then group_step g d :: gs'
      else g :: group_add d gs'
  end.

(** The [$group] stage of [get_flaky_tests]. *)
Definition group_by_test_case (c : list document) : list group_acc :=
  fold_left (λ gs d, group_add d gs) c [].

(** The [$addFields] stage: [$divide] of the two counters. *)
Definition add_pass_rate (g : group_acc) : flaky_row :=
  {| row_id := g_id g;
     total_runs := g_total g;
     pass_count := g_pass g;
     latest_execution := g_latest g;
     pass_rate := Z.of_nat (g_pass g) # Pos.of_nat (g_total g) |}.

(** The [$match] stage. *)
Definition flaky_match (pass_rate_min pass_rate_max : Q) (r : flaky_row)
    : bool :=
  Qle_bool pass_rate_min (pass_rate r) && Qle_bool (pass_rate r) pass_rate_max
  && (5 <=? total_runs r)%nat.

(** The [$sort] stage, ascending on [pass_rate]. *)
Fixpoint insert_by_rate (r : flaky_row) (sorted : list flaky_row)
    : list flaky_row :=
  match sorted with
  | [] => [r]
  | x :: rest =>
      if Qle_bool (pass_rate r) (pass_rate x) then r :: x :: rest
      else x :: insert_by_rate r rest
  end.

Definition sort_by_rate (rows : list flaky_row) : list flaky_row :=
  foldr insert_by_rate [] rows.

Record rate_row : Type := { total : nat; approved : nat }.

(** [$group] with [_id: None]: one row for all the input, none for no
    input. *)
Definition group_all (c : list document) : list rate_row :=
  match c with
  | [] => []
  | _ =>
      [ {| total := length c;
           approved :=
             list_sum (map (λ d, cond_eq_1_0 d "engineer_approved"
                                   (VBool true)) c) |} ]
  end.

Record status_acc : Type := {
  s_id : value;
  s_count : nat;
  s_sum : Z;        (* sum of the numeric durations *)
  s_numeric : nat   (* how many durations were numeric *)
}.

Definition duration_of (d : document) : option Z :=
  match d !! "duration_ms" with
  | Some (VInt n) => Some n
  | _ => None
  end.

Definition status_new (d : document) : status_acc :=
  {| s_id := py_get d "status";
     s_count := 1;
     s_sum := default 0 (duration_of d);
     s_numeric := match duration_of d with Some _ => 1 | None => 0 end |}.

Definition status_step (g : status_acc) (d : document) : status_acc :=
  {| s_id := s_id g;
     s_count := S (s_count g);
     s_sum := s_sum g + default 0 (duration_of d);
     s_numeric :=
       (s_numeric g + match duration_of d with Some _ => 1 | None => 0 end)%nat
  |}.

Fixpoint status_add (d : document) (gs : list status_acc) : list status_acc :=
  match gs with
  | [] => [status_new d]
  | g :: gs' =>
      if value_eqb (s_id g) (py_get d "status")
      then status_step g d :: gs'
      else g :: status_add d gs'
  end.

Definition group_by_status (c : list document) : list status_acc :=
  fold_left (λ gs d, status_add d gs) c [].

(** [$avg]: the mean of the numeric values, null when there is none. *)
Definition status_avg (g : status_acc) : option Q :=
  match s_numeric g with
  | O => None
  | S _ => Some (s_sum g # Pos.of_nat (s_numeric g))
  end.

(** A dictionary built key by key: an [==]-equal key keeps its place and
    takes the new value; an unhashable key is a [TypeError]. *)
Fixpoint py_dict_set {A : Type} (k : value) (a : A) (d : list (value * A))
    : list (value * A) :=
  match d with
  | [] => [(k, a)]
  | (k', a') :: d' =>
      if py_eqb k' k then (k', a) :: d' else (k', a') :: py_dict_set k a d'
  end.

Fixpoint stats_dict (rows : list status_acc)
    (acc : list (value * (nat * option Q)))
    : result (list (value * (nat * option Q))) :=
  match rows with
  | [] => Ok acc
  | r :: rows' =>
      if py_hashable (s_id r)
      then stats_dict rows' (py_dict_set (s_id r) (s_count r, status_avg r) acc)
      else Raise TypeError
  end.

(** ** The methods

    Each method is a function of [self.db]; the ones that write return the
    database afterwards, whether or not they raise. *)
Section Methods.

(** Python's [str] on an identifier. *)
Variable py_str : value → string.

Variable self : MongoDBManager.

(** *** Test case management *)

Definition create_test_case (now_created now_modified : Z) (oid : N)
    (test_case : document) (db : database)
    : document * database * result string :=
  let test_case :=
    py_update test_case
      {[ "hospital" := VStr (hospital_id self);
         "created_at" := VDate now_created;
         "last_modified" := VDate now_modified;
         "status" := VStr "active" ]} in
  let '(test_case, c, r) :=
    Mongo.insert_one test_cases_unique oid test_case (test_cases db) in
  (test_case, set_test_cases c db, inserted_id ← r; Ok (py_str inserted_id)).

Definition get_test_case (test_id : string) (db : database)
    : option document :=
  Mongo.find_one [Mongo.FieldEq "test_id" (VStr test_id)] (test_cases db).

Definition update_test_case (now : Z) (test_id : string) (updates : document)
    (db : database) : document * database * result bool :=
  let updates := <["last_modified" := VDate now]> updates in
  let '(c, r) :=
    Mongo.update_one test_cases_unique
      [Mongo.FieldEq "test_id" (VStr test_id)] updates false 0%N
      (test_cases db) in
  (updates, set_test_cases c db,
   modified_count ← r; Ok (0 <? modified_count)%nat).

(** *** Test execution tracking *)

Definition record_execution (now : Z) (oid : N) (execution_data : document)
    (db : database) : document * database * result string :=
  let execution_data :=
    py_update execution_data
      {[ "hospital" := VStr (hospital_id self);
         "timestamp" := VDate now ]} in
  let '(execution_data, c, r) :=
    Mongo.insert_one [] oid execution_data (test_executions db) in
  (execution_data, set_test_executions c db,
   inserted_id ← r; Ok (py_str inserted_id)).

Definition get_execution_history (test_case_id : string) (limit : Z)
    (db : database) : list document :=
  Mongo.limit limit
    (Mongo.sort_desc "timestamp"
       (Mongo.find [Mongo.FieldEq "test_case_id" (VStr test_case_id)]
          (test_executions db))).

Definition get_flaky_tests (pass_rate_min pass_rate_max : Q) (db : database)
    : list flaky_row :=
  sort_by_rate
    (List.filter (flaky_match pass_rate_min pass_rate_max)
       (map add_pass_rate (group_by_test_case (test_executions db)))).

(** *** Self-healing state management *)

Definition record_self_heal_decision (now : Z) (oid : N)
    (heal_data : document) (db : database)
    : document * database * result string :=
  let heal_data :=
    py_update heal_data
      {[ "hospital" := VStr (hospital_id self);
         "timestamp" := VDate now;
         "engineer_approved" :=
           py_get_default heal_data "engineer_approved" (VBool false) ]} in
  let '(heal_data, c, r) :=
    Mongo.insert_one [] oid heal_data (self_heal_decisions db) in
  (heal_data, set_self_heal_decisions c db,
   inserted_id ← r; Ok (py_str inserted_id)).

Definition get_pending_approvals (db : database) : list document :=
  Mongo.sort_desc "timestamp"
    (Mongo.find [Mongo.FieldEq "engineer_approved" (VBool false)]
       (self_heal_decisions db)).

(** The [$set] document of [approve_self_heal]. *)
Definition approval (now : Z) (engineer_notes : string) : document :=
  {[ "engineer_approved" := VBool true;
     "approved_at" := VDate now;
     "engineer_notes" := VStr engineer_notes ]}.

Definition approve_self_heal (now : Z) (heal_id : string)
    (engineer_notes : string) (db : database) : database * result bool :=
  let '(c, r) :=
    Mongo.update_one [] [Mongo.FieldEq "_id" (VStr heal_id)]
      (approval now engineer_notes) false 0%N (self_heal_decisions db) in
  (set_self_heal_decisions c db,
   modified_count ← r; Ok (0 <? modified_count)%nat).

Definition find_similar_past_heals (failure_reason : string) (limit : Z)
    (db : database) : result (list document) :=
  found ← Mongo.find_text failure_reason
            [Mongo.FieldEq "engineer_approved" (VBool true)]
            (self_heal_decisions db);
  Ok (Mongo.limit limit found).

(** *** UI snapshot tracking *)

Definition save_ui_snapshot (now : Z) (oid : N) (ui_data : document)
    (db : database) : document * database * result string :=
  let ui_data :=
    py_update ui_data
      {[ "hospital" := VStr (hospital_id self);
         "timestamp" := VDate now ]} in
  let '(ui_data, c, r) :=
    Mongo.insert_one [] oid ui_data (ui_snapshots db) in
  (ui_data, set_ui_snapshots c db, inserted_id ← r; Ok (py_str inserted_id)).

Definition get_latest_ui_snapshot (page_identifier : string) (db : database)
    : option document :=
  Mongo.find_one_sorted
    [Mongo.FieldEq "page_identifier" (VStr page_identifier)] "timestamp"
    (ui_snapshots db).

(** One entry of [changes]. *)
Definition change (type : string) (selectors : list value) : value :=
  VDoc [("type", VStr type); ("selectors", VList selectors)].

Definition first_observation : document :=
  {[ "is_new" := VBool true; "changes" := VList [] ]}.

Definition detect_ui_changes (page_identifier : string)
    (current_snapshot : document) (db : database) : result document :=
  match get_latest_ui_snapshot page_identifier db with
  | None => Ok first_observation
  | Some previous =>
      if negb (py_truthy previous) then Ok first_observation
      else
        prev_selectors ←
          py_set (py_get_default previous "selectors" (VList []));
        curr_selectors ←
          py_set (py_get_default current_snapshot "selectors" (VList []));
        let removed := py_set_diff prev_selectors curr_selectors in
        let added := py_set_diff curr_selectors prev_selectors in
        let changes :=
          (match removed with [] => [] | _ => [change "removed" removed] end)
          ++
          (match added with [] => [] | _ => [change "added" added] end) in
        Ok {[ "is_new" := VBool false;
              "has_changes" := VBool (0 <? length changes)%nat;
              "changes" := VList changes;
              "previous_timestamp" := py_get previous "timestamp" ]}
  end.

(** *** LLM context caching *)

Definition cache_llm_context (now_expiry now_created : Z) (oid : N)
    (prompt_hash : string) (context_data : value) (ttl_hours : Z)
    (db : database) : database * result unit :=
  match datetime_add now_expiry (hours ttl_hours) with
  | Raise e => (db, Raise e)
  | Ok expiry =>
      let '(c, r) :=
        Mongo.update_one [] [Mongo.FieldEq "prompt_hash" (VStr prompt_hash)]
          {[ "context_data" := context_data;
             "created_at" := VDate now_created;
             "expires_at" := VDate expiry ]}
          true oid (llm_context_cache db) in
      (set_llm_context_cache c db, _ ← r; Ok tt)
  end.

(** [None] is [VNull]. *)
Definition get_cached_context (now : Z) (prompt_hash : string)
    (db : database) : value :=
  match Mongo.find_one
          [Mongo.FieldEq "prompt_hash" (VStr prompt_hash);
           Mongo.FieldGt "expires_at" (VDate now)]
          (llm_context_cache db) with
  | Some cached =>
      if py_truthy cached then py_get cached "context_data" else VNull
  | None => VNull
  end.

(** *** Analytics and reporting *)

Definition get_self_heal_success_rate (now : Z) (days_back : Z)
    (db : database) : result Q :=
  start_date ← datetime_sub now (days days_back);
  Ok match group_all
             (Mongo.find [Mongo.FieldGte "timestamp" (VDate start_date)]
                (self_heal_decisions db)) with
     | r :: _ => Z.of_nat (approved r) # Pos.of_nat (total r)
     | [] => 0%Q
     end.

Definition get_test_execution_stats (now : Z) (days_back : Z)
    (db : database) : result (list (value * (nat * option Q))) :=
  start_date ← datetime_sub now (days days_back);
  stats_dict
    (group_by_status
       (Mongo.find [Mongo.FieldGte "timestamp" (VDate start_date)]
          (test_executions db)))
    [].

(** [ping] tells whether the server answered. *)
Definition health_check (ping : bool) : bool := ping.

End Methods.

(** ** Calls on a manager

    A call names a method together with its arguments and with what the
    method reads from its environment (clock readings, a fresh identifier,
    the answer to a ping). *)
Inductive call : Type :=
  | CreateTestCase (now_created now_modified : Z) (oid : N)
      (test_case : document)
  | GetTestCase (test_id : string)
  | UpdateTestCase (now : Z) (test_id : string) (updates : document)
  | RecordExecution (now : Z) (oid : N) (execution_data : document)
  | GetExecutionHistory (test_case_id : string) (limit : Z)
  | GetFlakyTests (pass_rate_min pass_rate_max : Q)
  | RecordSelfHealDecision (now : Z) (oid : N) (heal_data : document)
  | GetPendingApprovals
  | ApproveSelfHeal (now : Z) (heal_id : string) (engineer_notes : string)
  | FindSimilarPastHeals (failure_reason : string) (limit : Z)
  | SaveUiSnapshot (now : Z) (oid : N) (ui_data : document)
  | GetLatestUiSnapshot (page_identifier : string)
  | DetectUiChanges (page_identifier : string) (current_snapshot : document)
  | CacheLlmContext (now_expiry now_created : Z) (oid : N)
      (prompt_hash : string) (context_data : value) (ttl_hours : Z)
  | GetCachedContext (now : Z) (prompt_hash : string)
  | GetSelfHealSuccessRate (now : Z) (days_back : Z)
  | GetTestExecutionStats (now : Z) (days_back : Z)
  | HealthCheck (ping : bool).

(** What the caller sees of a call: the value returned or the exception
    raised and, for a method that takes a dictionary and mutates it, that
    dictionary afterwards. *)
Inductive reply : Type :=
  | RId (arg : document) (r : result string)
  | RFlag (r : result bool)
  | RUpdated (arg : document) (r : result bool)
  | RDocument (d : option document)
  | RDocuments (r : result (list document))
  | RFlaky (rows : list flaky_row)
  | RDiff (r : result document)
  | RNone (r : result unit)
  | RValue (v : value)
  | RRate (r : result Q)
  | RStats (r : result (list (value * (nat * option Q)))).

Section Dispatch.

Variable py_str : value → string.

(** One call on [self.db]. *)
Definition exec (self : MongoDBManager) (c : call) (db : database)
    : database * reply :=
  match c with
  | CreateTestCase t1 t2 oid d =>
      let '(d', db', r) := create_test_case py_str self t1 t2 oid d db in
      (db', RId d' r)
  | GetTestCase test_id => (db, RDocument (get_test_case test_id db))
  | UpdateTestCase t test_id updates =>
      let '(u', db', r) := update_test_case t test_id updates db in
      (db', RUpdated u' r)
  | RecordExecution t oid d =>
      let '(d', db', r) := record_execution py_str self t oid d db in
      (db', RId d' r)
  | GetExecutionHistory id n =>
      (db, RDocuments (Ok (get_execution_history id n db)))
  | GetFlakyTests lo hi => (db, RFlaky (get_flaky_tests lo hi db))
  | RecordSelfHealDecision t oid d =>
      let '(d', db', r) := record_self_heal_decision py_str self t oid d db in
      (db', RId d' r)
  | GetPendingApprovals => (db, RDocuments (Ok (get_pending_approvals db)))
  | ApproveSelfHeal t heal_id notes =>
      let '(db', r) := approve_self_heal t heal_id notes db in
      (db', RFlag r)
  | FindSimilarPastHeals reason n =>
      (db, RDocuments (find_similar_past_heals reason n db))
  | SaveUiSnapshot t oid d =>
      let '(d', db', r) := save_ui_snapshot py_str self t oid d db in
      (db', RId d' r)
  | GetLatestUiSnapshot page =>
      (db, RDocument (get_latest_ui_snapshot page db))
  | DetectUiChanges page current =>
      (db, RDiff (detect_ui_changes page current db))
  | CacheLlmContext t1 t2 oid h data ttl =>
      let '(db', r) := cache_llm_context t1 t2 oid h data ttl db in
      (db', RNone r)
  | GetCachedContext t h => (db, RValue (get_cached_context t h db))
  | GetSelfHealSuccessRate t n => (db, RRate (get_self_heal_success_rate t n db))
  | GetTestExecutionStats t n =>
      (db, RStats (get_test_execution_stats t n db))
  | HealthCheck ping => (db, RFlag (Ok (health_check ping)))
  end.

(** The same call on the server: [self.db] is the database named
    [db_name self]. *)
Definition run (self : MongoDBManager) (c : call) (s : server)
    : server * reply :=
  let '(db', r) := exec self c (s (db_name self)) in
  (set_database (db_name self) db' s, r).

(** A sequence of calls, each by some manager. *)
Fixpoint run_all (cs : list (MongoDBManager * call)) (s : server) : server :=
  match cs with
  | [] => s
  | (self, c) :: cs' => run_all cs' (run self c s).1
  end.

End Dispatch.

(* ===================================================================== *)
(** * Vocabulary of the properties *)
(* ===================================================================== *)

(** [c] splits at [d], its first document matching [flt]. *)
Definition first_match (flt : list Mongo.cond) (c before : list document)
    (d : document) (after : list document) : Prop :=
  c = before ++ d :: after
  ∧ Forall (λ x, Mongo.matches flt x = false) before
  ∧ Mongo.matches flt d = true.

Definition no_match (flt : list Mongo.cond) (c : list document) : Prop :=
  Forall (λ x, Mongo.matches flt x = false) c.

(** A document carries the date the manager stamped on it. *)
Definition stamped (d : document) : Prop :=
  ∃ t, d !! "timestamp" = Some (VDate t).

Definition timestamp_of (d : document) : Z :=
  match d !! "timestamp" with
  | Some (VDate t) => t
  | _ => 0
  end.

(** The filters of the manager, by name. *)
Definition by_test_id (test_id : string) : list Mongo.cond :=
  [Mongo.FieldEq "test_id" (VStr test_id)].

Definition by_id (heal_id : string) : list Mongo.cond :=
  [Mongo.FieldEq "_id" (VStr heal_id)].

Definition by_page (page_identifier : string) : list Mongo.cond :=
  [Mongo.FieldEq "page_identifier" (VStr page_identifier)].

(** ** Flaky tests, in the words of the specification *)

(** The executions of one test case. *)
Definition executions_of (id : value) (c : list document) : list document :=
  List.filter (λ d, value_eqb (py_get d "test_case_id") id) c.

Definition passed (d : document) : bool :=
  bool_decide (d !! "status" = Some (VStr "passed")).

Definition passed_count (g : list document) : nat :=
  length (List.filter passed g).

(** [t] is the greatest timestamp of [g]. *)
Definition max_timestamp (g : list document) (t : Z) : Prop :=
  (∃ d, d ∈ g ∧ d !! "timestamp" = Some (VDate t))
  ∧ ∀ d, d ∈ g → timestamp_of d ≤ t.

(** The row the specification asks for the test case [id]. *)
Definition is_row_of (c : list document) (id : value) (r : flaky_row) : Prop :=
  let g := executions_of id c in
  row_id r = id
  ∧ total_runs r = length g
  ∧ pass_count r = passed_count g
  ∧ pass_rate r = (Z.of_nat (passed_count g) # Pos.of_nat (length g))
  ∧ ∃ t, latest_execution r = VDate t ∧ max_timestamp g t.

(** ** Success rate, in the words of the specification *)

Definition in_window (start : Z) (d : document) : bool :=
  match d !! "timestamp" with
  | Some (VDate t) => start <=? t
  | _ => false
  end.

Definition is_approved (d : document) : bool :=
  bool_decide (d !! "engineer_approved" = Some (VBool true)).

(** ** The context cache *)

Definition cache_key (d : document) : option value := d !! "prompt_hash".

(** Every entry has a string key and a date of expiry, and no two entries
    share a key. *)
Definition cache_wf (c : list document) : Prop :=
  Forall (λ d, (∃ h, d !! "prompt_hash" = Some (VStr h))
               ∧ ∃ t, d !! "expires_at" = Some (VDate t)) c
  ∧ NoDup (map cache_key c).

(** The entry stored under the key [h], and when an entry expires. *)
Definition entry_of (h : string) (c : list document) : option document :=
  List.find (λ d, bool_decide (cache_key d = Some (VStr h))) c.

Definition expiry_of (d : document) : Z :=
  match d !! "expires_at" with
  | Some (VDate t) => t
  | _ => 0
  end.

Definition by_hash (prompt_hash : string) : list Mongo.cond :=
  [Mongo.FieldEq "prompt_hash" (VStr prompt_hash)].

(** [oid] is not yet in the index on [_id] of [c]. *)
Definition fresh (oid : N) (c : list document) : Prop :=
  Forall (λ d, Some (VOid oid) ∉ Mongo.index_keys (d !! "_id")) c.

(** ** Mutation of an argument *)

(** [after] is [before] with the fields of [stamp] written over it; [_id]
    apart, which the driver may add, nothing else differs. *)
Definition mutated_with (stamp before after : document) : Prop :=
  (∀ k v, stamp !! k = Some v → after !! k = Some v)
  ∧ (∀ k, stamp !! k = None → k ≠ "_id" → after !! k = before !! k).

(** A stand-in for Python's [str], to run the examples. *)
Definition show_id (v : value) : string :=
  match v with
  | VStr s => s
  | _ => "ObjectId"
  end.

(** ** The approval workflow *)

(** What a decision may become: it keeps its identifier, and its approval
    flag either stays or becomes true. *)
Definition approval_step (d d' : document) : Prop :=
  d' !! "_id" = d !! "_id"
  ∧ (d' !! "engineer_approved" = d !! "engineer_approved"
     ∨ d' !! "engineer_approved" = Some (VBool true)).

(** ** The [$group] and [$sort] stages *)

Definition test_case_of (d : document) : value := py_get d "test_case_id".

(** What [group_by_test_case] has accumulated for one test case after the
    executions [c]. *)
Definition group_of (c : list document) (g : group_acc) : Prop :=
  let e := executions_of (g_id g) c in
  g_total g = length e
  ∧ g_pass g = passed_count e
  ∧ ∃ t, g_latest g = VDate t ∧ max_timestamp e t.

Definition groups_of (c : list document) (gs : list group_acc) : Prop :=
  NoDup (g_id <$> gs)
  ∧ Forall (group_of c) gs
  ∧ ∀ d, d ∈ c → test_case_of d ∈ g_id <$> gs.

(** Ascending order of [pass_rate]. *)
Definition by_rate (a b : flaky_row) : Prop := (pass_rate a <= pass_rate b)%Q.

(** ** What every database written by managers alone satisfies *)

Definition database_wf (db : database) : Prop :=
  Forall stamped (test_executions db)
  ∧ Forall stamped (self_heal_decisions db)
  ∧ Forall stamped (ui_snapshots db)
  ∧ cache_wf (llm_context_cache db).

(** ** Lookups, histories and queues *)

(** No two documents of [c] share a key of the index on [f]. *)
Fixpoint unique_on (f : string) (c : list document) : Prop :=
  match c with
  | [] => True
  | d :: c' => Forall (λ x, Mongo.key_clash f d x = false) c' ∧ unique_on f c'
  end.

(** The registry keeps both of its indexes. *)
Definition registry_wf (db : database) : Prop :=
  unique_on "test_id" (test_cases db) ∧ unique_on "_id" (test_cases db).

Definition by_test_case (test_case_id : string) : list Mongo.cond :=
  [Mongo.FieldEq "test_case_id" (VStr test_case_id)].

Definition since (start_date : Z) : list Mongo.cond :=
  [Mongo.FieldGte "timestamp" (VDate start_date)].

Definition pending : list Mongo.cond :=
  [Mongo.FieldEq "engineer_approved" (VBool false)].

(** [a] is at least as recent as [b]. *)
Definition newest_first (a b : document) : Prop :=
  timestamp_of b ≤ timestamp_of a.

(** Every document of [c] is older than [now]. *)
Definition all_before (now : Z) (c : list document) : Prop :=
  Forall (λ d, timestamp_of d < now) c.

(** ** Tenant tags and the shape of cache entries *)

(** [d], stored in the database named [n], names the tenant of that
    database. *)
Definition tagged (n : string) (d : document) : Prop :=
  ∃ h, n = "test_automation_" +:+ h ∧ d !! "hospital" = Some (VStr h).

Definition cache_fields : gset string :=
  {[ "_id"; "prompt_hash"; "context_data"; "created_at"; "expires_at" ]}.

(** A name with a dot is a path into a document for [$set], not a field. *)
Fixpoint has_dot (k : string) : bool :=
  match k with
  | EmptyString => false
  | String c k' => String.eqb (String c EmptyString) "." || has_dot k'
  end.

(** Every execution, decision and snapshot of the database named [n] names
    the tenant of [n]. *)
Definition tagged_database (n : string) (db : database) : Prop :=
  Forall (tagged n) (test_executions db)
  ∧ Forall (tagged n) (self_heal_decisions db)
  ∧ Forall (tagged n) (ui_snapshots db).

(** ** What stays through the calls *)

(** The ledger and the snapshots only grow, and [code_changes] stays. *)
Definition append_only (db db' : database) : Prop :=
  test_executions db `prefix_of` test_executions db'
  ∧ ui_snapshots db `prefix_of` ui_snapshots db'
  ∧ code_changes db' = code_changes db.

(** What [d] may become: the same [_id] and, for a cache entry, the same
    key. *)
Definition kept (d d' : document) : Prop :=
  d' !! "_id" = d !! "_id" ∧ d' !! "prompt_hash" = d !! "prompt_hash".

Definition nothing_removed (db db' : database) : Prop :=
  (∀ i d, test_cases db !! i = Some d →
          ∃ d', test_cases db' !! i = Some d' ∧ d' !! "_id" = d !! "_id")
  ∧ ∀ i d, llm_context_cache db !! i = Some d →
           ∃ d', llm_context_cache db' !! i = Some d' ∧ kept d d'.

(** A group counts at least one run and no more passes than runs. *)
Definition counted (g : group_acc) : Prop :=
  (g_pass g ≤ g_total g)%nat ∧ (1 ≤ g_total g)%nat.

(** ** Execution statistics, in plain words *)

Definition with_status (status : value) (c : list document) : list document :=
  List.filter (λ d, value_eqb (py_get d "status") status) c.

(** The integer durations of [c]. *)
Definition durations (c : list document) : list Z := omap duration_of c.

Definition sum_Z (l : list Z) : Z := foldr Z.add 0 l.

(** The mean of the integer durations, [None] when there is none. *)
Definition mean_duration (c : list document) : option Q :=
  match durations c with
  | [] => None
  | l => Some (sum_Z l # Pos.of_nat (length l))
  end.

(** The entry of the statistics for one status. *)
Definition stats_entry (c : list document) (status : value)
    : value * (nat * option Q) :=
  (status, (length (with_status status c), mean_duration (with_status status c))).

(** A status that is a dictionary key of its own: hashable, and not a
    [bool], which Python takes for the integer 1 or 0. *)
Definition plain_status (v : value) : Prop :=
  py_hashable v = true ∧ py_key v = v.

(** What [$group] has accumulated for [status] over [c]. *)
Definition status_row (c : list document) (status : value) : status_acc :=
  {| s_id := status;
     s_count := length (with_status status c);
     s_sum := sum_Z (durations (with_status status c));
     s_numeric := length (durations (with_status status c)) |}.

(** [gs] is the grouping of [c] by status: one row per status met, each
    with the counts of that status. *)
Definition grouped (c : list document) (gs : list status_acc) : Prop :=
  NoDup (s_id <$> gs)
  ∧ (∀ v, v ∈ s_id <$> gs ↔ ∃ d, d ∈ c ∧ py_get d "status" = v)
  ∧ Forall (λ g, g = status_row c (s_id g)) gs.

(** The dictionary item made of one row. *)
Definition stats_item (r : status_acc) : value * (nat * option Q) :=
  (s_id r, (s_count r, status_avg r)).

(* ===================================================================== *)
(** * Stored states used as examples *)
(* ===================================================================== *)

(** A decision recorded under an identifier of the caller's, approved at
    time 100, and the same decision once approved again at time 200. *)
Definition heal_1 : document :=
  {[ "_id" := VStr "heal-1"; "test_id" := VStr "TC_LOGIN_001";
     "failure_reason" := VStr "Element not found: #submit-btn" ]}.

Definition heal_1_approved (approved_at : Z) : document :=
  {[ "_id" := VStr "heal-1"; "test_id" := VStr "TC_LOGIN_001";
     "failure_reason" := VStr "Element not found: #submit-btn";
     "hospital" := VStr "client_A"; "timestamp" := VDate 50;
     "engineer_approved" := VBool true; "approved_at" := VDate approved_at;
     "engineer_notes" := VStr "looks right" ]}.

Definition approved_once : database :=
  set_self_heal_decisions [heal_1_approved 100] empty_database.

Definition approved_twice : database :=
  set_self_heal_decisions [heal_1_approved 200] empty_database.

(** A test case as [create_test_case] stores it at time 100, and the same
    test case after an update at time 200 that names its present name. *)
Definition login_case (last_modified : Z) : document :=
  {[ "_id" := VOid 1; "test_id" := VStr "TC_LOGIN_001";
     "name" := VStr "Login"; "hospital" := VStr "client_A";
     "created_at" := VDate 100; "last_modified" := VDate last_modified;
     "status" := VStr "active" ]}.

Definition registry_before : database :=
  set_test_cases [login_case 100] empty_database.


(** Calls that try to store the test id "TC_1" twice. *)
Definition registry_calls : list (MongoDBManager * call) :=
  let a := MongoDBManager_init "client_A" in
  [ (a, CreateTestCase 1 1 1 {[ "test_id" := VStr "TC_1" ]});
    (a, CreateTestCase 2 2 2 {[ "test_id" := VStr "TC_1" ]});
    (a, CreateTestCase 3 3 3 {[ "test_id" := VStr "TC_2" ]});
    (a, UpdateTestCase 4 "TC_2" {[ "test_id" := VStr "TC_1" ]});
    (a, UpdateTestCase 5 "TC_2" {[ "name" := VStr "second" ]}) ].

(* ===================================================================== *)
(** * Basic facts about the store *)
(* ===================================================================== *)

Lemma database_eta (db : database) :
  {| test_cases := test_cases db; test_executions := test_executions db;
     self_heal_decisions := self_heal_decisions db;
     ui_snapshots := ui_snapshots db; code_changes := code_changes db;
     llm_context_cache := llm_context_cache db |} = db.
Proof. by destruct db. Qed.

Lemma set_test_cases_id db : set_test_cases (test_cases db) db = db.
Proof. apply database_eta. Qed.

Lemma set_test_executions_id db :
  set_test_executions (test_executions db) db = db.
Proof. apply database_eta. Qed.

Lemma set_self_heal_decisions_id db :
  set_self_heal_decisions (self_heal_decisions db) db = db.
Proof. apply database_eta. Qed.

Lemma set_ui_snapshots_id db : set_ui_snapshots (ui_snapshots db) db = db.
Proof. apply database_eta. Qed.

Lemma set_llm_context_cache_id db :
  set_llm_context_cache (llm_context_cache db) db = db.
Proof. apply database_eta. Qed.

Lemma split_first_Some p c before d after :
  Mongo.split_first p c = Some (before, d, after)
  ↔ c = before ++ d :: after ∧ Forall (λ x, p x = false) before ∧ p d = true.
Proof.
  revert before. induction c as [|x c IH]; intros before; simpl.
  - split; [discriminate|]. intros [H _]. by destruct before.
  - destruct (p x) eqn:Hx.
    + split.
      * intros [= <- <- <-]. auto.
      * intros (Hc & Hb & Hd). destruct before as [|y before].
        -- simpl in Hc. by injection Hc as -> ->.
        -- simpl in Hc. injection Hc as -> ->.
           apply Forall_cons in Hb as [Hy _]. congruence.
    + destruct (Mongo.split_first p c) as [[[b' d'] a']|] eqn:Hs.
      * split.
        -- intros [= <- <- <-].
           destruct (proj1 (IH b') eq_refl) as (-> & Hb & Hd).
           split; [done|]. split; [by constructor | done].
        -- intros (Hc & Hb & Hd). destruct before as [|y before].
           ++ simpl in Hc. injection Hc as -> ->. congruence.
           ++ simpl in Hc. injection Hc as -> ->.
              apply Forall_cons in Hb as [_ Hb].
              assert (Some (b', d', a') = Some (before, d, after)) as H.
              { apply IH. auto. }
              by injection H as -> -> ->.
      * split; [discriminate|].
        intros (Hc & Hb & Hd). destruct before as [|y before].
        -- simpl in Hc. injection Hc as -> ->. congruence.
        -- simpl in Hc. injection Hc as -> ->.
           apply Forall_cons in Hb as [_ Hb].
           assert (None = Some (before, d, after)) as H; [|done].
           apply IH. auto.
Qed.

Lemma split_first_None p c :
  Mongo.split_first p c = None ↔ Forall (λ x, p x = false) c.
Proof.
  induction c as [|x c IH]; simpl.
  - split; auto.
  - destruct (p x) eqn:Hx.
    + split; [discriminate|]. intros [H _]%Forall_cons. congruence.
    + destruct (Mongo.split_first p c) as [[[b d] a]|].
      * split; [discriminate|]. intros [_ H]%Forall_cons.
        by apply IH in H.
      * split; [|done]. intros _. constructor; [done|]. by apply IH.
Qed.

Lemma find_split_first p c :
  List.find p c = (λ x, x.1.2) <$> Mongo.split_first p c.
Proof.
  induction c as [|x c IH]; simpl; [done|].
  destruct (p x); [done|]. rewrite IH.
  by destruct (Mongo.split_first p c) as [[[b d] a]|].
Qed.

(** ** The tenant's database name *)

Lemma db_name_inj (a b : MongoDBManager) :
  db_name a = db_name b → hospital_id a = hospital_id b.
Proof. unfold db_name. simpl. by intros [= H]. Qed.

Lemma set_database_same name db s : set_database name db s name = db.
Proof. unfold set_database. by rewrite bool_decide_eq_true_2. Qed.


Lemma run_exec py_str self c s :
  run py_str self c s
  = (set_database (db_name self) (exec py_str self c (s (db_name self))).1 s,
     (exec py_str self c (s (db_name self))).2).
Proof. unfold run. by destruct (exec py_str self c (s (db_name self))). Qed.



(* ===================================================================== *)
(** * Tenant isolation *)
(* ===================================================================== *)



(* ===================================================================== *)
(** * Uniqueness of test cases *)
(* ===================================================================== *)

Lemma index_keys_clash (fv : option value) :
  existsb (λ k, existsb (λ k', bool_decide (k = k')) (Mongo.index_keys fv))
          (Mongo.index_keys fv) = true.
Proof.
  assert (∀ l : list (option value), l ≠ [] →
            existsb (λ k, existsb (λ k', bool_decide (k = k')) l) l = true)
    as H.
  { intros [|k l] Hl; [done|]. simpl.
    by rewrite bool_decide_eq_true_2. }
  apply H. destruct fv as [[| | | | | |[|x l]|]|]; simpl; discriminate.
Qed.

Lemma key_clash_same f (doc d : document) :
  doc !! f = d !! f → Mongo.key_clash f doc d = true.
Proof. intros H. unfold Mongo.key_clash. rewrite H. apply index_keys_clash. Qed.

Lemma violates_elem unique f (doc d : document) c :
  d ∈ c → f ∈ unique → doc !! f = d !! f → Mongo.violates unique doc c = true.
Proof.
  intros Hd Hf Heq. unfold Mongo.violates. apply existsb_exists.
  exists d. split; [by apply list_elem_of_In|].
  apply existsb_exists. exists f. split; [by apply list_elem_of_In|].
  by apply key_clash_same.
Qed.

Lemma with_id_lookup_ne oid (d : document) k :
  k ≠ "_id" → Mongo.with_id oid d !! k = d !! k.
Proof.
  intros H. unfold Mongo.with_id. destruct (d !! "_id"); [done|].
  by rewrite lookup_insert_ne.
Qed.

Lemma py_update_lookup_Some (d other : document) k v :
  other !! k = Some v → py_update d other !! k = Some v.
Proof. intros H. unfold py_update. by apply lookup_union_Some_l. Qed.

Lemma py_update_lookup_None (d other : document) k :
  other !! k = None → py_update d other !! k = d !! k.
Proof. intros H. unfold py_update. by apply lookup_union_r. Qed.

(** The caller's dictionary after [update] and [insert_one]. *)
Lemma stamped_argument oid (stamp d : document) :
  stamp !! "_id" = None →
  mutated_with stamp d (Mongo.with_id oid (py_update d stamp)).
Proof.
  intros Hid. split.
  - intros k v Hk. rewrite with_id_lookup_ne by congruence.
    by apply py_update_lookup_Some.
  - intros k Hk Hne. rewrite with_id_lookup_ne by done.
    by apply py_update_lookup_None.
Qed.

(** C2.  Creating a test case whose [test_id] is already that of a stored
    test case of the tenant raises [DuplicateKeyError], and leaves every
    database of the server, the tenant's included, as it was. *)
Theorem create_test_case_duplicate (py_str : value → string)
    (self : MongoDBManager) (now_created now_modified : Z) (oid : N)
    (test_case existing : document) (s : server) :
  existing ∈ test_cases (s (db_name self)) →
  existing !! "test_id" = test_case !! "test_id" →
  ∃ arg s',
    run py_str self (CreateTestCase now_created now_modified oid test_case) s
    = (s', RId arg (Raise DuplicateKeyError))
    ∧ ∀ n, s' n = s n.
Proof.
  intros Hin Heq. rewrite run_exec. simpl.
  unfold create_test_case, Mongo.insert_one.
  erewrite (violates_elem _ "test_id" _ existing); [| done | set_solver |].
  - simpl. do 2 eexists. split; [reflexivity|].
    intros n. rewrite set_test_cases_id. unfold set_database.
    case_bool_decide; by subst.
  - rewrite with_id_lookup_ne by done.
    rewrite py_update_lookup_None by done. done.
Qed.

Lemma create_test_case_duplicate_witness :
  let self := MongoDBManager_init "client_A" in
  let existing : document :=
    {[ "_id" := VOid 7; "test_id" := VStr "TC_PATIENT_REG_001";
       "status" := VStr "active" ]} in
  let s :=
    set_database (db_name self) (set_test_cases [existing] empty_database)
      empty_server in
  let test_case : document :=
    {[ "test_id" := VStr "TC_PATIENT_REG_001"; "name" := VStr "again" ]} in
  ∃ arg s',
    run show_id self (CreateTestCase 5 6 8 test_case) s
    = (s', RId arg (Raise DuplicateKeyError))
    ∧ ∀ n, s' n = s n.
Proof.
  intros self existing s test_case.
  apply (create_test_case_duplicate show_id self 5 6 8 test_case existing s).
  - vm_compute. constructor.
  - vm_compute. reflexivity.
Defined.

(* ===================================================================== *)
(** * Mutation of the caller's dictionary *)
(* ===================================================================== *)

Lemma insert_one_cases unique oid doc c :
  let '(arg, c', r) := Mongo.insert_one unique oid doc c in
  arg = Mongo.with_id oid doc
  ∧ ((∃ v, r = Ok v) ∧ c' = c ++ [arg] ∨ r = Raise DuplicateKeyError ∧ c' = c).
Proof.
  unfold Mongo.insert_one.
  destruct (Mongo.violates _ _ c); (split; [done|]); eauto.
Qed.

(** C10.  Each of the four writing methods overwrites, in the dictionary it
    is given, the tenant field and the timestamps ([create_test_case] also
    [status], with ["active"], whatever the caller had put there), and stores
    the dictionary so mutated.  The dictionary the caller holds afterwards is
    the mutated one whether the method returned or raised; when it raised,
    the database is as before. *)
Theorem writes_mutate_argument (py_str : value → string)
    (self : MongoDBManager) (now now' : Z) (oid : N) (given : document)
    (db : database) :
  (let '(arg, db', r) := create_test_case py_str self now now' oid given db in
   mutated_with
     {[ "hospital" := VStr (hospital_id self); "created_at" := VDate now;
        "last_modified" := VDate now'; "status" := VStr "active" ]}
     given arg
   ∧ ((∃ id, r = Ok id) ∧ test_cases db' = test_cases db ++ [arg]
      ∨ r = Raise DuplicateKeyError ∧ db' = db))
  ∧ (let '(arg, db', r) := record_execution py_str self now oid given db in
     mutated_with
       {[ "hospital" := VStr (hospital_id self); "timestamp" := VDate now ]}
       given arg
     ∧ ((∃ id, r = Ok id) ∧ test_executions db' = test_executions db ++ [arg]
        ∨ r = Raise DuplicateKeyError ∧ db' = db))
  ∧ (let '(arg, db', r) :=
       record_self_heal_decision py_str self now oid given db in
     mutated_with
       {[ "hospital" := VStr (hospital_id self); "timestamp" := VDate now;
          "engineer_approved" :=
            default (VBool false) (given !! "engineer_approved") ]}
       given arg
     ∧ ((∃ id, r = Ok id)
        ∧ self_heal_decisions db' = self_heal_decisions db ++ [arg]
        ∨ r = Raise DuplicateKeyError ∧ db' = db))
  ∧ (let '(arg, db', r) := save_ui_snapshot py_str self now oid given db in
     mutated_with
       {[ "hospital" := VStr (hospital_id self); "timestamp" := VDate now ]}
       given arg
     ∧ ((∃ id, r = Ok id) ∧ ui_snapshots db' = ui_snapshots db ++ [arg]
        ∨ r = Raise DuplicateKeyError ∧ db' = db)).
Proof.
  repeat split.
  - unfold create_test_case.
    pose proof (insert_one_cases test_cases_unique oid
      (py_update given
         {[ "hospital" := VStr (hospital_id self); "created_at" := VDate now;
            "last_modified" := VDate now'; "status" := VStr "active" ]})
      (test_cases db)) as H.
    destruct (Mongo.insert_one _ _ _ _) as [[arg c'] r].
    destruct H as [-> H]. split; [by apply stamped_argument|].
    destruct H as [[[v ->] ->]|[-> ->]]; [left|right]; simpl.
    + split; [eauto|done].
    + by rewrite set_test_cases_id.
  - unfold record_execution.
    pose proof (insert_one_cases [] oid
      (py_update given
         {[ "hospital" := VStr (hospital_id self); "timestamp" := VDate now ]})
      (test_executions db)) as H.
    destruct (Mongo.insert_one _ _ _ _) as [[arg c'] r].
    destruct H as [-> H]. split; [by apply stamped_argument|].
    destruct H as [[[v ->] ->]|[-> ->]]; [left|right]; simpl.
    + split; [eauto|done].
    + by rewrite set_test_executions_id.
  - unfold record_self_heal_decision.
    pose proof (insert_one_cases [] oid
      (py_update given
         {[ "hospital" := VStr (hospital_id self); "timestamp" := VDate now;
            "engineer_approved" :=
              py_get_default given "engineer_approved" (VBool false) ]})
      (self_heal_decisions db)) as H.
    destruct (Mongo.insert_one _ _ _ _) as [[arg c'] r].
    destruct H as [-> H]. split; [by apply stamped_argument|].
    destruct H as [[[v ->] ->]|[-> ->]]; [left|right]; simpl.
    + split; [eauto|done].
    + by rewrite set_self_heal_decisions_id.
  - unfold save_ui_snapshot.
    pose proof (insert_one_cases [] oid
      (py_update given
         {[ "hospital" := VStr (hospital_id self); "timestamp" := VDate now ]})
      (ui_snapshots db)) as H.
    destruct (Mongo.insert_one _ _ _ _) as [[arg c'] r].
    destruct H as [-> H]. split; [by apply stamped_argument|].
    destruct H as [[[v ->] ->]|[-> ->]]; [left|right]; simpl.
    + split; [eauto|done].
    + by rewrite set_ui_snapshots_id.
Qed.

(** The mutation survives a failed call: a duplicate [create_test_case]
    raises, and the caller's dictionary has been stamped all the same. *)
Example create_test_case_mutates_on_failure :
  let self := MongoDBManager_init "client_A" in
  let existing : document :=
    {[ "_id" := VOid 7; "test_id" := VStr "TC_1" ]} in
  let db := set_test_cases [existing] empty_database in
  let given : document :=
    {[ "test_id" := VStr "TC_1"; "status" := VStr "draft" ]} in
  create_test_case show_id self 5 6 8 given db
  = ({[ "_id" := VOid 8; "test_id" := VStr "TC_1"; "status" := VStr "active";
        "hospital" := VStr "client_A"; "created_at" := VDate 5;
        "last_modified" := VDate 6 ]},
     db, Raise DuplicateKeyError).
Proof. vm_compute. reflexivity. Qed.

(* ===================================================================== *)
(** * update_one *)
(* ===================================================================== *)

Lemma violates_nil (doc : document) c : Mongo.violates [] doc c = false.
Proof. unfold Mongo.violates. by induction c. Qed.


Lemma update_one_no_match unique flt upd oid c :
  no_match flt c →
  Mongo.update_one unique flt upd false oid c = (c, Ok 0%nat).
Proof.
  intros H. unfold Mongo.update_one.
  by rewrite (proj2 (split_first_None _ _) H).
Qed.

Lemma update_one_first_match unique flt upd upsert oid c before d after :
  first_match flt c before d after →
  Mongo.update_one unique flt upd upsert oid c
  = match Mongo.apply_set upd d with
    | Ok d' =>
        if Mongo.violates unique d' (before ++ after)
        then (c, Raise DuplicateKeyError)
        else (before ++ d' :: after,
              Ok (if bool_decide (d' = d) then 0%nat else 1%nat))
    | Raise e => (c, Raise e)
    end.
Proof.
  intros H. unfold Mongo.update_one.
  by rewrite (proj2 (split_first_Some _ _ _ _ _) H).
Qed.

Lemma first_match_or_none flt c :
  no_match flt c ∨ ∃ before d after, first_match flt c before d after.
Proof.
  destruct (Mongo.split_first (Mongo.matches flt) c) as [[[b d] a]|] eqn:H.
  - right. exists b, d, a. by apply split_first_Some.
  - left. by apply split_first_None.
Qed.

Lemma set_fields_lookup_Some (upd d : document) k v :
  upd !! k = Some v → Mongo.set_fields upd d !! k = Some v.
Proof. apply lookup_union_Some_l. Qed.

Lemma set_fields_lookup_None (upd d : document) k :
  upd !! k = None → Mongo.set_fields upd d !! k = d !! k.
Proof. apply lookup_union_r. Qed.

(** A [$set] leaves the document as it was exactly when every given field
    already has the given value. *)
Lemma set_fields_unchanged (upd d : document) :
  Mongo.set_fields upd d = d ↔ ∀ k v, upd !! k = Some v → d !! k = Some v.
Proof.
  unfold Mongo.set_fields. rewrite <- map_subseteq_spec. split.
  - intros <-. apply map_union_subseteq_l.
  - apply map_subseteq_union.
Qed.

Lemma approval_lookup now notes k :
  approval now notes !! k
  = if bool_decide (k = "engineer_approved") then Some (VBool true)
    else if bool_decide (k = "approved_at") then Some (VDate now)
    else if bool_decide (k = "engineer_notes") then Some (VStr notes)
    else None.
Proof.
  unfold approval. repeat case_bool_decide; subst; simplify_map_eq; done.
Qed.

(* ===================================================================== *)
(** * The approval workflow *)
(* ===================================================================== *)

Lemma approve_self_heal_no_match now heal_id notes db :
  no_match (by_id heal_id) (self_heal_decisions db) →
  approve_self_heal now heal_id notes db = (db, Ok false).
Proof.
  intros H. unfold approve_self_heal.
  change [Mongo.FieldEq "_id" (VStr heal_id)] with (by_id heal_id).
  rewrite update_one_no_match by done. simpl.
  by rewrite set_self_heal_decisions_id.
Qed.

Lemma approve_self_heal_first_match now heal_id notes db before d after :
  first_match (by_id heal_id) (self_heal_decisions db) before d after →
  approve_self_heal now heal_id notes db
  = (set_self_heal_decisions
       (before ++ Mongo.set_fields (approval now notes) d :: after) db,
     Ok (negb (bool_decide (Mongo.set_fields (approval now notes) d = d)))).
Proof.
  intros H. unfold approve_self_heal.
  change [Mongo.FieldEq "_id" (VStr heal_id)] with (by_id heal_id).
  rewrite (update_one_first_match _ _ _ _ _ _ _ _ _ H).
  unfold Mongo.apply_set. rewrite approval_lookup. simpl.
  rewrite violates_nil. simpl. by case_bool_decide.
Qed.

(** C3, as stated, fails.  A decision is recorded under the identifier
    ["heal-1"] and approved at time 100; approving it again at time 200, with
    the same notes, returns [True] and stamps [approved_at] anew. *)
Lemma approve_again_is_not_a_noop :
  let self := MongoDBManager_init "client_A" in
  let recorded :=
    record_self_heal_decision show_id self 50 9 heal_1 empty_database in
  recorded.2 = Ok "heal-1"
  ∧ approve_self_heal 100 "heal-1" "looks right" recorded.1.2
    = (approved_once, Ok true)
  ∧ approve_self_heal 200 "heal-1" "looks right" approved_once
    = (approved_twice, Ok true)
  ∧ approved_twice ≠ approved_once.
Proof.
  split; [vm_compute; reflexivity|].
  split; [vm_compute; reflexivity|].
  split; [vm_compute; reflexivity|].
  intros H. apply (f_equal self_heal_decisions) in H.
  apply (f_equal (λ c, (λ d : document, d !! "approved_at") <$> head c)) in H.
  vm_compute in H. discriminate.
Qed.

(** C3, amended.  [approve_self_heal] is one unconditional update of the
    first decision whose [_id] is [heal_id].  When there is none it changes
    nothing and returns [False].  When there is one, approved or not, it sets
    [engineer_approved] to true, [approved_at] to the present time and
    [engineer_notes] to the notes, leaves the other fields alone, and returns
    [False] exactly when the decision already held these three values. *)
Theorem approve_self_heal_unconditional (now : Z) (heal_id notes : string)
    (db : database) :
  (no_match (by_id heal_id) (self_heal_decisions db) →
   approve_self_heal now heal_id notes db = (db, Ok false))
  ∧ ∀ before d after,
      first_match (by_id heal_id) (self_heal_decisions db) before d after →
      ∃ d' changed,
        approve_self_heal now heal_id notes db
        = (set_self_heal_decisions (before ++ d' :: after) db, Ok changed)
        ∧ d' !! "engineer_approved" = Some (VBool true)
        ∧ d' !! "approved_at" = Some (VDate now)
        ∧ d' !! "engineer_notes" = Some (VStr notes)
        ∧ (∀ k, k ∉ ["engineer_approved"; "approved_at"; "engineer_notes"] →
                d' !! k = d !! k)
        ∧ (changed = false
           ↔ d !! "engineer_approved" = Some (VBool true)
             ∧ d !! "approved_at" = Some (VDate now)
             ∧ d !! "engineer_notes" = Some (VStr notes)).
Proof.
  split; [apply approve_self_heal_no_match|].
  intros before d after H.
  exists (Mongo.set_fields (approval now notes) d),
    (negb (bool_decide (Mongo.set_fields (approval now notes) d = d))).
  split; [by apply approve_self_heal_first_match|].
  split; [by apply set_fields_lookup_Some|].
  split; [by apply set_fields_lookup_Some|].
  split; [by apply set_fields_lookup_Some|].
  split.
  - intros k Hk. apply set_fields_lookup_None. rewrite approval_lookup.
    repeat case_bool_decide; subst; try done; set_solver.
  - rewrite negb_false_iff, bool_decide_eq_true, set_fields_unchanged. split.
    + intros Hc. repeat split; apply Hc; by rewrite approval_lookup.
    + intros (H1 & H2 & H3) k v. rewrite approval_lookup.
      repeat case_bool_decide; subst; congruence.
Qed.

Lemma approve_self_heal_unconditional_witness :
  let pending : document :=
    {[ "_id" := VStr "heal-2"; "engineer_approved" := VBool false ]} in
  let db := set_self_heal_decisions [pending] empty_database in
  ∃ d' changed,
    approve_self_heal 300 "heal-2" "ok" db
    = (set_self_heal_decisions ([] ++ d' :: []) db, Ok changed)
    ∧ d' !! "engineer_approved" = Some (VBool true)
    ∧ d' !! "approved_at" = Some (VDate 300)
    ∧ d' !! "engineer_notes" = Some (VStr "ok")
    ∧ (∀ k, k ∉ ["engineer_approved"; "approved_at"; "engineer_notes"] →
            d' !! k = pending !! k)
    ∧ (changed = false
       ↔ pending !! "engineer_approved" = Some (VBool true)
         ∧ pending !! "approved_at" = Some (VDate 300)
         ∧ pending !! "engineer_notes" = Some (VStr "ok")).
Proof.
  intros pending db.
  apply (proj2 (approve_self_heal_unconditional 300 "heal-2" "ok" db)
           [] pending []).
  split; [reflexivity|]. split; [constructor|]. vm_compute. reflexivity.
Defined.

(** The identifier [record_self_heal_decision] returns for a decision it had
    to name itself is a string, and the stored [_id] is not: such a decision
    is matched by no [heal_id]. *)
Lemma generated_id_never_matches (heal_id : string) (oid : N) (d : document) :
  d !! "_id" = Some (VOid oid) → Mongo.matches (by_id heal_id) d = false.
Proof. intros H. unfold by_id, Mongo.matches. simpl. by rewrite H. Qed.

(** So, whatever [str] makes of an [ObjectId]: a decision recorded without an
    [_id] of the caller's is not approved by the identifier that recording it
    returned. *)
Lemma approve_by_returned_id (py_str : value → string)
    (self : MongoDBManager) (now now' : Z) (oid : N) (heal_data : document)
    (notes : string) :
  heal_data !! "_id" = None →
  let recorded :=
    record_self_heal_decision py_str self now oid heal_data empty_database in
  recorded.2 = Ok (py_str (VOid oid))
  ∧ approve_self_heal now' (py_str (VOid oid)) notes recorded.1.2
    = (recorded.1.2, Ok false).
Proof.
  intros Hid. unfold record_self_heal_decision, Mongo.insert_one. simpl.
  match goal with
  | |- context [Mongo.with_id oid ?d] =>
      assert (Mongo.with_id oid d !! "_id" = Some (VOid oid)) as Hoid
  end.
  { unfold Mongo.with_id. rewrite py_update_lookup_None by done.
    rewrite Hid. apply lookup_insert_eq. }
  split.
  - unfold py_get. by rewrite Hoid.
  - apply approve_self_heal_no_match. simpl. constructor; [|constructor].
    by apply (generated_id_never_matches _ oid).
Qed.

(* ===================================================================== *)
(** * Updating a test case *)
(* ===================================================================== *)


Lemma update_test_case_eq now test_id updates db :
  update_test_case now test_id updates db
  = let updates' := <["last_modified" := VDate now]> updates in
    let cr :=
      Mongo.update_one test_cases_unique (by_test_id test_id) updates' false
        0%N (test_cases db) in
    (updates', set_test_cases cr.1 db, n ← cr.2; Ok (0 <? n)%nat).
Proof.
  unfold update_test_case, by_test_id. simpl.
  by destruct (Mongo.update_one _ _ _ _ _ _).
Qed.



(* ===================================================================== *)
(** * Approval is monotone *)
(* ===================================================================== *)

Lemma approval_step_refl d : approval_step d d.
Proof. split; auto. Qed.

Lemma approval_step_trans d1 d2 d3 :
  approval_step d1 d2 → approval_step d2 d3 → approval_step d1 d3.
Proof.
  intros [Hi1 H1] [Hi2 H2]. split; [congruence|].
  destruct H2 as [H2|H2]; [|by right].
  destruct H1 as [H1|H1]; [left|right]; congruence.
Qed.

Lemma insert_one_keeps unique oid doc (c : list document) i d :
  c !! i = Some d → (Mongo.insert_one unique oid doc c).1.2 !! i = Some d.
Proof.
  intros H. unfold Mongo.insert_one.
  destruct (Mongo.violates _ _ c); simpl; [done|].
  by apply lookup_app_l_Some.
Qed.

Lemma approve_self_heal_step now heal_id notes db i d :
  self_heal_decisions db !! i = Some d →
  ∃ d', self_heal_decisions (approve_self_heal now heal_id notes db).1 !! i
        = Some d'
        ∧ approval_step d d'.
Proof.
  intros Hi.
  destruct (first_match_or_none (by_id heal_id) (self_heal_decisions db))
    as [Hno|(before & x & after & Hm)].
  - rewrite approve_self_heal_no_match by done. simpl.
    exists d. split; [done|apply approval_step_refl].
  - rewrite (approve_self_heal_first_match _ _ _ _ _ _ _ Hm). simpl.
    destruct Hm as (Hc & _ & _). rewrite Hc in Hi.
    destruct (decide (i = length before)) as [->|Hne].
    + rewrite list_lookup_middle in Hi by done. injection Hi as <-.
      rewrite list_lookup_middle by done. eexists. split; [done|].
      split.
      * apply set_fields_lookup_None. by rewrite approval_lookup.
      * right. apply set_fields_lookup_Some. by rewrite approval_lookup.
    + exists d. split; [|apply approval_step_refl].
      rewrite <- Hi. destruct (decide (i < length before)%nat).
      * by rewrite !lookup_app_l.
      * rewrite !lookup_app_r by lia.
        replace (i - length before)%nat with (S (i - length before - 1))
          by lia.
        done.
Qed.

(** One call changes a stored decision by an [approval_step] at most. *)
Lemma exec_approval_step py_str self c db i d :
  self_heal_decisions db !! i = Some d →
  ∃ d', self_heal_decisions (exec py_str self c db).1 !! i = Some d'
        ∧ approval_step d d'.
Proof.
  intros Hi.
  destruct c; simpl;
    try (exists d; split; [exact Hi|apply approval_step_refl]).
  - unfold create_test_case.
    destruct (Mongo.insert_one _ _ _ _) as [[? ?] ?]. simpl.
    exists d. split; [exact Hi|apply approval_step_refl].
  - rewrite update_test_case_eq. simpl.
    exists d. split; [exact Hi|apply approval_step_refl].
  - unfold record_execution.
    destruct (Mongo.insert_one _ _ _ _) as [[? ?] ?]. simpl.
    exists d. split; [exact Hi|apply approval_step_refl].
  - unfold record_self_heal_decision.
    match goal with
    | |- context [Mongo.insert_one ?u ?o ?x ?c] =>
        pose proof (insert_one_keeps u o x c i d Hi) as Hk;
        destruct (Mongo.insert_one u o x c) as [[? ?] ?]
    end.
    simpl in *. exists d. split; [exact Hk|apply approval_step_refl].
  - pose proof (approve_self_heal_step now heal_id engineer_notes db i d Hi)
      as Hs.
    destruct (approve_self_heal now heal_id engineer_notes db). exact Hs.
  - unfold save_ui_snapshot.
    destruct (Mongo.insert_one _ _ _ _) as [[? ?] ?]. simpl.
    exists d. split; [exact Hi|apply approval_step_refl].
  - unfold cache_llm_context.
    destruct (datetime_add _ _);
      [destruct (Mongo.update_one _ _ _ _ _ _) as [? ?]|]; simpl;
      (exists d; split; [exact Hi|apply approval_step_refl]).
Qed.

Lemma run_approval_step py_str self c s n i d :
  self_heal_decisions (s n) !! i = Some d →
  ∃ d', self_heal_decisions ((run py_str self c s).1 n) !! i = Some d'
        ∧ approval_step d d'.
Proof.
  intros Hi. rewrite run_exec. simpl. unfold set_database.
  case_bool_decide as Hn.
  - subst n. by apply exec_approval_step.
  - exists d. split; [done|apply approval_step_refl].
Qed.

Lemma run_all_approval_step py_str cs s n i d :
  self_heal_decisions (s n) !! i = Some d →
  ∃ d', self_heal_decisions (run_all py_str cs s n) !! i = Some d'
        ∧ approval_step d d'.
Proof.
  revert s d. induction cs as [|[m c] cs IH]; intros s d Hi; simpl.
  - exists d. split; [done|apply approval_step_refl].
  - destruct (run_approval_step py_str m c s n i d Hi) as (d1 & H1 & S1).
    destruct (IH _ _ H1) as (d2 & H2 & S2).
    exists d2. split; [done|]. by eapply approval_step_trans.
Qed.

(** C4.  Approval monotonicity.  Take any decision stored in any tenant's
    database and any later sequence of calls by any managers.  The decision
    is still stored, in the same place and under the same [_id]; if
    [engineer_approved] was true it is true; and if [engineer_approved] has
    changed at all, it has become true. *)
Theorem approval_monotone (py_str : value → string)
    (calls : list (MongoDBManager * call)) (s : server) (n : string)
    (i : nat) (d : document) :
  self_heal_decisions (s n) !! i = Some d →
  ∃ d',
    self_heal_decisions (run_all py_str calls s n) !! i = Some d'
    ∧ d' !! "_id" = d !! "_id"
    ∧ (d !! "engineer_approved" = Some (VBool true) →
       d' !! "engineer_approved" = Some (VBool true))
    ∧ (d' !! "engineer_approved" ≠ d !! "engineer_approved" →
       d' !! "engineer_approved" = Some (VBool true)).
Proof.
  intros Hi.
  destruct (run_all_approval_step py_str calls s n i d Hi)
    as (d' & H' & Hid & Hea).
  exists d'. split; [done|]. split; [done|]. split.
  - intros Ht. destruct Hea; congruence.
  - intros Hne. by destruct Hea.
Qed.

Lemma approval_monotone_witness :
  let a := MongoDBManager_init "client_A" in
  let approved : document :=
    {[ "_id" := VStr "heal-1"; "engineer_approved" := VBool true;
       "approved_at" := VDate 100; "engineer_notes" := VStr "" ]} in
  let s :=
    set_database (db_name a)
      (set_self_heal_decisions [approved] empty_database) empty_server in
  let calls :=
    [(a, RecordSelfHealDecision 150 9
           {[ "_id" := VStr "heal-1"; "engineer_approved" := VBool false ]});
     (a, ApproveSelfHeal 200 "heal-1" "again");
     (a, UpdateTestCase 250 "heal-1" {[ "engineer_approved" := VBool false ]})]
  in
  ∃ d',
    self_heal_decisions (run_all show_id calls s (db_name a)) !! 0%nat
    = Some d'
    ∧ d' !! "_id" = approved !! "_id"
    ∧ (approved !! "engineer_approved" = Some (VBool true) →
       d' !! "engineer_approved" = Some (VBool true))
    ∧ (d' !! "engineer_approved" ≠ approved !! "engineer_approved" →
       d' !! "engineer_approved" = Some (VBool true)).
Proof.
  intros a approved s calls.
  apply (approval_monotone show_id calls s (db_name a) 0 approved).
  vm_compute. reflexivity.
Defined.

(* ===================================================================== *)
(** * Success rate of self-healing *)
(* ===================================================================== *)

Lemma is_ge_compare (t start : Z) :
  Mongo.is_ge (t ?= start) = (start <=? t).
Proof.
  destruct (Z.compare_spec t start); simpl; symmetry;
    [apply Z.leb_le | apply Z.leb_gt | apply Z.leb_le]; lia.
Qed.

Lemma is_gt_compare (t now : Z) :
  Mongo.is_gt (t ?= now) = (now <? t).
Proof.
  destruct (Z.compare_spec t now); simpl; symmetry;
    [apply Z.ltb_ge | apply Z.ltb_ge | apply Z.ltb_lt]; lia.
Qed.

(** On a stamped document the [$gte] filter is the comparison of dates. *)
Lemma matches_since start (d : document) :
  stamped d →
  Mongo.matches [Mongo.FieldGte "timestamp" (VDate start)] d
  = in_window start d.
Proof.
  intros [t Ht]. unfold Mongo.matches, in_window. simpl. rewrite Ht. simpl.
  unfold Mongo.cmp_holds. simpl. rewrite is_ge_compare.
  by rewrite orb_false_r, andb_true_r.
Qed.

Lemma find_since start (c : list document) :
  Forall stamped c →
  Mongo.find [Mongo.FieldGte "timestamp" (VDate start)] c
  = List.filter (in_window start) c.
Proof.
  unfold Mongo.find. induction 1 as [|d c Hd _ IH]; [done|].
  cbn [List.filter]. rewrite matches_since by done. by rewrite IH.
Qed.

Lemma cond_eq_1_0_count (f : string) (v : value) (c : list document) :
  list_sum (map (λ d, cond_eq_1_0 d f v) c)
  = length (List.filter (λ d, bool_decide (d !! f = Some v)) c).
Proof.
  induction c as [|d c IH]; simpl; [done|]. rewrite IH.
  unfold cond_eq_1_0. destruct (d !! f) as [x|] eqn:Hx.
  - destruct (value_eqb x v) eqn:E.
    + apply value_eqb_eq in E as ->. by rewrite bool_decide_eq_true_2.
    + apply value_eqb_neq in E. rewrite bool_decide_eq_false_2; [done|].
      congruence.
  - by rewrite bool_decide_eq_false_2.
Qed.

(** C8.  When the start of the window, [now] minus [days], is a [datetime],
    and over the decisions stamped at or after it,
    [get_self_heal_success_rate] returns the number of approved ones divided
    by their number, and returns 0, without raising, when there is none. *)
Theorem success_rate_spec (now days_back : Z) (db : database) :
  Forall stamped (self_heal_decisions db) →
  in_datetime (now - days days_back) = true →
  let window :=
    List.filter (in_window (now - days days_back)) (self_heal_decisions db) in
  let total_count := length window in
  let approved_count := length (List.filter is_approved window) in
  (total_count = 0%nat →
   get_self_heal_success_rate now days_back db = Ok 0%Q)
  ∧ (total_count ≠ 0%nat →
     get_self_heal_success_rate now days_back db
     = Ok (Z.of_nat approved_count # Pos.of_nat total_count)
     ∧ (Z.of_nat approved_count # Pos.of_nat total_count
        == inject_Z (Z.of_nat approved_count)
           / inject_Z (Z.of_nat total_count))%Q).
Proof.
  intros Hst Hrange window total_count approved_count.
  unfold get_self_heal_success_rate, datetime_sub. rewrite Hrange.
  cbn [mbind result_bind]. rewrite find_since by done.
  fold window. unfold group_all.
  subst total_count approved_count. destruct window as [|d w] eqn:Hw.
  - split; [done|]. intros H. by destruct H.
  - split; [discriminate|]. intros _. cbn [approved total].
    rewrite cond_eq_1_0_count.
    assert ((Z.of_nat (length (List.filter is_approved (d :: w)))
             # Pos.of_nat (length (d :: w)))
            == inject_Z (Z.of_nat (length (List.filter is_approved (d :: w))))
               / inject_Z (Z.of_nat (length (d :: w))))%Q as Hq.
    { rewrite Qmake_Qdiv. simpl length at 2 3.
      by rewrite <- Pos.of_nat_succ, Zpos_P_of_succ_nat, <- Nat2Z.inj_succ. }
    split; [reflexivity|exact Hq].
Qed.

Lemma success_rate_spec_witness :
  let decision (t : Z) (ok : bool) : document :=
    {[ "timestamp" := VDate t; "engineer_approved" := VBool ok ]} in
  let db :=
    set_self_heal_decisions
      [decision 5 true; decision (days 20) true; decision (days 25) false;
       decision (days 28) true]
      empty_database in
  get_self_heal_success_rate (days 40) 30 db = Ok (2 # 3)%Q
  ∧ get_self_heal_success_rate (days 40) 5 db = Ok 0%Q.
Proof.
  intros decision db.
  assert (Forall stamped (self_heal_decisions db)) as Hst.
  { repeat constructor; eexists; vm_compute; reflexivity. }
  split.
  - refine (proj1 (proj2 (success_rate_spec (days 40) 30 db Hst _) _)).
    + vm_compute. reflexivity.
    + vm_compute. discriminate.
  - refine (proj1 (success_rate_spec (days 40) 5 db Hst _) _).
    + vm_compute. reflexivity.
    + vm_compute. reflexivity.
Defined.

(* ===================================================================== *)
(** * The context cache *)
(* ===================================================================== *)

Lemma find_app {A : Type} (p : A → bool) (l1 l2 : list A) :
  List.find p (l1 ++ l2)
  = match List.find p l1 with
    | Some x => Some x
    | None => List.find p l2
    end.
Proof. induction l1 as [|x l1 IH]; simpl; [done|]. by destruct (p x). Qed.

Lemma find_none_Forall {A : Type} (p : A → bool) (l : list A) :
  List.find p l = None ↔ Forall (λ x, p x = false) l.
Proof.
  induction l as [|x l IH]; simpl; [by split|].
  destruct (p x) eqn:Hx.
  - split; [discriminate|]. intros [H _]%Forall_cons. congruence.
  - rewrite IH. split; [by constructor|]. by intros [_ H]%Forall_cons.
Qed.

Lemma find_ext_Forall {A : Type} (p q : A → bool) (l : list A) :
  Forall (λ x, p x = q x) l → List.find p l = List.find q l.
Proof. induction 1 as [|x l Hx _ IH]; simpl; [done|]. by rewrite Hx, IH. Qed.

(** On a well-formed entry the filter on [prompt_hash] is the comparison of
    keys, and the filter on [expires_at] the comparison of dates. *)
Lemma matches_by_hash (h h' : string) (d : document) :
  d !! "prompt_hash" = Some (VStr h') →
  Mongo.matches (by_hash h) d = bool_decide (cache_key d = Some (VStr h)).
Proof.
  intros H. unfold Mongo.matches, by_hash, cache_key. simpl. rewrite H. simpl.
  rewrite String.eqb_sym, !orb_false_r, andb_true_r.
  destruct (String.eqb_spec h' h) as [->|Hne].
  - by rewrite bool_decide_eq_true_2.
  - rewrite bool_decide_eq_false_2; [done|]. congruence.
Qed.

Lemma unexpired_filter (now t : Z) (d : document) :
  d !! "expires_at" = Some (VDate t) →
  Mongo.cond_holds d (Mongo.FieldGt "expires_at" (VDate now)) = (now <? t).
Proof.
  intros H. simpl. rewrite H. simpl. unfold Mongo.cmp_holds. simpl.
  by rewrite is_gt_compare, orb_false_r.
Qed.

Lemma cache_wf_cons d c :
  cache_wf (d :: c)
  ↔ (((∃ h, d !! "prompt_hash" = Some (VStr h))
      ∧ (∃ t, d !! "expires_at" = Some (VDate t)))
     ∧ (cache_key d ∉ map cache_key c)
     ∧ cache_wf c).
Proof.
  unfold cache_wf. rewrite Forall_cons. simpl. rewrite NoDup_cons. tauto.
Qed.

Lemma entry_of_None_not_in h c :
  Some (VStr h) ∉ map cache_key c → entry_of h c = None.
Proof.
  intros H. apply find_none_Forall. apply Forall_forall. intros d Hd.
  apply bool_decide_eq_false_2. intros Hk. apply H.
  rewrite <- Hk. apply list_elem_of_In, in_map. by apply list_elem_of_In.
Qed.

Lemma entry_of_elem h c e :
  entry_of h c = Some e → e ∈ c ∧ cache_key e = Some (VStr h).
Proof.
  intros H. apply find_some in H as [Hin Hk].
  split; [by apply list_elem_of_In | by apply bool_decide_eq_true_1 in Hk].
Qed.

Lemma cache_wf_elem c e :
  cache_wf c → e ∈ c →
  (∃ h, e !! "prompt_hash" = Some (VStr h))
  ∧ ∃ t, e !! "expires_at" = Some (VDate t).
Proof. intros [H _] He. by eapply Forall_forall in H. Qed.

Lemma matches_unexpired (h : string) (now : Z) (d : document) :
  Mongo.matches [Mongo.FieldEq "prompt_hash" (VStr h);
                 Mongo.FieldGt "expires_at" (VDate now)] d
  = Mongo.matches (by_hash h) d
    && Mongo.cond_holds d (Mongo.FieldGt "expires_at" (VDate now)).
Proof.
  unfold Mongo.matches, by_hash. cbn [forallb]. by rewrite !andb_true_r.
Qed.

(** Reading the cache. *)
Lemma get_cached_context_spec now h db :
  cache_wf (llm_context_cache db) →
  get_cached_context now h db
  = match entry_of h (llm_context_cache db) with
    | Some e =>
        if bool_decide (now < expiry_of e) then py_get e "context_data"
        else VNull
    | None => VNull
    end.
Proof.
  unfold get_cached_context, Mongo.find_one.
  generalize (llm_context_cache db) as c. clear db.
  induction c as [|d c IH]; intros Hwf; [done|].
  apply cache_wf_cons in Hwf as (([h' Hh] & [t Ht]) & Hnot & Hwf).
  unfold entry_of. cbn [List.find].
  assert (Mongo.matches [Mongo.FieldEq "prompt_hash" (VStr h);
                         Mongo.FieldGt "expires_at" (VDate now)] d
          = bool_decide (cache_key d = Some (VStr h)) && (now <? t)) as ->.
  { rewrite matches_unexpired, (matches_by_hash h h') by done.
    by rewrite (unexpired_filter now t d). }
  case_bool_decide as Hk; simpl.
  - unfold expiry_of. rewrite Ht.
    destruct (now <? t) eqn:Hlt.
    + rewrite bool_decide_eq_true_2 by (by apply Z.ltb_lt).
      unfold py_truthy. rewrite bool_decide_eq_false_2; [done|].
      intros ->. by rewrite lookup_empty in Hh.
    + rewrite bool_decide_eq_false_2 by (apply Z.ltb_ge in Hlt; lia).
      rewrite Hk in Hnot.
      assert (List.find
                (Mongo.matches [Mongo.FieldEq "prompt_hash" (VStr h);
                                Mongo.FieldGt "expires_at" (VDate now)]) c
              = None) as ->; [|done].
      apply find_none_Forall, Forall_forall. intros x Hx.
      destruct (cache_wf_elem c x Hwf Hx) as [[hx Hhx] _].
      rewrite matches_unexpired, (matches_by_hash h hx) by done.
      rewrite bool_decide_eq_false_2; [done|].
      intros Hkx. apply Hnot. rewrite <- Hkx.
      apply list_elem_of_In, in_map. by apply list_elem_of_In.
  - apply IH, Hwf.
Qed.

Lemma cache_wf_matches h c :
  cache_wf c →
  Forall (λ x, Mongo.matches (by_hash h) x
               = bool_decide (cache_key x = Some (VStr h))) c.
Proof.
  intros Hwf. apply Forall_forall. intros x Hx.
  destruct (cache_wf_elem c x Hwf Hx) as [[hx Hhx] _].
  by apply (matches_by_hash h hx).
Qed.

Lemma entry_of_find h c :
  cache_wf c → entry_of h c = List.find (Mongo.matches (by_hash h)) c.
Proof.
  intros Hwf. unfold entry_of. symmetry. apply find_ext_Forall.
  by apply cache_wf_matches.
Qed.

Lemma cache_wf_app_inv c1 c2 : cache_wf (c1 ++ c2) → cache_wf c1 ∧ cache_wf c2.
Proof.
  unfold cache_wf. rewrite Forall_app, map_app, NoDup_app. tauto.
Qed.

Lemma violates_cons unique (doc d : document) c :
  Mongo.violates unique doc (d :: c)
  = existsb (λ f, Mongo.key_clash f doc d) unique
    || Mongo.violates unique doc c.
Proof. reflexivity. Qed.

Lemma fresh_not_violated oid (doc : document) c :
  fresh oid c → doc !! "_id" = Some (VOid oid) →
  Mongo.violates ["_id"] doc c = false.
Proof.
  intros Hf Hid.
  induction Hf as [|d c Hd _ IH]; [done|].
  rewrite violates_cons, IH. cbn [existsb]. rewrite !orb_false_r.
  unfold Mongo.key_clash. rewrite Hid. cbn [Mongo.index_keys existsb].
  rewrite orb_false_r. apply not_true_iff_false. intros Hex.
  apply existsb_exists in Hex as (k & Hk & Heq).
  apply bool_decide_eq_true_1 in Heq. subst k. apply Hd.
  by apply list_elem_of_In.
Qed.

(** Writing the cache: an upsert under the key [h]. *)
Lemma cache_upsert (h : string) (upd : document) (oid : N) (c : list document) :
  cache_wf c → fresh oid c →
  upd !! "_id" = None → upd !! "prompt_hash" = None →
  (∃ t, upd !! "expires_at" = Some (VDate t)) →
  ∃ c' n e,
    Mongo.update_one [] (by_hash h) upd true oid c = (c', Ok n)
    ∧ cache_wf c'
    ∧ entry_of h c' = Some e
    ∧ (∀ k v, upd !! k = Some v → e !! k = Some v)
    ∧ (∀ h', h' ≠ h → entry_of h' c' = entry_of h' c).
Proof.
  intros Hwf Hfresh Hid Hph Hexp.
  destruct (first_match_or_none (by_hash h) c)
    as [Hno|(before & d & after & Hm)].
  - (* no entry under [h]: one is inserted *)
    unfold Mongo.update_one.
    rewrite (proj2 (split_first_None _ _) Hno).
    unfold Mongo.insert_one.
    set (doc := Mongo.with_id oid (upd ∪ Mongo.filter_seed (by_hash h))).
    assert (doc !! "_id" = Some (VOid oid)) as Hdid.
    { unfold doc, Mongo.with_id.
      assert ((upd ∪ Mongo.filter_seed (by_hash h)) !! "_id" = None) as ->.
      { apply lookup_union_None_2; [done|]. done. }
      apply lookup_insert_eq. }
    assert (∀ k, k ≠ "_id" →
                 doc !! k = (upd ∪ Mongo.filter_seed (by_hash h)) !! k) as Hdoc.
    { intros k Hk. by apply with_id_lookup_ne. }
    assert (cache_key doc = Some (VStr h)) as Hkey.
    { unfold cache_key. rewrite Hdoc by done.
      rewrite lookup_union_r by done. done. }
    assert (Some (VStr h) ∉ map cache_key c) as Hnotin.
    { intros Hin. apply list_elem_of_In, in_map_iff in Hin as (x & Hx & Hxin).
      apply list_elem_of_In in Hxin.
      pose proof (cache_wf_matches h c Hwf) as Hall.
      rewrite Forall_forall in Hall. specialize (Hall x Hxin).
      unfold no_match in Hno. rewrite Forall_forall in Hno.
      rewrite (Hno x Hxin) in Hall. symmetry in Hall.
      by apply bool_decide_eq_false_1 in Hall. }
    assert (Mongo.violates ["_id"] doc c = false) as ->
      by (by apply (fresh_not_violated oid)).
    simpl. exists (c ++ [doc]), 0%nat, doc.
    split; [done|]. split; [|split; [|split]].
    + destruct Hwf as [Hall Hnd]. split.
      * apply Forall_app. split; [done|]. constructor; [|done]. split.
        -- exists h. apply Hkey.
        -- destruct Hexp as [t Ht]. exists t. rewrite Hdoc by done.
           by apply lookup_union_Some_l.
      * rewrite map_app. apply NoDup_app. split; [done|]. split.
        -- intros k Hk Hk'. simpl in Hk'.
           apply list_elem_of_singleton in Hk'. subst k.
           rewrite Hkey in Hk. by apply Hnotin.
        -- simpl. apply NoDup_singleton.
    + unfold entry_of. rewrite find_app.
      fold (entry_of h c). rewrite entry_of_None_not_in by done.
      simpl. by rewrite bool_decide_eq_true_2.
    + intros k v Hk. destruct (decide (k = "_id")) as [->|Hne]; [congruence|].
      rewrite Hdoc by done. by apply lookup_union_Some_l.
    + intros h' Hne. unfold entry_of. rewrite find_app.
      destruct (List.find _ c); [done|]. simpl.
      rewrite bool_decide_eq_false_2; [done|]. rewrite Hkey. congruence.
  - (* an entry under [h]: it is updated in place *)
    rewrite (update_one_first_match _ _ _ _ _ _ _ _ _ Hm).
    unfold Mongo.apply_set. rewrite Hid, violates_nil.
    set (d' := Mongo.set_fields upd d).
    destruct Hm as (-> & Hbefore & Hd).
    assert (d ∈ before ++ d :: after) as Hdin
      by (apply elem_of_app; right; left).
    destruct (cache_wf_elem _ d Hwf Hdin) as [[hd Hhd] _].
    assert (cache_key d = Some (VStr h)) as Hkey.
    { rewrite (matches_by_hash h hd) in Hd by done.
      by apply bool_decide_eq_true_1 in Hd. }
    assert (cache_key d' = cache_key d) as Hkey'.
    { unfold cache_key, d'. by apply set_fields_lookup_None. }
    exists (before ++ d' :: after),
      (if bool_decide (d' = d) then 0%nat else 1%nat), d'.
    split; [done|]. split; [|split; [|split]].
    + destruct Hwf as [Hall Hnd]. split.
      * apply Forall_app in Hall as [Hb Ha]. apply Forall_cons in Ha as [_ Ha].
        apply Forall_app. split; [done|]. constructor; [|done]. split.
        -- exists hd. unfold cache_key in Hkey'. by rewrite Hkey'.
        -- destruct Hexp as [t Ht]. exists t.
           by apply set_fields_lookup_Some.
      * rewrite map_app in *. simpl in *. by rewrite Hkey'.
    + apply cache_wf_app_inv in Hwf as [Hwb _].
      unfold entry_of. rewrite find_app. fold (entry_of h before).
      rewrite (entry_of_find h before Hwb).
      rewrite (proj2 (find_none_Forall _ _) Hbefore). simpl.
      rewrite bool_decide_eq_true_2; [done|]. congruence.
    + intros k v Hk. by apply set_fields_lookup_Some.
    + intros h' Hne. unfold entry_of. rewrite !find_app.
      destruct (List.find _ before); [done|]. simpl.
      rewrite !bool_decide_eq_false_2; [done| |]; congruence.
Qed.

(** C7.  The context cache.  In a cache written by managers alone,
    [get_cached_context] returns the [context_data] of the entry stored under
    [prompt_hash] when there is one and its [expires_at] is later than the
    present time, and [None] otherwise.  [cache_llm_context], when the time
    [ttl_hours] after the call is a [datetime], upserts: after it there is
    one entry under [prompt_hash], holding the new [context_data] and
    expiring at that time, whatever was stored under that key before; the
    entries under other keys are as they were.  So a read after a write
    returns the data until the entry expires and [None] from then on. *)
Theorem context_cache_ttl (db : database) :
  cache_wf (llm_context_cache db) →
  (∀ now h,
     get_cached_context now h db
     = match entry_of h (llm_context_cache db) with
       | Some e =>
           if bool_decide (now < expiry_of e) then py_get e "context_data"
           else VNull
       | None => VNull
       end)
  ∧ ∀ now_expiry now_created oid h data ttl_hours,
      fresh oid (llm_context_cache db) →
      in_datetime (now_expiry + hours ttl_hours) = true →
      ∃ db' e,
        cache_llm_context now_expiry now_created oid h data ttl_hours db
        = (db', Ok tt)
        ∧ cache_wf (llm_context_cache db')
        ∧ entry_of h (llm_context_cache db') = Some e
        ∧ e !! "context_data" = Some data
        ∧ e !! "expires_at" = Some (VDate (now_expiry + hours ttl_hours))
        ∧ e !! "created_at" = Some (VDate now_created)
        ∧ (∀ h', h' ≠ h →
             entry_of h' (llm_context_cache db')
             = entry_of h' (llm_context_cache db))
        ∧ ∀ now,
            get_cached_context now h db'
            = if bool_decide (now < now_expiry + hours ttl_hours) then data
              else VNull.
Proof.
  intros Hwf. split; [intros; by apply get_cached_context_spec|].
  intros t1 t2 oid h data ttl Hfresh Hrange.
  destruct (cache_upsert h
              {[ "context_data" := data; "created_at" := VDate t2;
                 "expires_at" := VDate (t1 + hours ttl) ]}
              oid (llm_context_cache db) Hwf Hfresh)
    as (c' & n & e & Hup & Hwf' & He & Hfields & Hothers);
    [done | done | by eexists |].
  exists (set_llm_context_cache c' db), e.
  assert (e !! "context_data" = Some data) as Hdata by (by apply Hfields).
  assert (e !! "expires_at" = Some (VDate (t1 + hours ttl))) as Hexp
    by (by apply Hfields).
  split.
  { unfold cache_llm_context, datetime_add. rewrite Hrange.
    change [Mongo.FieldEq "prompt_hash" (VStr h)] with (by_hash h).
    by rewrite Hup. }
  split; [done|]. split; [done|]. split; [done|]. split; [done|].
  split; [by apply Hfields|]. split; [done|].
  intros now. rewrite get_cached_context_spec by done. simpl. rewrite He.
  unfold expiry_of, py_get. by rewrite Hexp, Hdata.
Qed.

Lemma context_cache_ttl_witness :
  let stale : document :=
    {[ "_id" := VOid 1; "prompt_hash" := VStr "abc";
       "context_data" := VStr "old"; "created_at" := VDate 0;
       "expires_at" := VDate (hours 1) ]} in
  let db := set_llm_context_cache [stale] empty_database in
  get_cached_context (hours 1) "abc" db = VNull
  ∧ ∃ db',
      cache_llm_context (hours 2) (hours 2) 2 "abc" (VStr "new") 24 db
      = (db', Ok tt)
      ∧ get_cached_context (hours 25) "abc" db' = VStr "new"
      ∧ get_cached_context (hours 26) "abc" db' = VNull.
Proof.
  intros stale db.
  assert (cache_wf (llm_context_cache db)) as Hwf.
  { split.
    - repeat constructor; eexists; vm_compute; reflexivity.
    - vm_compute. apply NoDup_singleton. }
  destruct (context_cache_ttl db Hwf) as [Hget Hput]. split.
  - rewrite Hget. vm_compute. reflexivity.
  - destruct (Hput (hours 2) (hours 2) 2%N "abc" (VStr "new") 24)
      as (db' & e & Hcall & _ & _ & _ & _ & _ & _ & Hread).
    { repeat constructor. vm_compute. intros H. inversion H as [|? ? ? H'].
      inversion H'. }
    { vm_compute. reflexivity. }
    exists db'. split; [exact Hcall|]. split.
    + rewrite Hread. vm_compute. reflexivity.
    + rewrite Hread. vm_compute. reflexivity.
Defined.

(* ===================================================================== *)
(** * UI snapshots and their differences *)
(* ===================================================================== *)

Lemma head_insert_desc f (d : document) (sorted : list document) :
  head (Mongo.insert_desc f d sorted)
  = Some match head sorted with
         | None => d
         | Some x =>
             match Mongo.bson_compare (Mongo.sort_key f d) (Mongo.sort_key f x)
             with
             | Lt => x
             | _ => d
             end
         end.
Proof.
  destruct sorted as [|x rest]; simpl; [done|].
  by destruct (Mongo.bson_compare _ _).
Qed.

Lemma sort_key_stamped (d : document) :
  stamped d → Mongo.sort_key "timestamp" d = VDate (timestamp_of d).
Proof.
  intros [t Ht]. unfold Mongo.sort_key, py_get, timestamp_of. by rewrite Ht.
Qed.

(** The head of the documents sorted on [timestamp], latest first, is a
    document of greatest timestamp. *)
Lemma head_sort_desc_latest (c : list document) :
  Forall stamped c →
  match head (Mongo.sort_desc "timestamp" c) with
  | None => c = []
  | Some p => p ∈ c ∧ ∀ q, q ∈ c → timestamp_of q ≤ timestamp_of p
  end.
Proof.
  induction 1 as [|d c Hd Hc IH]; [done|].
  unfold Mongo.sort_desc in *. cbn [foldr]. rewrite head_insert_desc.
  destruct (head (foldr (Mongo.insert_desc "timestamp") [] c)) as [x|].
  - destruct IH as [Hx Hmax].
    assert (stamped x) as Hsx by (by eapply Forall_forall in Hc).
    rewrite (sort_key_stamped d), (sort_key_stamped x) by done. simpl.
    destruct (Z.compare_spec (timestamp_of d) (timestamp_of x)).
    + split; [left|]. intros q [->|Hq]%elem_of_cons; [lia|].
      specialize (Hmax q Hq). lia.
    + split; [by right|]. intros q [->|Hq]%elem_of_cons; [lia|auto].
    + split; [left|]. intros q [->|Hq]%elem_of_cons; [lia|].
      specialize (Hmax q Hq). lia.
  - subst c. split; [left|]. by intros q ->%list_elem_of_singleton.
Qed.

Lemma Forall_filter_stamped (p : document → bool) (c : list document) :
  Forall stamped c → Forall stamped (List.filter p c).
Proof.
  intros H. apply Forall_forall. intros x Hx%list_elem_of_In.
  apply filter_In in Hx as [Hx _]. apply list_elem_of_In in Hx.
  by eapply Forall_forall in H.
Qed.

Lemma py_set_diff_spec (a b : list value) (x : value) :
  x ∈ py_set_diff a b ↔ x ∈ a ∧ py_mem x b = false.
Proof.
  unfold py_set_diff. rewrite !list_elem_of_In, filter_In, negb_true_iff.
  done.
Qed.

(** C6.  [detect_ui_changes] on stamped snapshots.  When no snapshot is
    stored for the page, the result is [{is_new: True, changes: []}].
    Otherwise [previous] is a stored snapshot of the page of greatest
    timestamp and, the two selector collections being ones [set] accepts,
    [removed] holds the selectors of [previous] absent from the current
    snapshot, [added] those of the current snapshot absent from [previous];
    the result has [is_new] false, [has_changes] true exactly when one of the
    two is not empty, in [changes] a "removed" entry exactly when [removed]
    is not empty followed by an "added" entry exactly when [added] is not
    empty, and the timestamp of [previous]. *)
Theorem detect_ui_changes_spec (page_identifier : string)
    (current_snapshot : document) (db : database) :
  Forall stamped (ui_snapshots db) →
  let snapshots :=
    List.filter (Mongo.matches (by_page page_identifier)) (ui_snapshots db) in
  (snapshots = [] →
   detect_ui_changes page_identifier current_snapshot db
   = Ok {[ "is_new" := VBool true; "changes" := VList [] ]})
  ∧ (snapshots ≠ [] →
     ∃ previous,
       get_latest_ui_snapshot page_identifier db = Some previous
       ∧ previous ∈ snapshots
       ∧ (∀ q, q ∈ snapshots → timestamp_of q ≤ timestamp_of previous)
       ∧ ∀ prev_selectors curr_selectors,
           py_set (py_get_default previous "selectors" (VList []))
           = Ok prev_selectors →
           py_set (py_get_default current_snapshot "selectors" (VList []))
           = Ok curr_selectors →
           ∃ removed added,
             (∀ x, x ∈ removed
                   ↔ x ∈ prev_selectors ∧ py_mem x curr_selectors = false)
             ∧ (∀ x, x ∈ added
                     ↔ x ∈ curr_selectors ∧ py_mem x prev_selectors = false)
             ∧ detect_ui_changes page_identifier current_snapshot db
               = Ok {[ "is_new" := VBool false;
                       "has_changes" :=
                         VBool (bool_decide (removed ≠ [] ∨ added ≠ []));
                       "changes" :=
                         VList
                           ((if bool_decide (removed = []) then []
                             else [change "removed" removed])
                            ++ (if bool_decide (added = []) then []
                                else [change "added" added]));
                       "previous_timestamp" :=
                         VDate (timestamp_of previous) ]}).
Proof.
  intros Hst snapshots.
  pose proof (head_sort_desc_latest snapshots
                (Forall_filter_stamped _ _ Hst)) as Hlatest.
  unfold detect_ui_changes, get_latest_ui_snapshot, Mongo.find_one_sorted,
    Mongo.find.
  change [Mongo.FieldEq "page_identifier" (VStr page_identifier)]
    with (by_page page_identifier).
  fold snapshots.
  destruct (head (Mongo.sort_desc "timestamp" snapshots)) as [previous|].
  - split; [intros Hnil; destruct Hlatest as [Hin _]; rewrite Hnil in Hin;
            by apply elem_of_nil in Hin|].
    intros _. destruct Hlatest as [Hin Hmax].
    exists previous. split; [done|]. split; [done|]. split; [done|].
    intros prev_selectors curr_selectors Hprev Hcurr.
    assert (stamped previous) as [t Ht].
    { pose proof (Forall_filter_stamped
                    (Mongo.matches (by_page page_identifier)) _ Hst) as Hall.
      by eapply Forall_forall in Hall. }
    assert (py_truthy previous = true) as ->.
    { unfold py_truthy. rewrite bool_decide_eq_false_2; [done|].
      intros ->. by rewrite lookup_empty in Ht. }
    cbn [negb]. rewrite Hprev, Hcurr. cbn [mbind result_bind].
    exists (py_set_diff prev_selectors curr_selectors),
      (py_set_diff curr_selectors prev_selectors).
    split; [intros x; apply py_set_diff_spec|].
    split; [intros x; apply py_set_diff_spec|].
    unfold py_get, timestamp_of. rewrite Ht. cbn [default].
    destruct (py_set_diff prev_selectors curr_selectors) as [|r removed];
      destruct (py_set_diff curr_selectors prev_selectors) as [|a added].
    + rewrite bool_decide_eq_false_2 by (intros [?|?]; done). done.
    + rewrite bool_decide_eq_true_2 by (by right). done.
    + rewrite bool_decide_eq_true_2 by (by left). done.
    + rewrite bool_decide_eq_true_2 by (by left). done.
  - split; [done|]. intros Hne. by destruct Hne.
Qed.

Lemma detect_ui_changes_spec_witness :
  let snapshot (t : Z) (selectors : list string) : document :=
    {[ "page_identifier" := VStr "login"; "timestamp" := VDate t;
       "selectors" := VList (VStr <$> selectors) ]} in
  let previous := snapshot 20 ["#a"; "#b"; "#c"] in
  let db := set_ui_snapshots [snapshot 10 ["#a"]; previous] empty_database in
  let current : document :=
    {[ "selectors" := VList (VStr <$> ["#b"; "#c"; "#d"]) ]} in
  ∃ removed added,
    (∀ x, x ∈ removed
          ↔ x ∈ VStr <$> ["#a"; "#b"; "#c"]
            ∧ py_mem x (VStr <$> ["#b"; "#c"; "#d"]) = false)
    ∧ (∀ x, x ∈ added
            ↔ x ∈ VStr <$> ["#b"; "#c"; "#d"]
              ∧ py_mem x (VStr <$> ["#a"; "#b"; "#c"]) = false)
    ∧ detect_ui_changes "login" current db
      = Ok {[ "is_new" := VBool false;
              "has_changes" := VBool (bool_decide (removed ≠ [] ∨ added ≠ []));
              "changes" :=
                VList
                  ((if bool_decide (removed = []) then []
                    else [change "removed" removed])
                   ++ (if bool_decide (added = []) then []
                       else [change "added" added]));
              "previous_timestamp" := VDate 20 ]}.
Proof.
  intros snapshot previous db current.
  assert (Forall stamped (ui_snapshots db)) as Hst.
  { repeat constructor; eexists; vm_compute; reflexivity. }
  destruct (detect_ui_changes_spec "login" current db Hst) as [_ H].
  destruct H as (p & Hp & _ & _ & Hdiff).
  { vm_compute. discriminate. }
  assert (p = previous) as ->.
  { vm_compute in Hp. injection Hp as <-. vm_compute. reflexivity. }
  apply (Hdiff (VStr <$> ["#a"; "#b"; "#c"]) (VStr <$> ["#b"; "#c"; "#d"]));
    vm_compute; reflexivity.
Defined.

(** The differences of the specification's example, as the method returns
    them. *)
Example detect_ui_changes_abc_bcd :
  let previous : document :=
    {[ "page_identifier" := VStr "login"; "timestamp" := VDate 20;
       "selectors" := VList [VStr "a"; VStr "b"; VStr "c"] ]} in
  let db := set_ui_snapshots [previous] empty_database in
  detect_ui_changes "login"
    {[ "selectors" := VList [VStr "b"; VStr "c"; VStr "d"] ]} db
  = Ok {[ "is_new" := VBool false; "has_changes" := VBool true;
          "changes" := VList [change "removed" [VStr "a"];
                              change "added" [VStr "d"]];
          "previous_timestamp" := VDate 20 ]}
  ∧ detect_ui_changes "login"
      {[ "selectors" := VList [VStr "c"; VStr "a"; VStr "b"] ]} db
    = Ok {[ "is_new" := VBool false; "has_changes" := VBool false;
            "changes" := VList [];
            "previous_timestamp" := VDate 20 ]}
  ∧ detect_ui_changes "other"
      {[ "selectors" := VList [VStr "a"] ]} db
    = Ok {[ "is_new" := VBool true; "changes" := VList [] ]}.
Proof. repeat split; vm_compute; reflexivity. Qed.

(** ** [set] builds a set *)

Lemma py_eqb_key (v w : value) : py_eqb v w = true ↔ py_key v = py_key w.
Proof. apply value_eqb_eq. Qed.

Lemma py_mem_spec (x : value) (s : list value) :
  py_mem x s = true ↔ ∃ y, y ∈ s ∧ py_key x = py_key y.
Proof.
  unfold py_mem. rewrite existsb_exists. split.
  - intros (y & Hy & He). exists y. split; [by apply list_elem_of_In|].
    by apply py_eqb_key.
  - intros (y & Hy & He). exists y. split; [by apply list_elem_of_In|].
    by apply py_eqb_key.
Qed.

Lemma py_mem_app (x : value) (s1 s2 : list value) :
  py_mem x (s1 ++ s2) = py_mem x s1 || py_mem x s2.
Proof. apply existsb_app. Qed.

(** Membership, up to [==], is that of the list the set was built from. *)
Lemma py_set_of_list_mem (l acc : list value) (x : value) :
  py_mem x (py_set_of_list l acc) = py_mem x acc || py_mem x l.
Proof.
  revert acc. induction l as [|y l IH]; intros acc; simpl.
  - by rewrite orb_false_r.
  - rewrite IH. destruct (py_mem y acc) eqn:Hy.
    + destruct (py_eqb x y) eqn:Hxy; [|done].
      assert (py_mem x acc = true) as ->; [|done].
      apply py_mem_spec in Hy as (z & Hz & Hyz). apply py_mem_spec.
      exists z. split; [done|]. apply py_eqb_key in Hxy. congruence.
    + rewrite py_mem_app. simpl. by rewrite orb_false_r, orb_assoc.
Qed.

(** No two elements of the set are [==]. *)
Lemma py_set_of_list_NoDup (l acc : list value) :
  NoDup (py_key <$> acc) → NoDup (py_key <$> py_set_of_list l acc).
Proof.
  revert acc. induction l as [|y l IH]; intros acc Hacc; simpl; [done|].
  apply IH. destruct (py_mem y acc) eqn:Hy; [done|].
  rewrite fmap_app. apply NoDup_app. split; [done|]. split.
  - intros k Hk Hk'. simpl in Hk'. apply list_elem_of_singleton in Hk'.
    subst k. apply list_elem_of_fmap in Hk as (z & Hz & Hzin).
    assert (py_mem y acc = true); [|congruence].
    apply py_mem_spec. by exists z.
  - simpl. apply NoDup_singleton.
Qed.

Lemma py_set_list (l s : list value) :
  py_set (VList l) = Ok s →
  NoDup (py_key <$> s) ∧ ∀ x, py_mem x s = py_mem x l.
Proof.
  unfold py_set. simpl. destruct (forallb py_hashable l); [|discriminate].
  intros [= <-]. split.
  - apply py_set_of_list_NoDup. constructor.
  - intros x. by rewrite py_set_of_list_mem.
Qed.

(** A list of selectors is always accepted. *)
Lemma py_set_selectors (selectors : list string) :
  ∃ s, py_set (VList (VStr <$> selectors)) = Ok s.
Proof.
  unfold py_set. simpl.
  assert (forallb py_hashable (VStr <$> selectors) = true) as ->.
  { by induction selectors. }
  eauto.
Qed.

(* ===================================================================== *)
(** * Flaky tests *)
(* ===================================================================== *)

(** ** The [$group] stage *)

Lemma executions_of_app id c1 c2 :
  executions_of id (c1 ++ c2) = executions_of id c1 ++ executions_of id c2.
Proof. unfold executions_of. induction c1; simpl; [done|].
  destruct (value_eqb _ _); simpl; by rewrite IHc1. Qed.

Lemma executions_of_snoc_same c d :
  executions_of (test_case_of d) (c ++ [d])
  = executions_of (test_case_of d) c ++ [d].
Proof.
  rewrite executions_of_app. unfold executions_of at 2. simpl.
  fold (test_case_of d). by rewrite value_eqb_refl.
Qed.

Lemma executions_of_snoc_other id c d :
  test_case_of d ≠ id → executions_of id (c ++ [d]) = executions_of id c.
Proof.
  intros H. rewrite executions_of_app. unfold executions_of at 2. simpl.
  fold (test_case_of d). apply value_eqb_neq in H. rewrite H.
  apply app_nil_r.
Qed.

Lemma executions_of_elem id c d :
  d ∈ executions_of id c ↔ d ∈ c ∧ test_case_of d = id.
Proof.
  unfold executions_of. rewrite !list_elem_of_In, filter_In.
  fold (test_case_of d). by rewrite value_eqb_eq.
Qed.

Lemma passed_count_snoc e d :
  passed_count (e ++ [d])
  = (passed_count e + cond_eq_1_0 d "status" (VStr "passed"))%nat.
Proof.
  unfold passed_count. rewrite List.filter_app, length_app. f_equal.
  simpl. unfold passed, cond_eq_1_0.
  destruct (d !! "status") as [x|] eqn:Hx.
  - destruct (value_eqb x (VStr "passed")) eqn:E.
    + apply value_eqb_eq in E as ->. by rewrite bool_decide_eq_true_2.
    + apply value_eqb_neq in E. rewrite bool_decide_eq_false_2; [done|].
      congruence.
  - by rewrite bool_decide_eq_false_2.
Qed.

Lemma timestamp_of_stamped d t :
  d !! "timestamp" = Some (VDate t) → timestamp_of d = t.
Proof. intros H. unfold timestamp_of. by rewrite H. Qed.

Lemma max_timestamp_unique e t t' :
  max_timestamp e t → max_timestamp e t' → t = t'.
Proof.
  intros [(d & Hd & Ht) Hmax] [(d' & Hd' & Ht') Hmax'].
  specialize (Hmax d' Hd'). specialize (Hmax' d Hd).
  rewrite (timestamp_of_stamped _ _ Ht) in Hmax'.
  rewrite (timestamp_of_stamped _ _ Ht') in Hmax. lia.
Qed.

Lemma max_timestamp_singleton d t :
  d !! "timestamp" = Some (VDate t) → max_timestamp [d] t.
Proof.
  intros H. split.
  - exists d. split; [left|done].
  - intros x ->%list_elem_of_singleton.
    by rewrite (timestamp_of_stamped _ _ H).
Qed.

(** [$max] against one more stamped execution. *)
Lemma max_timestamp_snoc e t d td :
  max_timestamp e t → d !! "timestamp" = Some (VDate td) →
  ∃ t', acc_max (VDate t) (py_get d "timestamp") = VDate t'
        ∧ max_timestamp (e ++ [d]) t'.
Proof.
  intros [(x & Hx & Hxt) Hmax] Hd. unfold acc_max, py_get. rewrite Hd.
  simpl. rewrite is_gt_compare. destruct (t <? td) eqn:Hlt.
  - apply Z.ltb_lt in Hlt. exists td. split; [done|]. split.
    + exists d. split; [|done]. apply elem_of_app. right. left.
    + intros y [Hy|Hy%list_elem_of_singleton]%elem_of_app.
      * specialize (Hmax y Hy). lia.
      * subst y. rewrite (timestamp_of_stamped _ _ Hd). lia.
  - apply Z.ltb_ge in Hlt. exists t. split; [done|]. split.
    + exists x. split; [|done]. apply elem_of_app. by left.
    + intros y [Hy|Hy%list_elem_of_singleton]%elem_of_app.
      * by apply Hmax.
      * subst y. by rewrite (timestamp_of_stamped _ _ Hd).
Qed.

Lemma group_of_other c d g :
  g_id g ≠ test_case_of d → group_of c g → group_of (c ++ [d]) g.
Proof.
  intros Hne. unfold group_of.
  by rewrite executions_of_snoc_other.
Qed.

Lemma group_of_step c d g :
  g_id g = test_case_of d → stamped d → group_of c g →
  group_of (c ++ [d]) (group_step g d).
Proof.
  intros Hid [td Hd] (Htot & Hpass & t & Hlat & Hmax). unfold group_of.
  cbn [group_step g_id g_total g_pass g_latest].
  rewrite Hid, executions_of_snoc_same, <- Hid.
  split; [rewrite length_app, Htot; simpl; lia|].
  split; [by rewrite passed_count_snoc, Hpass|].
  rewrite Hlat. by eapply max_timestamp_snoc.
Qed.

Lemma group_of_new c d :
  stamped d → (∀ x, x ∈ c → test_case_of x ≠ test_case_of d) →
  group_of (c ++ [d]) (group_new d).
Proof.
  intros [td Hd] Hnone. unfold group_of.
  cbn [group_new g_id g_total g_pass g_latest].
  fold (test_case_of d). rewrite executions_of_snoc_same.
  assert (executions_of (test_case_of d) c = []) as ->.
  { destruct (executions_of (test_case_of d) c) as [|x e] eqn:He; [done|].
    assert (x ∈ executions_of (test_case_of d) c) as Hx
      by (rewrite He; left).
    apply executions_of_elem in Hx as [Hx Hk]. by apply Hnone in Hx. }
  simpl. split; [done|]. split.
  - symmetry. exact (passed_count_snoc [] d).
  - exists td. unfold acc_max, py_get. rewrite Hd. simpl.
    split; [done|]. by apply max_timestamp_singleton.
Qed.

Lemma group_add_ids d gs :
  g_id <$> group_add d gs
  = if bool_decide (test_case_of d ∈ g_id <$> gs) then g_id <$> gs
    else (g_id <$> gs) ++ [test_case_of d].
Proof.
  induction gs as [|g gs IH]; [done|].
  cbn [group_add]. fold (test_case_of d). rewrite !fmap_cons.
  destruct (value_eqb (g_id g) (test_case_of d)) eqn:E.
  - apply value_eqb_eq in E. rewrite bool_decide_eq_true_2; [done|].
    rewrite E. left.
  - apply value_eqb_neq in E. rewrite fmap_cons, IH.
    destruct (bool_decide (test_case_of d ∈ g_id <$> gs)) eqn:Hin.
    + apply bool_decide_eq_true_1 in Hin.
      rewrite bool_decide_eq_true_2; [done|]. by right.
    + apply bool_decide_eq_false_1 in Hin.
      rewrite bool_decide_eq_false_2; [done|].
      intros [?|?]%elem_of_cons; [congruence|done].
Qed.

Lemma group_add_Forall (P Q : group_acc → Prop) d gs :
  NoDup (g_id <$> gs) → Forall P gs →
  (∀ g, P g → g_id g ≠ test_case_of d → Q g) →
  (∀ g, P g → g_id g = test_case_of d → Q (group_step g d)) →
  (test_case_of d ∉ g_id <$> gs → Q (group_new d)) →
  Forall Q (group_add d gs).
Proof.
  intros Hnd HP Hother Hstep Hnew.
  induction gs as [|g gs IH]; simpl.
  - constructor; [|done]. apply Hnew, not_elem_of_nil.
  - fold (test_case_of d).
    apply Forall_cons in HP as [Hg HP].
    rewrite fmap_cons in Hnd. apply NoDup_cons in Hnd as [Hnotin Hnd].
    destruct (value_eqb (g_id g) (test_case_of d)) eqn:E.
    + apply value_eqb_eq in E. constructor; [by apply Hstep|].
      apply Forall_forall. intros x Hx.
      apply Hother; [by eapply Forall_forall in HP|].
      intros Hid. apply Hnotin. rewrite E, <- Hid.
      by apply list_elem_of_fmap_2.
    + apply value_eqb_neq in E. constructor; [by apply Hother|].
      apply IH; [done|done|]. intros Hn. apply Hnew.
      rewrite fmap_cons. intros [?|?]%elem_of_cons; [congruence|done].
Qed.

Lemma groups_of_add c d gs :
  stamped d → groups_of c gs → groups_of (c ++ [d]) (group_add d gs).
Proof.
  intros Hd (Hnd & Hall & Hcover). split; [|split].
  - rewrite group_add_ids. case_bool_decide as Hin; [done|].
    apply NoDup_app. split; [done|]. split; [|apply NoDup_singleton].
    intros k Hk Hk'%list_elem_of_singleton. by subst k.
  - apply (group_add_Forall (group_of c)); [done|done| | |].
    + intros g Hg Hne. by apply group_of_other.
    + intros g Hg Heq. by apply group_of_step.
    + intros Hnotin. apply group_of_new; [done|].
      intros x Hx Heq. apply Hnotin. rewrite <- Heq. by apply Hcover.
  - intros x Hx. rewrite group_add_ids.
    apply elem_of_app in Hx as [Hx|Hx%list_elem_of_singleton].
    + case_bool_decide; [by apply Hcover|].
      apply elem_of_app. left. by apply Hcover.
    + subst x. case_bool_decide; [done|]. apply elem_of_app. right. left.
Qed.

(** The groups are those of the specification. *)
Lemma group_by_test_case_groups c :
  Forall stamped c → groups_of c (group_by_test_case c).
Proof.
  unfold group_by_test_case.
  induction c as [|d c IH] using rev_ind; intros Hst.
  - split; [constructor|]. split; [constructor|].
    intros d Hd. by apply elem_of_nil in Hd.
  - apply Forall_app in Hst as [Hc Hd]. apply Forall_cons in Hd as [Hd _].
    rewrite fold_left_app. simpl. by apply groups_of_add, IH.
Qed.

(** ** The [$sort] stage *)

Lemma insert_by_rate_perm r rows : insert_by_rate r rows ≡ₚ r :: rows.
Proof.
  induction rows as [|x rows IH]; simpl; [done|].
  destruct (Qle_bool _ _); [done|]. rewrite IH. apply Permutation_swap.
Qed.

Lemma sort_by_rate_perm rows : sort_by_rate rows ≡ₚ rows.
Proof.
  unfold sort_by_rate. induction rows as [|r rows IH]; simpl; [done|].
  by rewrite insert_by_rate_perm, IH.
Qed.

Lemma insert_by_rate_sorted r rows :
  StronglySorted by_rate rows → StronglySorted by_rate (insert_by_rate r rows).
Proof.
  induction 1 as [|x rows Hs IH Hx]; simpl.
  - repeat constructor.
  - destruct (Qle_bool (pass_rate r) (pass_rate x)) eqn:Hle.
    + apply Qle_bool_iff in Hle. constructor; [by constructor|].
      constructor; [done|]. eapply Forall_impl; [exact Hx|].
      intros y Hy. unfold by_rate in *. by eapply Qle_trans.
    + constructor; [done|].
      assert (by_rate x r) as Hxr.
      { unfold by_rate. apply Qlt_le_weak, Qnot_le_lt. intros Hc.
        apply Qle_bool_iff in Hc. congruence. }
      apply Forall_forall. intros y Hy.
      rewrite insert_by_rate_perm in Hy.
      apply elem_of_cons in Hy as [->|Hy]; [done|].
      by eapply Forall_forall in Hx.
Qed.

Lemma sort_by_rate_sorted rows : StronglySorted by_rate (sort_by_rate rows).
Proof.
  unfold sort_by_rate. induction rows as [|r rows IH]; simpl.
  - constructor.
  - by apply insert_by_rate_sorted.
Qed.

(** ** The pipeline *)

Lemma flaky_match_spec lo hi r :
  flaky_match lo hi r = true
  ↔ (5 ≤ total_runs r)%nat ∧ (lo <= pass_rate r)%Q ∧ (pass_rate r <= hi)%Q.
Proof.
  unfold flaky_match.
  rewrite !andb_true_iff, !Qle_bool_iff, Nat.leb_le. tauto.
Qed.

Lemma get_flaky_tests_elem lo hi db r :
  r ∈ get_flaky_tests lo hi db
  ↔ flaky_match lo hi r = true
    ∧ ∃ g, g ∈ group_by_test_case (test_executions db) ∧ r = add_pass_rate g.
Proof.
  unfold get_flaky_tests. rewrite sort_by_rate_perm.
  rewrite list_elem_of_In, filter_In, in_map_iff. split.
  - intros [(g & <- & Hg) Hm]. split; [done|]. exists g.
    split; [by apply list_elem_of_In|done].
  - intros [Hm (g & Hg & ->)]. split; [|done]. exists g.
    split; [done|by apply list_elem_of_In].
Qed.

Lemma row_of_group c gs g :
  groups_of c gs → g ∈ gs →
  is_row_of c (g_id g) (add_pass_rate g)
  ∧ ∃ d, d ∈ c ∧ test_case_of d = g_id g.
Proof.
  intros (_ & Hall & _) Hg. rewrite Forall_forall in Hall.
  destruct (Hall g Hg) as (Htot & Hpass & t & Hlat & Hmax).
  split.
  - unfold is_row_of. cbn [add_pass_rate row_id total_runs pass_count
                            pass_rate latest_execution].
    rewrite Hpass, Htot. repeat split; eauto.
  - destruct Hmax as [(d & Hd & _) _].
    apply executions_of_elem in Hd as [Hd Hk]. eauto.
Qed.

Lemma group_of_row c gs d r :
  groups_of c gs → d ∈ c → is_row_of c (test_case_of d) r →
  ∃ g, g ∈ gs ∧ r = add_pass_rate g.
Proof.
  intros (Hnd & Hall & Hcover) Hd (Hid & Htot & Hpass & Hrate & t & Hlat & Hmax).
  apply Hcover, list_elem_of_fmap in Hd as (g & Hg & Hgin).
  exists g. split; [done|].
  rewrite Forall_forall in Hall.
  destruct (Hall g Hgin) as (Htot' & Hpass' & t' & Hlat' & Hmax').
  rewrite Hg in *.
  assert (t = t') as <- by (by eapply max_timestamp_unique).
  destruct r as [rid rtot rpass rlat rrate], g as [gid gtot gpass glat].
  unfold add_pass_rate. simpl in *. congruence.
Qed.

Lemma flaky_ids_NoDup (p : flaky_row → bool) gs :
  NoDup (g_id <$> gs) →
  NoDup (row_id <$> List.filter p (map add_pass_rate gs)).
Proof.
  induction gs as [|g gs IH]; simpl; [constructor|].
  intros [Hnotin Hnd]%NoDup_cons. destruct (p (add_pass_rate g)).
  - simpl. apply NoDup_cons. split; [|by apply IH].
    intros Hin. apply Hnotin.
    apply list_elem_of_fmap in Hin as (r & Hr & Hrin).
    apply list_elem_of_In, filter_In in Hrin as [Hrin _].
    apply in_map_iff in Hrin as (g' & <- & Hg').
    simpl in Hr. rewrite Hr. apply list_elem_of_fmap_2.
    by apply list_elem_of_In.
  - by apply IH.
Qed.

Lemma executions_nonempty_elem id c :
  executions_of id c ≠ [] → ∃ d, d ∈ c ∧ test_case_of d = id.
Proof.
  destruct (executions_of id c) as [|d e] eqn:He; [done|]. intros _.
  exists d. apply executions_of_elem. rewrite He. left.
Qed.

(** C5.  Flaky tests, over stamped executions.  The result holds one row per
    retained test case, in ascending order of [pass_rate].  A row is in the
    result exactly when it is the row of the executions of some test case
    (their number, the number of those that passed, the quotient of the two,
    the greatest of their timestamps), has at least 5 runs, and has its
    [pass_rate] between the two bounds, both included.  In particular, with
    the bounds 0.3 and 0.7, a test case with 5 runs of which 2 passed is
    retained; a test case with 4 runs is retained under no bounds; and a test
    case whose pass rate is 0.75 is not retained, however many runs it
    has. *)
Theorem get_flaky_tests_spec (pass_rate_min pass_rate_max : Q)
    (db : database) :
  Forall stamped (test_executions db) →
  let c := test_executions db in
  let rows := get_flaky_tests pass_rate_min pass_rate_max db in
  StronglySorted by_rate rows
  ∧ NoDup (row_id <$> rows)
  ∧ (∀ r, r ∈ rows
          ↔ (∃ d, d ∈ c ∧ is_row_of c (test_case_of d) r)
            ∧ (5 ≤ total_runs r)%nat
            ∧ (pass_rate_min <= pass_rate r)%Q
            ∧ (pass_rate r <= pass_rate_max)%Q)
  ∧ (∀ id, length (executions_of id c) = 5%nat →
           passed_count (executions_of id c) = 2%nat →
           id ∈ row_id <$> get_flaky_tests (3 # 10) (7 # 10) db)
  ∧ (∀ lo hi id, length (executions_of id c) = 4%nat →
                 id ∉ row_id <$> get_flaky_tests lo hi db)
  ∧ (∀ id, (Z.of_nat (passed_count (executions_of id c))
            # Pos.of_nat (length (executions_of id c)) == 3 # 4)%Q →
           id ∉ row_id <$> get_flaky_tests (3 # 10) (7 # 10) db).
Proof.
  intros Hst c rows.
  pose proof (group_by_test_case_groups c Hst) as Hgroups.
  assert (∀ lo hi r,
            r ∈ get_flaky_tests lo hi db
            ↔ (∃ d, d ∈ c ∧ is_row_of c (test_case_of d) r)
              ∧ (5 ≤ total_runs r)%nat
              ∧ (lo <= pass_rate r)%Q ∧ (pass_rate r <= hi)%Q) as Hchar.
  { intros lo hi r. rewrite get_flaky_tests_elem, flaky_match_spec. split.
    - intros [Hm (g & Hg & ->)]. split; [|done].
      destruct (row_of_group c _ g Hgroups Hg) as [Hrow (d & Hd & Hk)].
      exists d. split; [done|]. by rewrite Hk.
    - intros [(d & Hd & Hrow) Hm]. split; [done|].
      by eapply group_of_row. }
  split; [apply sort_by_rate_sorted|].
  split.
  { unfold rows, get_flaky_tests. rewrite sort_by_rate_perm.
    apply flaky_ids_NoDup. by destruct Hgroups. }
  split; [apply Hchar|].
  split; [|split].
  - intros id Hlen Hpass.
    destruct (executions_nonempty_elem id c) as (d & Hd & Hk).
    { intros He. by rewrite He in Hlen. }
    destruct Hgroups as (Hnd & Hall & Hcover).
    pose proof (Hcover d Hd) as Hin.
    apply list_elem_of_fmap in Hin as (g & Hg & Hgin).
    apply list_elem_of_fmap. exists (add_pass_rate g).
    split; [by rewrite <- Hk|].
    apply get_flaky_tests_elem. split; [|by exists g].
    rewrite Forall_forall in Hall.
    destruct (Hall g Hgin) as (Htot & Hp & _).
    rewrite <- Hg, Hk in Htot, Hp. rewrite Hlen in Htot. rewrite Hpass in Hp.
    unfold flaky_match, add_pass_rate. simpl. by rewrite Htot, Hp.
  - intros lo hi id Hlen Hin.
    apply list_elem_of_fmap in Hin as (r & -> & Hr).
    apply Hchar in Hr as [(d & Hd & Hrow) (Hruns & _)].
    destruct Hrow as (Hid & Htot & _). rewrite Hid in Hlen. lia.
  - intros id Hrate Hin.
    apply list_elem_of_fmap in Hin as (r & -> & Hr).
    apply Hchar in Hr as [(d & Hd & Hrow) (_ & _ & Hhi)].
    destruct Hrow as (Hid & _ & _ & Hq & _). rewrite Hid in Hrate.
    rewrite Hq, Hrate in Hhi. by apply Hhi.
Qed.

Lemma get_flaky_tests_spec_witness :
  let run (id status : string) (t : Z) : document :=
    {[ "test_case_id" := VStr id; "status" := VStr status;
       "timestamp" := VDate t ]} in
  let db :=
    set_test_executions
      [run "X" "passed" 1; run "Y" "passed" 2; run "X" "failed" 3;
       run "Z" "passed" 4; run "X" "passed" 5; run "Y" "failed" 6;
       run "Z" "passed" 7; run "X" "error" 8; run "Y" "passed" 9;
       run "Z" "passed" 10; run "X" "failed" 11; run "Y" "failed" 12;
       run "Z" "failed" 13]
      empty_database in
  VStr "X" ∈ row_id <$> get_flaky_tests (3 # 10) (7 # 10) db
  ∧ (VStr "Y" ∉ row_id <$> get_flaky_tests (3 # 10) (7 # 10) db)
  ∧ (VStr "Z" ∉ row_id <$> get_flaky_tests (3 # 10) (7 # 10) db).
Proof.
  intros run db.
  assert (Forall stamped (test_executions db)) as Hst.
  { repeat constructor; eexists; vm_compute; reflexivity. }
  destruct (get_flaky_tests_spec (3 # 10) (7 # 10) db Hst)
    as (_ & _ & _ & Hin & Hfew & Hhigh).
  split; [|split].
  - apply Hin; vm_compute; reflexivity.
  - apply Hfew. vm_compute. reflexivity.
  - apply Hhigh. vm_compute. reflexivity.
Defined.

(** The rows themselves, on the same executions. *)
Example get_flaky_tests_rows :
  let run (id status : string) (t : Z) : document :=
    {[ "test_case_id" := VStr id; "status" := VStr status;
       "timestamp" := VDate t ]} in
  let db :=
    set_test_executions
      [run "X" "passed" 1; run "W" "passed" 2; run "X" "failed" 3;
       run "W" "passed" 4; run "X" "passed" 5; run "W" "failed" 6;
       run "W" "passed" 7; run "X" "error" 8; run "W" "failed" 9;
       run "X" "failed" 11]
      empty_database in
  get_flaky_tests (3 # 10) (7 # 10) db
  = [ {| row_id := VStr "X"; total_runs := 5; pass_count := 2;
         latest_execution := VDate 11; pass_rate := 2 # 5 |};
      {| row_id := VStr "W"; total_runs := 5; pass_count := 3;
         latest_execution := VDate 9; pass_rate := 3 # 5 |} ].
Proof. vm_compute. reflexivity. Qed.

(* ===================================================================== *)
(** * Databases written by managers alone *)
(* ===================================================================== *)

Lemma insert_one_stamped unique oid (stamp d : document) c now :
  stamp !! "_id" = None → stamp !! "timestamp" = Some (VDate now) →
  Forall stamped c →
  Forall stamped (Mongo.insert_one unique oid (py_update d stamp) c).1.2.
Proof.
  intros Hid Hts Hc. unfold Mongo.insert_one.
  destruct (Mongo.violates _ _ c); simpl; [done|].
  apply Forall_app. split; [done|]. constructor; [|done].
  exists now. by apply (stamped_argument oid stamp d Hid).
Qed.

Lemma approve_self_heal_stamped now heal_id notes db :
  Forall stamped (self_heal_decisions db) →
  Forall stamped (self_heal_decisions
                    (approve_self_heal now heal_id notes db).1).
Proof.
  intros Hst.
  destruct (first_match_or_none (by_id heal_id) (self_heal_decisions db))
    as [Hno|(before & d & after & Hm)].
  - by rewrite approve_self_heal_no_match.
  - rewrite (approve_self_heal_first_match _ _ _ _ _ _ _ Hm). simpl.
    destruct Hm as (Hc & _ & _). rewrite Hc in Hst.
    apply Forall_app in Hst as [Hb Ha].
    apply Forall_cons in Ha as [[t Ht] Ha].
    apply Forall_app. split; [done|]. constructor; [|done].
    exists t. rewrite <- Ht.
    apply set_fields_lookup_None. by rewrite approval_lookup.
Qed.

Lemma cache_llm_context_wf now_expiry now_created oid h data ttl_hours db :
  cache_wf (llm_context_cache db) →
  cache_wf (llm_context_cache
              (cache_llm_context now_expiry now_created oid h data
                 ttl_hours db).1).
Proof.
  intros Hwf. unfold cache_llm_context, datetime_add.
  destruct (in_datetime _); [|exact Hwf].
  change [Mongo.FieldEq "prompt_hash" (VStr h)] with (by_hash h).
  set (upd := ({[ "context_data" := data;
                  "created_at" := VDate now_created;
                  "expires_at" := VDate (now_expiry + hours ttl_hours) ]}
               : document)).
  destruct (first_match_or_none (by_hash h) (llm_context_cache db))
    as [Hno|(before & d & after & Hm)].
  - unfold Mongo.update_one.
    rewrite (proj2 (split_first_None _ _) Hno).
    unfold Mongo.insert_one.
    destruct (Mongo.violates _ _ _) eqn:Hv; simpl; [done|].
    assert (fresh_entry :
              ∀ k, k ≠ "_id" →
                   Mongo.with_id oid (upd ∪ Mongo.filter_seed (by_hash h)) !! k
                   = (upd ∪ Mongo.filter_seed (by_hash h)) !! k).
    { intros k Hk. by apply with_id_lookup_ne. }
    destruct Hwf as [Hall Hnd]. split.
    + apply Forall_app. split; [done|]. constructor; [|done]. split.
      * exists h. rewrite fresh_entry by done. by rewrite lookup_union_r.
      * eexists. rewrite fresh_entry by done. by apply lookup_union_Some_l.
    + rewrite map_app. apply NoDup_app. split; [done|]. split.
      * intros k Hk Hk'. simpl in Hk'. apply list_elem_of_singleton in Hk'.
        unfold cache_key in Hk'. rewrite fresh_entry in Hk' by done.
        rewrite lookup_union_r in Hk' by done. simpl in Hk'. subst k.
        apply list_elem_of_In, in_map_iff in Hk as (x & Hx & Hxin).
        apply list_elem_of_In in Hxin.
        pose proof (cache_wf_matches h _ (conj Hall Hnd)) as Hm.
        rewrite Forall_forall in Hm. specialize (Hm x Hxin).
        unfold no_match in Hno. rewrite Forall_forall in Hno.
        rewrite (Hno x Hxin) in Hm. symmetry in Hm.
        by apply bool_decide_eq_false_1 in Hm.
      * simpl. apply NoDup_singleton.
  - rewrite (update_one_first_match _ _ _ _ _ _ _ _ _ Hm).
    unfold Mongo.apply_set.
    replace (upd !! "_id") with (@None value) by done.
    rewrite violates_nil. simpl.
    destruct Hm as (Hc & _ & _). rewrite Hc in Hwf.
    destruct Hwf as [Hall Hnd].
    apply Forall_app in Hall as [Hb Ha].
    apply Forall_cons in Ha as [[[hd Hhd] _] Ha].
    assert (cache_key (Mongo.set_fields upd d) = cache_key d) as Hkey.
    { unfold cache_key. by apply set_fields_lookup_None. }
    split.
    + apply Forall_app. split; [done|]. constructor; [|done]. split.
      * exists hd. unfold cache_key in Hkey. by rewrite Hkey.
      * eexists. by apply set_fields_lookup_Some.
    + rewrite map_app in *. simpl in *. by rewrite Hkey.
Qed.

(** Every call keeps the database well formed. *)
Lemma exec_database_wf py_str self c db :
  database_wf db → database_wf (exec py_str self c db).1.
Proof.
  intros (He & Hh & Hu & Hc). destruct c; simpl; try done.
  - unfold create_test_case.
    by destruct (Mongo.insert_one _ _ _ _) as [[? ?] ?].
  - rewrite update_test_case_eq. done.
  - unfold record_execution.
    match goal with
    | |- context [Mongo.insert_one ?u ?o (py_update ?d ?st) ?c] =>
        pose proof (insert_one_stamped u o st d c now eq_refl eq_refl He) as H;
        destruct (Mongo.insert_one u o (py_update d st) c) as [[? ?] ?]
    end.
    done.
  - unfold record_self_heal_decision.
    match goal with
    | |- context [Mongo.insert_one ?u ?o (py_update ?d ?st) ?c] =>
        pose proof (insert_one_stamped u o st d c now eq_refl eq_refl Hh) as H;
        destruct (Mongo.insert_one u o (py_update d st) c) as [[? ?] ?]
    end.
    done.
  - pose proof (approve_self_heal_stamped now heal_id engineer_notes db Hh)
      as H.
    destruct (approve_self_heal now heal_id engineer_notes db) as [db' r] eqn:E.
    simpl in *. unfold approve_self_heal in E.
    destruct (Mongo.update_one _ _ _ _ _ _). injection E as <- _. done.
  - unfold save_ui_snapshot.
    match goal with
    | |- context [Mongo.insert_one ?u ?o (py_update ?d ?st) ?c] =>
        pose proof (insert_one_stamped u o st d c now eq_refl eq_refl Hu) as H;
        destruct (Mongo.insert_one u o (py_update d st) c) as [[? ?] ?]
    end.
    done.
  - pose proof (cache_llm_context_wf now_expiry now_created oid prompt_hash
                  context_data ttl_hours db Hc) as H.
    destruct (cache_llm_context _ _ _ _ _ _ db) as [db' r] eqn:E.
    simpl in *. unfold cache_llm_context in E.
    destruct (datetime_add _ _); [|by injection E as <- _].
    destruct (Mongo.update_one _ _ _ _ _ _). injection E as <- _. done.
Qed.

Lemma empty_database_wf : database_wf empty_database.
Proof. repeat split; constructor. Qed.

(** On a server that managers alone have written, every database is well
    formed: executions, decisions and snapshots are stamped, and the cache
    has one entry per key. *)
Lemma run_all_database_wf py_str calls s :
  (∀ n, database_wf (s n)) → ∀ n, database_wf (run_all py_str calls s n).
Proof.
  revert s. induction calls as [|[m c] calls IH]; intros s Hs n; simpl.
  - apply Hs.
  - apply IH. intros n'. rewrite run_exec. simpl. unfold set_database.
    case_bool_decide; [|apply Hs]. apply exec_database_wf, Hs.
Qed.

(** In particular on every server reached from the empty one. *)
Corollary reachable_database_wf py_str calls n :
  database_wf (run_all py_str calls empty_server n).
Proof. apply run_all_database_wf. intros n'. apply empty_database_wf. Qed.

(* ===================================================================== *)
(** * Looking test cases up *)
(* ===================================================================== *)

Lemma key_clash_spec f (a b : document) :
  Mongo.key_clash f a b = true
  ↔ ∃ k, k ∈ Mongo.index_keys (a !! f) ∧ k ∈ Mongo.index_keys (b !! f).
Proof.
  unfold Mongo.key_clash. rewrite existsb_exists. split.
  - intros (k & Hk & Hex). apply existsb_exists in Hex as (k' & Hk' & Heq).
    apply bool_decide_eq_true_1 in Heq. subst k'.
    exists k. split; by apply list_elem_of_In.
  - intros (k & Ha & Hb). exists k. split; [by apply list_elem_of_In|].
    apply existsb_exists. exists k. split; [by apply list_elem_of_In|].
    by apply bool_decide_eq_true_2.
Qed.

Lemma key_clash_sym f (a b : document) :
  Mongo.key_clash f a b = Mongo.key_clash f b a.
Proof.
  apply eq_true_iff_eq. rewrite !key_clash_spec. split; intros (k & ? & ?); eauto.
Qed.

Lemma key_clash_lookup f (a a' b : document) :
  a !! f = a' !! f → Mongo.key_clash f a b = Mongo.key_clash f a' b.
Proof. intros H. unfold Mongo.key_clash. by rewrite H. Qed.

Lemma violates_false unique (doc : document) c :
  Mongo.violates unique doc c = false
  ↔ ∀ d f, d ∈ c → f ∈ unique → Mongo.key_clash f doc d = false.
Proof.
  split.
  - intros Hv d f Hd Hf. apply not_true_iff_false. intros Hc.
    apply not_true_iff_false in Hv. apply Hv. unfold Mongo.violates.
    apply existsb_exists. exists d. split; [by apply list_elem_of_In|].
    apply existsb_exists. exists f. split; [by apply list_elem_of_In|done].
  - intros H. apply not_true_iff_false. intros Hv. unfold Mongo.violates in Hv.
    apply existsb_exists in Hv as (d & Hd & Hex).
    apply existsb_exists in Hex as (f & Hf & Hc).
    rewrite (H d f) in Hc; [done| |]; by apply list_elem_of_In.
Qed.

(** What the equality filter on a field says of the keys of the index on
    that field. *)
Lemma matches_eq_index_key f (q : value) (x : document) :
  q ≠ VNull → (∀ l, q ≠ VList l) →
  Mongo.matches [Mongo.FieldEq f q] x = true →
  Some q ∈ Mongo.index_keys (x !! f).
Proof.
  intros Hnull Hlist. unfold Mongo.matches. simpl. rewrite andb_true_r.
  destruct (x !! f) as [v|]; [|by intros ?%value_eqb_eq].
  simpl. destruct v as [| | | | | |l|]; simpl; rewrite ?orb_false_r;
    try (intros <-%value_eqb_eq; by left).
  intros [Hq|Hq]%orb_true_iff.
  - apply value_eqb_eq in Hq. by destruct (Hlist l).
  - apply existsb_exists in Hq as (y & Hy & <-%value_eqb_eq).
    destruct l as [|z l]; [done|].
    apply list_elem_of_fmap_2. by apply list_elem_of_In.
Qed.

Lemma matches_eq_same f (q : value) (x : document) :
  x !! f = Some q → Mongo.matches [Mongo.FieldEq f q] x = true.
Proof.
  intros H. unfold Mongo.matches. cbn [forallb Mongo.cond_holds].
  rewrite H, andb_true_r. apply existsb_exists. exists q.
  split; [|apply value_eqb_refl]. destruct q; by left.
Qed.

Lemma matches_eq_lookup f (q : value) (x y : document) :
  x !! f = y !! f →
  Mongo.matches [Mongo.FieldEq f q] x = Mongo.matches [Mongo.FieldEq f q] y.
Proof. intros H. unfold Mongo.matches. simpl. by rewrite H. Qed.

Lemma matches_clash f (q : value) (x y : document) :
  q ≠ VNull → (∀ l, q ≠ VList l) →
  Mongo.matches [Mongo.FieldEq f q] x = true →
  Mongo.matches [Mongo.FieldEq f q] y = true →
  Mongo.key_clash f x y = true.
Proof.
  intros Hn Hl Hx Hy. apply key_clash_spec. exists (Some q).
  split; by apply matches_eq_index_key.
Qed.

(** ** Uniqueness as an invariant *)

Lemma unique_on_insert f (l1 l2 : list document) (x : document) :
  unique_on f (l1 ++ x :: l2)
  ↔ unique_on f (l1 ++ l2)
    ∧ Forall (λ y, Mongo.key_clash f x y = false) (l1 ++ l2).
Proof.
  induction l1 as [|z l1 IH]; simpl.
  - tauto.
  - rewrite IH, !Forall_cons, !Forall_app, !Forall_cons, (key_clash_sym f z x).
    tauto.
Qed.

Lemma unique_on_snoc f (c : list document) (x : document) :
  unique_on f (c ++ [x])
  ↔ unique_on f c ∧ Forall (λ y, Mongo.key_clash f x y = false) c.
Proof. by rewrite unique_on_insert, app_nil_r. Qed.

Lemma unique_on_lookup f (c : list document) i j di dj :
  unique_on f c → c !! i = Some di → c !! j = Some dj → i ≠ j →
  Mongo.key_clash f di dj = false.
Proof.
  revert i j. induction c as [|x c IH]; intros i j Hu Hi Hj Hne; [done|].
  destruct Hu as [Hx Hc]. rewrite Forall_forall in Hx.
  destruct i as [|i], j as [|j]; simpl in *; try done.
  - injection Hi as <-. apply Hx. by eapply list_elem_of_lookup_2.
  - injection Hj as <-. rewrite key_clash_sym. apply Hx.
    by eapply list_elem_of_lookup_2.
  - apply (IH i j); auto.
Qed.

Lemma insert_one_unique unique oid (doc : document) c f :
  f ∈ "_id" :: unique → unique_on f c →
  unique_on f (Mongo.insert_one unique oid doc c).1.2.
Proof.
  intros Hf Hc. unfold Mongo.insert_one.
  destruct (Mongo.violates _ _ c) eqn:Hv; simpl; [done|].
  apply unique_on_snoc. split; [done|]. apply Forall_forall. intros d Hd.
  by apply (proj1 (violates_false _ _ _) Hv).
Qed.

Lemma apply_set_id (upd d d' : document) :
  Mongo.apply_set upd d = Ok d' → d' !! "_id" = d !! "_id".
Proof.
  unfold Mongo.apply_set. destruct (upd !! "_id") as [i|] eqn:Hi.
  - case_bool_decide as Hd; [|discriminate]. intros [= <-].
    rewrite Hd. by apply set_fields_lookup_Some.
  - intros [= <-]. by apply set_fields_lookup_None.
Qed.

Lemma update_one_unique unique flt upd oid c f :
  f ∈ "_id" :: unique → unique_on f c →
  unique_on f (Mongo.update_one unique flt upd false oid c).1.
Proof.
  intros Hf Hc. destruct (first_match_or_none flt c)
    as [Hno|(before & d & after & Hm)].
  - by rewrite update_one_no_match.
  - rewrite (update_one_first_match _ _ _ _ _ _ _ _ _ Hm).
    destruct (Mongo.apply_set upd d) as [d'|e] eqn:Hset; [|done].
    destruct (Mongo.violates unique d' (before ++ after)) eqn:Hv; [done|].
    simpl. destruct Hm as (-> & _ & _).
    apply unique_on_insert in Hc as [Hrest Hd].
    apply unique_on_insert. split; [done|].
    apply elem_of_cons in Hf as [->|Hf].
    + eapply Forall_impl; [exact Hd|]. intros y Hy. simpl in Hy.
      rewrite (key_clash_lookup "_id" d' d y); [done|].
      by eapply apply_set_id.
    + apply Forall_forall. intros y Hy.
      by apply (proj1 (violates_false _ _ _) Hv).
Qed.

Lemma exec_registry_wf py_str self c db :
  registry_wf db → registry_wf (exec py_str self c db).1.
Proof.
  intros [Ht Hi]. destruct c; simpl; try (by split).
  - unfold create_test_case.
    pose proof (insert_one_unique test_cases_unique oid
      (py_update test_case
         {[ "hospital" := VStr (hospital_id self);
            "created_at" := VDate now_created;
            "last_modified" := VDate now_modified;
            "status" := VStr "active" ]}) (test_cases db)) as H.
    destruct (Mongo.insert_one _ _ _ _) as [[? ?] ?]. simpl in *.
    split; apply H; try done; set_solver.
  - rewrite update_test_case_eq. simpl.
    split; apply update_one_unique; try done; set_solver.
  - unfold record_execution.
    by destruct (Mongo.insert_one _ _ _ _) as [[? ?] ?].
  - unfold record_self_heal_decision.
    by destruct (Mongo.insert_one _ _ _ _) as [[? ?] ?].
  - unfold approve_self_heal.
    by destruct (Mongo.update_one _ _ _ _ _ _).
  - unfold save_ui_snapshot.
    by destruct (Mongo.insert_one _ _ _ _) as [[? ?] ?].
  - unfold cache_llm_context.
    destruct (datetime_add _ _); [|done].
    by destruct (Mongo.update_one _ _ _ _ _ _).
Qed.

Lemma run_all_registry_wf py_str calls s :
  (∀ n, registry_wf (s n)) → ∀ n, registry_wf (run_all py_str calls s n).
Proof.
  revert s. induction calls as [|[m c] calls IH]; intros s Hs n; simpl.
  - apply Hs.
  - apply IH. intros n'. rewrite run_exec. simpl. unfold set_database.
    case_bool_decide; [|apply Hs]. apply exec_registry_wf, Hs.
Qed.

Lemma reachable_registry_wf py_str calls n :
  registry_wf (run_all py_str calls empty_server n).
Proof. apply run_all_registry_wf. intros n'. by split. Qed.

Lemma find_unique_test_id (t : string) (c : list document) (d : document) :
  unique_on "test_id" c → d ∈ c → d !! "test_id" = Some (VStr t) →
  List.find (Mongo.matches (by_test_id t)) c = Some d.
Proof.
  intros Hu Hd Ht. induction c as [|x c IH]; [by apply elem_of_nil in Hd|].
  destruct Hu as [Hx Hc]. cbn [List.find].
  destruct (Mongo.matches (by_test_id t) x) eqn:Hm.
  - apply elem_of_cons in Hd as [->|Hd]; [done|].
    rewrite Forall_forall in Hx. specialize (Hx d Hd).
    rewrite (matches_clash "test_id" (VStr t) x d) in Hx; try done.
    by apply matches_eq_same.
  - apply elem_of_cons in Hd as [->|Hd]; [|by apply IH].
    unfold by_test_id in Hm. by rewrite matches_eq_same in Hm.
Qed.

(** X1.  After [create_test_case] has stored a test case under the string
    [t], [get_test_case t] returns that test case: the document returned
    has the [_id] now in the caller's dictionary, of which the identifier
    returned is the [str], the [test_id] [t] and the status [active]. *)
Theorem create_then_get (py_str : value → string) (self : MongoDBManager)
    (now_created now_modified : Z) (oid : N) (test_case : document)
    (db : database) (t : string) (arg : document) (db' : database)
    (id : string) :
  test_case !! "test_id" = Some (VStr t) →
  create_test_case py_str self now_created now_modified oid test_case db
  = (arg, db', Ok id) →
  ∃ d,
    get_test_case t db' = Some d
    ∧ d !! "_id" = arg !! "_id"
    ∧ id = py_str (py_get d "_id")
    ∧ d !! "test_id" = Some (VStr t)
    ∧ d !! "status" = Some (VStr "active").
Proof.
  intros Ht. unfold create_test_case, Mongo.insert_one.
  destruct (Mongo.violates _ _ (test_cases db)) eqn:Hv; [discriminate|].
  cbn [mbind result_bind]. intros [= <- <- <-].
  match goal with
  | |- context [Mongo.with_id oid ?d] => set (doc := Mongo.with_id oid d) in *
  end.
  exists doc. split; [|split; [done|split; [done|]]]; cycle 1.
  { unfold doc. rewrite !with_id_lookup_ne by done.
    split; [by rewrite py_update_lookup_None|].
    by apply py_update_lookup_Some. }
  unfold get_test_case, Mongo.find_one. cbn [test_cases set_test_cases].
  rewrite find_app. fold (by_test_id t).
  assert (Mongo.matches (by_test_id t) doc = true) as Hdoc.
  { apply matches_eq_same. unfold doc.
    rewrite with_id_lookup_ne by done. by rewrite py_update_lookup_None. }
  assert (List.find (Mongo.matches (by_test_id t)) (test_cases db) = None)
    as ->.
  { apply find_none_Forall, Forall_forall. intros x Hx.
    apply not_true_iff_false. intros Hm.
    assert (Mongo.key_clash "test_id" doc x = true) as Hc
      by (by apply (matches_clash "test_id" (VStr t))).
    rewrite (proj1 (violates_false _ _ _) Hv x "test_id") in Hc;
      [discriminate | done | set_solver]. }
  cbn [List.find]. by rewrite Hdoc.
Qed.

Lemma create_then_get_witness :
  let self := MongoDBManager_init "client_A" in
  let test_case : document :=
    {[ "test_id" := VStr "TC_PAY_002"; "name" := VStr "Payment" ]} in
  let r := create_test_case show_id self 300 301 2 test_case registry_before in
  ∃ d,
    get_test_case "TC_PAY_002" r.1.2 = Some d
    ∧ d !! "_id" = Some (VOid 2)
    ∧ d !! "status" = Some (VStr "active").
Proof.
  intros self test_case r.
  destruct (create_then_get show_id self 300 301 2 test_case registry_before
              "TC_PAY_002" r.1.1 r.1.2 "ObjectId")
    as (d & Hget & Hid & _ & _ & Hstatus).
  - vm_compute. reflexivity.
  - vm_compute. reflexivity.
  - exists d. split; [exact Hget|]. split; [|exact Hstatus].
    rewrite Hid. vm_compute. reflexivity.
Defined.

(** X2.  On a server that managers alone have written, no two stored test
    cases of a tenant have the same [test_id] (a missing [test_id] counting
    as a value) or the same [_id]: creating and updating both respect the
    unique index of [_ensure_indexes]. *)
Theorem test_ids_stay_unique (py_str : value → string)
    (calls : list (MongoDBManager * call)) (n : string) (i j : nat)
    (di dj : document) :
  test_cases (run_all py_str calls empty_server n) !! i = Some di →
  test_cases (run_all py_str calls empty_server n) !! j = Some dj →
  di !! "test_id" = dj !! "test_id" ∨ di !! "_id" = dj !! "_id" →
  i = j.
Proof.
  intros Hi Hj Hsame. destruct (decide (i = j)) as [|Hne]; [done|].
  destruct (reachable_registry_wf py_str calls n) as [Ht Hid].
  destruct Hsame as [Hsame|Hsame].
  - pose proof (unique_on_lookup _ _ _ _ _ _ Ht Hi Hj Hne) as Hc.
    by rewrite key_clash_same in Hc.
  - pose proof (unique_on_lookup _ _ _ _ _ _ Hid Hi Hj Hne) as Hc.
    by rewrite key_clash_same in Hc.
Qed.

Lemma test_ids_stay_unique_witness :
  let c :=
    test_cases (run_all show_id registry_calls empty_server
                  "test_automation_client_A") in
  length c = 2%nat
  ∧ ∀ i di, c !! i = Some di → di !! "test_id" = Some (VStr "TC_1") →
            i = 0%nat.
Proof.
  intros c. split; [vm_compute; reflexivity|]. intros i di Hi Ht.
  apply (test_ids_stay_unique show_id registry_calls
           "test_automation_client_A" i 0
           di {[ "_id" := VOid 1; "test_id" := VStr "TC_1";
                 "hospital" := VStr "client_A"; "created_at" := VDate 1;
                 "last_modified" := VDate 1; "status" := VStr "active" ]}).
  - exact Hi.
  - vm_compute. reflexivity.
  - left. rewrite Ht. vm_compute. reflexivity.
Defined.

(** X3.  On a server that managers alone have written, [get_test_case t]
    returns the stored test case whose [test_id] is the string [t]: there is
    one at most, and it is the one found. *)
Theorem get_test_case_finds (py_str : value → string)
    (calls : list (MongoDBManager * call)) (n : string) (t : string)
    (d : document) :
  d ∈ test_cases (run_all py_str calls empty_server n) →
  d !! "test_id" = Some (VStr t) →
  get_test_case t (run_all py_str calls empty_server n) = Some d.
Proof.
  intros Hd Ht. unfold get_test_case, Mongo.find_one.
  apply find_unique_test_id; [|done|done].
  by destruct (reachable_registry_wf py_str calls n).
Qed.

Lemma get_test_case_finds_witness :
  let second : document :=
    {[ "_id" := VOid 3; "test_id" := VStr "TC_2"; "name" := VStr "second";
       "hospital" := VStr "client_A"; "created_at" := VDate 3;
       "last_modified" := VDate 5; "status" := VStr "active" ]} in
  get_test_case "TC_2"
    (run_all show_id registry_calls empty_server "test_automation_client_A")
  = Some second.
Proof.
  intros second.
  apply (get_test_case_finds show_id registry_calls
           "test_automation_client_A" "TC_2" second).
  - vm_compute. right. left.
  - vm_compute. reflexivity.
Defined.

(** X4.  After an update that does not rename the test case and that
    reported a change, [get_test_case] returns a document holding the new
    [last_modified] and every given field (a field being named without a
    dot). *)
Theorem update_then_get (now : Z) (t : string) (updates : document)
    (db : database) (updates' : document) (db' : database) :
  updates !! "test_id" = None →
  update_test_case now t updates db = (updates', db', Ok true) →
  ∃ d',
    get_test_case t db' = Some d'
    ∧ d' !! "last_modified" = Some (VDate now)
    ∧ ∀ k v, k ≠ "last_modified" → has_dot k = false →
             updates !! k = Some v → d' !! k = Some v.
Proof.
  intros Ht. rewrite update_test_case_eq. cbn zeta.
  destruct (first_match_or_none (by_test_id t) (test_cases db))
    as [Hno|(before & d & after & Hm)].
  - rewrite update_one_no_match by done. discriminate.
  - rewrite (update_one_first_match _ _ _ _ _ _ _ _ _ Hm).
    set (u := <["last_modified" := VDate now]> updates).
    destruct (Mongo.apply_set u d) as [d'|e] eqn:Hset; [|discriminate].
    assert (d' = Mongo.set_fields u d) as ->.
    { unfold Mongo.apply_set in Hset.
      destruct (u !! "_id"); [destruct (bool_decide _)|]; congruence. }
    destruct (Mongo.violates _ _ _); [discriminate|].
    cbn [fst snd mbind result_bind]. intros [= _ <- _].
    exists (Mongo.set_fields u d). split; [|split].
    + unfold get_test_case, Mongo.find_one. cbn [test_cases set_test_cases].
      fold (by_test_id t). rewrite find_app.
      destruct Hm as (_ & Hbefore & Hd).
      rewrite (proj2 (find_none_Forall _ _) Hbefore). cbn [List.find].
      assert (Mongo.matches (by_test_id t) (Mongo.set_fields u d) = true)
        as ->; [|done].
      rewrite <- Hd. apply matches_eq_lookup, set_fields_lookup_None.
      unfold u. by rewrite lookup_insert_ne.
    + apply set_fields_lookup_Some. apply lookup_insert_eq.
    + intros k v Hk _ Hv. apply set_fields_lookup_Some.
      unfold u. by rewrite lookup_insert_ne.
Qed.

Lemma update_then_get_witness :
  let r :=
    update_test_case 200 "TC_LOGIN_001" {[ "name" := VStr "Sign in" ]}
      registry_before in
  ∃ d',
    get_test_case "TC_LOGIN_001" r.1.2 = Some d'
    ∧ d' !! "last_modified" = Some (VDate 200)
    ∧ d' !! "name" = Some (VStr "Sign in").
Proof.
  intros r.
  destruct (update_then_get 200 "TC_LOGIN_001" {[ "name" := VStr "Sign in" ]}
              registry_before r.1.1 r.1.2) as (d' & Hget & Hlm & Hgiven).
  - vm_compute. reflexivity.
  - vm_compute. reflexivity.
  - exists d'. split; [exact Hget|]. split; [exact Hlm|].
    apply Hgiven; [discriminate|reflexivity|]. vm_compute. reflexivity.
Defined.

(** X5.  Renaming a test case to a [test_id] that another stored test case
    has raises [DuplicateKeyError] out of [update_test_case]; the database is
    as before, and the caller's [updates] has received [last_modified] all
    the same. *)
Theorem rename_to_taken_test_id (now : Z) (t : string) (updates : document)
    (db : database) (before : list document) (d : document)
    (after : list document) (other : document) :
  first_match (by_test_id t) (test_cases db) before d after →
  other ∈ before ++ after →
  is_Some (updates !! "test_id") →
  updates !! "test_id" = other !! "test_id" →
  updates !! "_id" = None →
  update_test_case now t updates db
  = (<["last_modified" := VDate now]> updates, db, Raise DuplicateKeyError).
Proof.
  intros Hm Hother [v Hv] Hsame Hid. rewrite update_test_case_eq. cbn zeta.
  rewrite (update_one_first_match _ _ _ _ _ _ _ _ _ Hm).
  unfold Mongo.apply_set. rewrite lookup_insert_ne by done. rewrite Hid.
  erewrite (violates_elem test_cases_unique "test_id" _ other);
    [| done | left |].
  - simpl. by rewrite set_test_cases_id.
  - rewrite <- Hsame, Hv. apply set_fields_lookup_Some.
    by rewrite lookup_insert_ne.
Qed.

Lemma rename_to_taken_test_id_witness :
  let first : document := {[ "_id" := VOid 1; "test_id" := VStr "TC_1" ]} in
  let second : document := {[ "_id" := VOid 2; "test_id" := VStr "TC_2" ]} in
  let db := set_test_cases [first; second] empty_database in
  update_test_case 9 "TC_2" {[ "test_id" := VStr "TC_1" ]} db
  = (<["last_modified" := VDate 9]> {[ "test_id" := VStr "TC_1" ]},
     db, Raise DuplicateKeyError).
Proof.
  intros first second db.
  apply (rename_to_taken_test_id 9 "TC_2" {[ "test_id" := VStr "TC_1" ]} db
           [first] second [] first).
  - split; [reflexivity|]. split; [|vm_compute; reflexivity].
    constructor; [vm_compute; reflexivity|constructor].
  - left.
  - eexists. vm_compute. reflexivity.
  - vm_compute. reflexivity.
  - vm_compute. reflexivity.
Defined.

(* ===================================================================== *)
(** * Histories, newest first *)
(* ===================================================================== *)

Lemma insert_desc_perm f (d : document) (l : list document) :
  Mongo.insert_desc f d l ≡ₚ d :: l.
Proof.
  induction l as [|x l IH]; simpl; [done|].
  destruct (Mongo.bson_compare _ _); try done.
  rewrite IH. apply Permutation_swap.
Qed.

Lemma sort_desc_perm f (c : list document) : Mongo.sort_desc f c ≡ₚ c.
Proof.
  unfold Mongo.sort_desc. induction c as [|d c IH]; simpl; [done|].
  by rewrite insert_desc_perm, IH.
Qed.

Lemma insert_desc_sorted (d : document) (l : list document) :
  stamped d → Forall stamped l →
  StronglySorted newest_first l →
  StronglySorted newest_first (Mongo.insert_desc "timestamp" d l).
Proof.
  intros Hd Hl Hs. induction Hs as [|x l Hs IH Hx]; simpl.
  - repeat constructor.
  - apply Forall_cons in Hl as [Hsx Hl].
    rewrite (sort_key_stamped d), (sort_key_stamped x) by done. simpl.
    assert (∀ y, y ∈ l → newest_first x y) as Hx'
      by (intros y Hy; by eapply Forall_forall in Hx).
    destruct (Z.compare_spec (timestamp_of d) (timestamp_of x)) as [He|Hlt|Hgt].
    + constructor; [by constructor|]. constructor; [unfold newest_first; lia|].
      apply Forall_forall. intros y Hy. specialize (Hx' y Hy).
      unfold newest_first in *. lia.
    + constructor; [by apply IH|]. apply Forall_forall. intros y Hy.
      rewrite insert_desc_perm in Hy.
      apply elem_of_cons in Hy as [->|Hy]; [unfold newest_first; lia|auto].
    + constructor; [by constructor|]. constructor; [unfold newest_first; lia|].
      apply Forall_forall. intros y Hy. specialize (Hx' y Hy).
      unfold newest_first in *. lia.
Qed.

Lemma sort_desc_sorted (c : list document) :
  Forall stamped c →
  StronglySorted newest_first (Mongo.sort_desc "timestamp" c).
Proof.
  unfold Mongo.sort_desc. induction 1 as [|d c Hd Hc IH]; simpl.
  - constructor.
  - apply insert_desc_sorted; [done| |done].
    apply Forall_forall. intros x Hx.
    fold (Mongo.sort_desc "timestamp" c) in Hx. rewrite sort_desc_perm in Hx.
    by eapply Forall_forall in Hc.
Qed.

Lemma StronglySorted_app_elem {A : Type} (R : A → A → Prop) (l1 l2 : list A)
    (a b : A) :
  StronglySorted R (l1 ++ l2) → a ∈ l1 → b ∈ l2 → R a b.
Proof.
  induction l1 as [|x l1 IH]; simpl; intros Hs Ha Hb;
    [by apply elem_of_nil in Ha|].
  apply StronglySorted_inv in Hs as [Hs Hx].
  apply elem_of_cons in Ha as [->|Ha]; [|by apply IH].
  rewrite Forall_forall in Hx. apply Hx. apply elem_of_app. by right.
Qed.

Lemma elem_of_take_list {A : Type} (n : nat) (l : list A) (x : A) :
  x ∈ take n l → x ∈ l.
Proof.
  intros H. rewrite <- (take_drop n l). apply elem_of_app. by left.
Qed.

Lemma StronglySorted_take {A : Type} (R : A → A → Prop) (n : nat)
    (l : list A) :
  StronglySorted R l → StronglySorted R (take n l).
Proof.
  intros Hs. revert n. induction Hs as [|x l Hs IH Hx]; intros [|n]; simpl;
    try constructor; [apply IH|].
  apply Forall_forall. intros y Hy. rewrite Forall_forall in Hx. apply Hx.
  by eapply elem_of_take_list.
Qed.

Lemma find_elem flt (c : list document) (d : document) :
  d ∈ Mongo.find flt c ↔ d ∈ c ∧ Mongo.matches flt d = true.
Proof. unfold Mongo.find. by rewrite !list_elem_of_In, filter_In. Qed.

Lemma find_snoc flt (c : list document) (d : document) :
  Mongo.matches flt d = true →
  Mongo.find flt (c ++ [d]) = Mongo.find flt c ++ [d].
Proof.
  intros H. unfold Mongo.find. rewrite List.filter_app. simpl. by rewrite H.
Qed.

Lemma limit_positive (n : Z) (c : list document) :
  0 < n → Mongo.limit n c = take (Z.to_nat n) c.
Proof.
  intros H. unfold Mongo.limit.
  rewrite (proj2 (Z.eqb_neq n 0)) by lia. f_equal. lia.
Qed.

(** X6.  The history of a test case, over stamped executions and for a
    [limit] the store accepts (a 64-bit integer): the executions returned
    are stored executions of that test case, newest first; with a positive
    [limit] there are [limit] of them, or all if there are fewer, and none
    left out is newer than one returned; with [limit] 0 all are returned. *)
Theorem get_execution_history_spec (test_case_id : string) (limit : Z)
    (db : database) :
  Forall stamped (test_executions db) →
  Z.abs limit < 2 ^ 63 →
  let all := Mongo.find (by_test_case test_case_id) (test_executions db) in
  let history := get_execution_history test_case_id limit db in
  StronglySorted newest_first history
  ∧ (∀ d, d ∈ history → d ∈ all)
  ∧ (0 < limit →
     length history = (Z.to_nat limit `min` length all)%nat
     ∧ ∀ d x, d ∈ history → x ∈ all → x ∉ history → newest_first d x)
  ∧ (limit = 0 → history ≡ₚ all).
Proof.
  intros Hst _ all history.
  assert (Forall stamped all) as Hall by (by apply Forall_filter_stamped).
  pose proof (sort_desc_sorted all Hall) as Hsorted.
  pose proof (sort_desc_perm "timestamp" all) as Hperm.
  unfold history, get_execution_history.
  change [Mongo.FieldEq "test_case_id" (VStr test_case_id)]
    with (by_test_case test_case_id).
  fold all. set (sorted := Mongo.sort_desc "timestamp" all) in *.
  split; [|split; [|split]].
  - unfold Mongo.limit. destruct (limit =? 0); [done|].
    by apply StronglySorted_take.
  - intros d Hd. rewrite <- Hperm. unfold Mongo.limit in Hd.
    destruct (limit =? 0); [done|]. by eapply elem_of_take_list.
  - intros Hpos. rewrite limit_positive by done. split.
    + by rewrite length_take, Hperm.
    + intros d x Hd Hx Hnot.
      apply (StronglySorted_app_elem newest_first
               (take (Z.to_nat limit) sorted) (drop (Z.to_nat limit) sorted));
        [by rewrite take_drop | done |].
      rewrite <- Hperm, <- (take_drop (Z.to_nat limit) sorted) in Hx.
      by apply elem_of_app in Hx as [Hx|Hx].
  - intros ->. done.
Qed.

Lemma get_execution_history_spec_witness :
  let run (id : string) (t : Z) : document :=
    {[ "test_case_id" := VStr id; "timestamp" := VDate t ]} in
  let db :=
    set_test_executions
      [run "X" 3; run "Y" 4; run "X" 9; run "X" 1; run "X" 7] empty_database in
  get_execution_history "X" 2 db = [run "X" 9; run "X" 7]
  ∧ length (get_execution_history "X" 2 db) = 2%nat
  ∧ get_execution_history "X" 0 db
    ≡ₚ [run "X" 3; run "X" 9; run "X" 1; run "X" 7].
Proof.
  intros run db.
  assert (Forall stamped (test_executions db)) as Hst.
  { repeat constructor; eexists; vm_compute; reflexivity. }
  split; [vm_compute; reflexivity|].
  destruct (get_execution_history_spec "X" 2 db Hst) as (_ & _ & H2 & _);
    [vm_compute; reflexivity|].
  destruct (get_execution_history_spec "X" 0 db Hst) as (_ & _ & _ & H0);
    [vm_compute; reflexivity|].
  split.
  - destruct H2 as [Hlen _]; [lia|]. exact Hlen.
  - apply H0. reflexivity.
Defined.

Lemma insert_one_Ok unique oid (doc : document) c arg c' v :
  Mongo.insert_one unique oid doc c = (arg, c', Ok v) →
  arg = Mongo.with_id oid doc ∧ c' = c ++ [arg] ∧ v = py_get arg "_id"
  ∧ Mongo.violates ("_id" :: unique) arg c = false.
Proof.
  unfold Mongo.insert_one.
  destruct (Mongo.violates _ _ c) eqn:Hv; [discriminate|].
  by intros [= <- <- <-].
Qed.

Lemma head_limit_positive (n : Z) (c : list document) :
  0 < n → head (Mongo.limit n c) = head c.
Proof.
  intros H. rewrite limit_positive by done.
  destruct (Z.to_nat n) as [|k] eqn:E; [lia|]. by destruct c.
Qed.

(** The newest document of a collection sorts first once appended. *)
Lemma head_sort_desc_snoc flt (c : list document) (d : document) (now : Z) :
  Forall stamped c → all_before now c →
  d !! "timestamp" = Some (VDate now) → Mongo.matches flt d = true →
  head (Mongo.sort_desc "timestamp" (Mongo.find flt (c ++ [d]))) = Some d.
Proof.
  intros Hst Hold Hd Hm. rewrite find_snoc by done.
  assert (Forall stamped (Mongo.find flt c ++ [d])) as Hall.
  { apply Forall_app. split; [by apply Forall_filter_stamped|].
    constructor; [by exists now|done]. }
  pose proof (head_sort_desc_latest _ Hall) as Hlatest.
  destruct (head _) as [p|]; [|by destruct (Mongo.find flt c)].
  destruct Hlatest as [Hp Hmax]. f_equal.
  apply elem_of_app in Hp as [Hp|Hp%list_elem_of_singleton]; [|done].
  exfalso. apply find_elem in Hp as [Hp _].
  unfold all_before in Hold. rewrite Forall_forall in Hold.
  specialize (Hold p Hp).
  assert (timestamp_of d ≤ timestamp_of p) as Hle.
  { apply Hmax. apply elem_of_app. right. left. }
  rewrite (timestamp_of_stamped d now) in Hle by done. lia.
Qed.

(** X7.  Over stamped executions all older than the present time, the
    execution that [record_execution] has just stored for the test case
    [test_case_id] is the first of that test case's history, whatever
    positive [limit] the store accepts (a 64-bit integer) is asked: the
    first document has the [_id] now in the caller's dictionary and the
    status given. *)
Theorem record_then_history (py_str : value → string) (self : MongoDBManager)
    (now : Z) (oid : N) (execution_data : document) (db : database)
    (test_case_id : string) (limit : Z) (arg : document) (db' : database)
    (id : string) :
  Forall stamped (test_executions db) →
  all_before now (test_executions db) →
  execution_data !! "test_case_id" = Some (VStr test_case_id) →
  0 < limit < 2 ^ 63 →
  record_execution py_str self now oid execution_data db = (arg, db', Ok id) →
  ∃ d,
    head (get_execution_history test_case_id limit db') = Some d
    ∧ d !! "_id" = arg !! "_id"
    ∧ id = py_str (py_get d "_id")
    ∧ d !! "status" = execution_data !! "status".
Proof.
  intros Hst Hold Hid [Hpos _]. unfold record_execution.
  destruct (Mongo.insert_one _ _ _ _) as [[arg0 c'] r] eqn:Hins.
  destruct r as [v|e]; [|discriminate]. cbn [mbind result_bind].
  intros [= <- <- <-].
  apply insert_one_Ok in Hins as (Harg & -> & -> & _).
  exists arg0. split; [|split; [done|split; [done|]]]; cycle 1.
  { rewrite Harg, with_id_lookup_ne by done.
    by rewrite py_update_lookup_None. }
  unfold get_execution_history. rewrite head_limit_positive by done.
  cbn [test_executions set_test_executions].
  apply (head_sort_desc_snoc _ _ _ now); [done|done| |].
  - rewrite Harg. rewrite with_id_lookup_ne by done.
    by apply py_update_lookup_Some.
  - apply matches_eq_same. rewrite Harg, with_id_lookup_ne by done.
    by rewrite py_update_lookup_None.
Qed.

Lemma record_then_history_witness :
  let self := MongoDBManager_init "client_A" in
  let run (id : string) (t : Z) : document :=
    {[ "_id" := VOid (Z.to_N t); "test_case_id" := VStr id;
       "timestamp" := VDate t ]} in
  let db := set_test_executions [run "X" 3; run "Y" 4; run "X" 9]
              empty_database in
  let r :=
    record_execution show_id self 12 12
      {[ "test_case_id" := VStr "X"; "status" := VStr "passed" ]} db in
  ∃ d,
    head (get_execution_history "X" 10 r.1.2) = Some d
    ∧ d !! "_id" = Some (VOid 12)
    ∧ d !! "status" = Some (VStr "passed").
Proof.
  intros self run db r.
  destruct (record_then_history show_id self 12 12
              {[ "test_case_id" := VStr "X"; "status" := VStr "passed" ]} db
              "X" 10 r.1.1 r.1.2 "ObjectId")
    as (d & Hhead & Hid & _ & Hstatus).
  - repeat constructor; eexists; vm_compute; reflexivity.
  - repeat constructor; vm_compute; reflexivity.
  - vm_compute. reflexivity.
  - lia.
  - vm_compute. reflexivity.
  - exists d. split; [exact Hhead|]. split.
    + rewrite Hid. vm_compute. reflexivity.
    + rewrite Hstatus. vm_compute. reflexivity.
Defined.

(** X8.  Over stamped snapshots all older than the present time, the
    snapshot that [save_ui_snapshot] has just stored for a page is what
    [get_latest_ui_snapshot] returns for that page: the document returned
    has the [_id] now in the caller's dictionary and the selectors given. *)
Theorem save_then_latest (py_str : value → string) (self : MongoDBManager)
    (now : Z) (oid : N) (ui_data : document) (db : database)
    (page_identifier : string) (arg : document) (db' : database)
    (id : string) :
  Forall stamped (ui_snapshots db) →
  all_before now (ui_snapshots db) →
  ui_data !! "page_identifier" = Some (VStr page_identifier) →
  save_ui_snapshot py_str self now oid ui_data db = (arg, db', Ok id) →
  ∃ d,
    get_latest_ui_snapshot page_identifier db' = Some d
    ∧ d !! "_id" = arg !! "_id"
    ∧ id = py_str (py_get d "_id")
    ∧ d !! "selectors" = ui_data !! "selectors".
Proof.
  intros Hst Hold Hpage. unfold save_ui_snapshot.
  destruct (Mongo.insert_one _ _ _ _) as [[arg0 c'] r] eqn:Hins.
  destruct r as [v|e]; [|discriminate]. cbn [mbind result_bind].
  intros [= <- <- <-].
  apply insert_one_Ok in Hins as (Harg & -> & -> & _).
  exists arg0. split; [|split; [done|split; [done|]]]; cycle 1.
  { rewrite Harg, with_id_lookup_ne by done.
    by rewrite py_update_lookup_None. }
  unfold get_latest_ui_snapshot, Mongo.find_one_sorted.
  cbn [ui_snapshots set_ui_snapshots].
  apply (head_sort_desc_snoc _ _ _ now); [done|done| |].
  - rewrite Harg. rewrite with_id_lookup_ne by done.
    by apply py_update_lookup_Some.
  - apply matches_eq_same. rewrite Harg, with_id_lookup_ne by done.
    by rewrite py_update_lookup_None.
Qed.

Lemma save_then_latest_witness :
  let self := MongoDBManager_init "client_A" in
  let older : document :=
    {[ "_id" := VOid 1; "page_identifier" := VStr "login";
       "timestamp" := VDate 10; "selectors" := VList [VStr "#a"] ]} in
  let db := set_ui_snapshots [older] empty_database in
  let r :=
    save_ui_snapshot show_id self 20 2
      {[ "page_identifier" := VStr "login";
         "selectors" := VList [VStr "#b"] ]} db in
  ∃ d,
    get_latest_ui_snapshot "login" r.1.2 = Some d
    ∧ d !! "_id" = Some (VOid 2)
    ∧ d !! "selectors" = Some (VList [VStr "#b"]).
Proof.
  intros self older db r.
  destruct (save_then_latest show_id self 20 2
              {[ "page_identifier" := VStr "login";
                 "selectors" := VList [VStr "#b"] ]} db
              "login" r.1.1 r.1.2 "ObjectId")
    as (d & Hlatest & Hid & _ & Hsel).
  - repeat constructor; eexists; vm_compute; reflexivity.
  - repeat constructor; vm_compute; reflexivity.
  - vm_compute. reflexivity.
  - vm_compute. reflexivity.
  - exists d. split; [exact Hlatest|]. split.
    + rewrite Hid. vm_compute. reflexivity.
    + rewrite Hsel. vm_compute. reflexivity.
Defined.

(* ===================================================================== *)
(** * What is never rewritten and never removed *)
(* ===================================================================== *)

Lemma insert_one_prefix unique oid (doc : document) c :
  c `prefix_of` (Mongo.insert_one unique oid doc c).1.2.
Proof.
  unfold Mongo.insert_one. destruct (Mongo.violates _ _ c); simpl; [done|].
  by apply prefix_app_r.
Qed.

Lemma exec_append_only py_str self c db :
  append_only db (exec py_str self c db).1.
Proof.
  unfold append_only. destruct c; simpl; try done.
  - unfold create_test_case.
    by destruct (Mongo.insert_one _ _ _ _) as [[? ?] ?].
  - rewrite update_test_case_eq. done.
  - unfold record_execution.
    match goal with
    | |- context [Mongo.insert_one ?u ?o ?x ?c] =>
        pose proof (insert_one_prefix u o x c) as H;
        destruct (Mongo.insert_one u o x c) as [[? ?] ?]
    end.
    done.
  - unfold record_self_heal_decision.
    by destruct (Mongo.insert_one _ _ _ _) as [[? ?] ?].
  - unfold approve_self_heal.
    by destruct (Mongo.update_one _ _ _ _ _ _).
  - unfold save_ui_snapshot.
    match goal with
    | |- context [Mongo.insert_one ?u ?o ?x ?c] =>
        pose proof (insert_one_prefix u o x c) as H;
        destruct (Mongo.insert_one u o x c) as [[? ?] ?]
    end.
    done.
  - unfold cache_llm_context.
    destruct (datetime_add _ _); [|done].
    by destruct (Mongo.update_one _ _ _ _ _ _).
Qed.

Lemma append_only_trans db1 db2 db3 :
  append_only db1 db2 → append_only db2 db3 → append_only db1 db3.
Proof.
  intros (He & Hu & Hc) (He' & Hu' & Hc').
  split; [by etrans|]. split; [by etrans|congruence].
Qed.

(** X9.  Executions and UI snapshots are append-only: through any calls by
    any managers, what a tenant's database held of them is still there, in
    the same order and unchanged, as the beginning of what it holds
    afterwards.  The collection [code_changes] is never written. *)
Theorem ledger_is_append_only (py_str : value → string)
    (calls : list (MongoDBManager * call)) (s : server) (n : string) :
  test_executions (s n)
    `prefix_of` test_executions (run_all py_str calls s n)
  ∧ ui_snapshots (s n) `prefix_of` ui_snapshots (run_all py_str calls s n)
  ∧ code_changes (run_all py_str calls s n) = code_changes (s n).
Proof.
  change (append_only (s n) (run_all py_str calls s n)).
  revert s. induction calls as [|[m c] calls IH]; intros s; simpl.
  - by split.
  - eapply append_only_trans; [|apply IH].
    rewrite run_exec. simpl. unfold set_database.
    case_bool_decide as Hn; [|by split].
    subst n. apply exec_append_only.
Qed.

(** ** Test cases and cache entries *)

Lemma insert_one_lookup unique oid (doc : document) (c : list document) i d :
  c !! i = Some d → (Mongo.insert_one unique oid doc c).1.2 !! i = Some d.
Proof.
  intros H. pose proof (insert_one_prefix unique oid doc c) as [k ->].
  by apply lookup_app_l_Some.
Qed.

(** An update leaves every document in its place, with its [_id] and with
    the fields the update does not name. *)
Lemma update_one_lookup unique flt (upd : document) upsert oid
    (c : list document) i d :
  c !! i = Some d →
  ∃ d', (Mongo.update_one unique flt upd upsert oid c).1 !! i = Some d'
        ∧ d' !! "_id" = d !! "_id"
        ∧ ∀ f, upd !! f = None → d' !! f = d !! f.
Proof.
  intros Hi. destruct (first_match_or_none flt c)
    as [Hno|(before & x & after & Hm)].
  - unfold Mongo.update_one. rewrite (proj2 (split_first_None _ _) Hno).
    destruct upsert; [|by exists d].
    pose proof (insert_one_lookup unique oid
                  (upd ∪ Mongo.filter_seed flt) c i d Hi) as H.
    destruct (Mongo.insert_one _ _ _ _) as [[? ?] ?]. by exists d.
  - rewrite (update_one_first_match _ _ _ _ _ _ _ _ _ Hm).
    destruct (Mongo.apply_set upd x) as [x'|e] eqn:Hset; [|by exists d].
    destruct (Mongo.violates _ _ _); [by exists d|]. simpl.
    destruct Hm as (-> & _ & _).
    destruct (decide (i = length before)) as [->|Hne].
    + rewrite list_lookup_middle in Hi by done. injection Hi as <-.
      exists x'. rewrite list_lookup_middle by done.
      split; [done|]. split; [by eapply apply_set_id|].
      intros f Hf. unfold Mongo.apply_set in Hset.
      destruct (upd !! "_id"); [destruct (bool_decide _)|];
        try discriminate; injection Hset as <-;
        by apply set_fields_lookup_None.
    + exists d. split; [|done]. rewrite <- Hi.
      destruct (decide (i < length before)%nat).
      * by rewrite !lookup_app_l.
      * rewrite !lookup_app_r by lia.
        replace (i - length before)%nat with (S (i - length before - 1))
          by lia.
        done.
Qed.

Lemma nothing_removed_refl db : nothing_removed db db.
Proof. split; intros i d H; exists d; by repeat split. Qed.

Lemma nothing_removed_same db db' :
  test_cases db' = test_cases db →
  llm_context_cache db' = llm_context_cache db → nothing_removed db db'.
Proof.
  intros H1 H2. split; intros i d H; exists d; rewrite ?H1, ?H2;
    by repeat split.
Qed.

Lemma nothing_removed_trans db1 db2 db3 :
  nothing_removed db1 db2 → nothing_removed db2 db3 →
  nothing_removed db1 db3.
Proof.
  intros [Ht Hc] [Ht' Hc']. split.
  - intros i d Hi. destruct (Ht i d Hi) as (d1 & H1 & E1).
    destruct (Ht' i d1 H1) as (d2 & H2 & E2). exists d2.
    split; [done|congruence].
  - intros i d Hi. destruct (Hc i d Hi) as (d1 & H1 & E1 & K1).
    destruct (Hc' i d1 H1) as (d2 & H2 & E2 & K2). exists d2.
    split; [done|]. split; congruence.
Qed.

Lemma exec_nothing_removed py_str self c db :
  nothing_removed db (exec py_str self c db).1.
Proof.
  destruct c; simpl; try apply nothing_removed_refl.
  - unfold create_test_case.
    match goal with
    | |- context [Mongo.insert_one ?u ?o ?x ?c] =>
        pose proof (insert_one_lookup u o x c) as H;
        destruct (Mongo.insert_one u o x c) as [[? ?] ?]
    end.
    split; simpl in *.
    + intros i d Hi. exists d. split; [by apply H|done].
    + intros i d Hi. exists d. by repeat split.
  - rewrite update_test_case_eq. simpl. split; simpl.
    + intros i d Hi.
      destruct (update_one_lookup test_cases_unique
                  [Mongo.FieldEq "test_id" (VStr test_id)]
                  (<["last_modified" := VDate now]> updates) false 0%N
                  (test_cases db) i d Hi) as (d' & H' & Hid & _).
      by exists d'.
    + intros i d Hi. exists d. by repeat split.
  - unfold record_execution.
    destruct (Mongo.insert_one _ _ _ _) as [[? ?] ?].
    by apply nothing_removed_same.
  - unfold record_self_heal_decision.
    destruct (Mongo.insert_one _ _ _ _) as [[? ?] ?].
    by apply nothing_removed_same.
  - unfold approve_self_heal.
    destruct (Mongo.update_one _ _ _ _ _ _).
    by apply nothing_removed_same.
  - unfold save_ui_snapshot.
    destruct (Mongo.insert_one _ _ _ _) as [[? ?] ?].
    by apply nothing_removed_same.
  - unfold cache_llm_context.
    destruct (datetime_add _ _); [|apply nothing_removed_refl].
    match goal with
    | |- context [Mongo.update_one ?u ?f ?x ?b ?o ?c] =>
        pose proof (update_one_lookup u f x b o c) as H;
        destruct (Mongo.update_one u f x b o c) as [? ?]
    end.
    split; simpl in *.
    + intros i d Hi. exists d. by split.
    + intros i d Hi. destruct (H i d Hi) as (d' & H' & Hid & Hother).
      exists d'. split; [done|]. split; [done|]. by apply Hother.
Qed.

(** X10.  Nothing is deleted from the registry or from the cache: through
    any calls by any managers, a stored test case is still stored, at its
    place and under its [_id], and a stored cache entry is still stored, at
    its place and under its [_id] and its [prompt_hash], expired or not. *)
Theorem nothing_is_removed (py_str : value → string)
    (calls : list (MongoDBManager * call)) (s : server) (n : string) :
  (∀ i d, test_cases (s n) !! i = Some d →
          ∃ d', test_cases (run_all py_str calls s n) !! i = Some d'
                ∧ d' !! "_id" = d !! "_id")
  ∧ ∀ i d, llm_context_cache (s n) !! i = Some d →
           ∃ d', llm_context_cache (run_all py_str calls s n) !! i = Some d'
                 ∧ d' !! "_id" = d !! "_id"
                 ∧ d' !! "prompt_hash" = d !! "prompt_hash".
Proof.
  change (nothing_removed (s n) (run_all py_str calls s n)).
  revert s. induction calls as [|[m c] calls IH]; intros s; simpl.
  - apply nothing_removed_refl.
  - eapply nothing_removed_trans; [|apply IH].
    rewrite run_exec. simpl. unfold set_database.
    case_bool_decide as Hn; [|apply nothing_removed_refl].
    subst n. apply exec_nothing_removed.
Qed.

Lemma nothing_is_removed_witness :
  let a := MongoDBManager_init "client_A" in
  let stale : document :=
    {[ "_id" := VOid 1; "prompt_hash" := VStr "abc";
       "context_data" := VStr "old"; "created_at" := VDate 0;
       "expires_at" := VDate 5 ]} in
  let s :=
    set_database (db_name a) (set_llm_context_cache [stale] empty_database)
      empty_server in
  let calls :=
    [ (a, GetCachedContext 100 "abc");
      (a, CacheLlmContext 100 100 2 "xyz" (VStr "other") 1);
      (a, GetCachedContext 200 "abc") ] in
  ∃ d', llm_context_cache (run_all show_id calls s (db_name a)) !! 0%nat
        = Some d'
        ∧ d' !! "_id" = stale !! "_id"
        ∧ d' !! "prompt_hash" = stale !! "prompt_hash".
Proof.
  intros a stale s calls.
  apply (proj2 (nothing_is_removed show_id calls s (db_name a)) 0%nat stale).
  vm_compute. reflexivity.
Defined.

(* ===================================================================== *)
(** * The queue of pending approvals *)
(* ===================================================================== *)

Lemma matches_pending_bool (d : document) (b : bool) :
  d !! "engineer_approved" = Some (VBool b) →
  Mongo.matches pending d = negb b.
Proof.
  intros H. unfold Mongo.matches, pending. simpl. rewrite H.
  by destruct b.
Qed.

Lemma matches_pending_missing (d : document) :
  d !! "engineer_approved" = None → Mongo.matches pending d = false.
Proof. intros H. unfold Mongo.matches, pending. simpl. by rewrite H. Qed.

(** X11.  The queue of pending approvals, over stamped decisions: it is the
    stored decisions that the filter on [engineer_approved] retains, newest
    first.  A stored decision whose flag is false is in it; a decision whose
    flag is true, or which has no flag, is not. *)
Theorem get_pending_approvals_spec (db : database) :
  Forall stamped (self_heal_decisions db) →
  let queue := get_pending_approvals db in
  StronglySorted newest_first queue
  ∧ queue ≡ₚ Mongo.find pending (self_heal_decisions db)
  ∧ (∀ d, d ∈ self_heal_decisions db →
          d !! "engineer_approved" = Some (VBool false) → d ∈ queue)
  ∧ (∀ d, d ∈ queue →
          d ∈ self_heal_decisions db
          ∧ d !! "engineer_approved" ≠ Some (VBool true)
          ∧ d !! "engineer_approved" ≠ None).
Proof.
  intros Hst queue. unfold queue, get_pending_approvals.
  change [Mongo.FieldEq "engineer_approved" (VBool false)] with pending.
  split; [apply sort_desc_sorted; by apply Forall_filter_stamped|].
  split; [apply sort_desc_perm|]. split.
  - intros d Hd Hflag. rewrite sort_desc_perm. apply find_elem.
    split; [done|]. by rewrite (matches_pending_bool d false).
  - intros d Hd. rewrite sort_desc_perm in Hd.
    apply find_elem in Hd as [Hd Hm]. split; [done|]. split.
    + intros Hflag. by rewrite (matches_pending_bool d true) in Hm.
    + intros Hflag. by rewrite matches_pending_missing in Hm.
Qed.

Lemma get_pending_approvals_spec_witness :
  let decision (id : string) (t : Z) (ok : bool) : document :=
    {[ "_id" := VStr id; "timestamp" := VDate t;
       "engineer_approved" := VBool ok ]} in
  let db :=
    set_self_heal_decisions
      [decision "h1" 10 false; decision "h2" 20 true; decision "h3" 30 false]
      empty_database in
  get_pending_approvals db = [decision "h3" 30 false; decision "h1" 10 false]
  ∧ decision "h1" 10 false ∈ get_pending_approvals db
  ∧ StronglySorted newest_first (get_pending_approvals db).
Proof.
  intros decision db.
  assert (Forall stamped (self_heal_decisions db)) as Hst.
  { repeat constructor; eexists; vm_compute; reflexivity. }
  destruct (get_pending_approvals_spec db Hst) as (Hsorted & _ & Hin & _).
  split; [vm_compute; reflexivity|]. split; [|exact Hsorted].
  apply Hin; [left|vm_compute; reflexivity].
Defined.

(** X12.  Approving takes a decision out of the queue and touches nothing
    else in it: when [approve_self_heal] matches the decision [d], the queue
    before is, up to order, [d] (if it was pending) together with the queue
    after. *)
Theorem approve_leaves_the_queue (now : Z) (heal_id notes : string)
    (db : database) (before : list document) (d : document)
    (after : list document) :
  first_match (by_id heal_id) (self_heal_decisions db) before d after →
  get_pending_approvals db
  ≡ₚ (if Mongo.matches pending d then [d] else [])
     ++ get_pending_approvals (approve_self_heal now heal_id notes db).1.
Proof.
  intros Hm. rewrite (approve_self_heal_first_match _ _ _ _ _ _ _ Hm).
  unfold get_pending_approvals.
  change [Mongo.FieldEq "engineer_approved" (VBool false)] with pending.
  rewrite !sort_desc_perm. cbn [fst self_heal_decisions
                                 set_self_heal_decisions].
  destruct Hm as (-> & _ & _). unfold Mongo.find.
  rewrite !List.filter_app. cbn [List.filter].
  rewrite (matches_pending_bool (Mongo.set_fields (approval now notes) d) true)
    by (apply set_fields_lookup_Some; by rewrite approval_lookup).
  cbn [negb]. destruct (Mongo.matches pending d); simpl; [|done].
  by rewrite Permutation_middle.
Qed.

Lemma approve_leaves_the_queue_witness :
  let decision (id : string) (t : Z) : document :=
    {[ "_id" := VStr id; "timestamp" := VDate t;
       "engineer_approved" := VBool false ]} in
  let db :=
    set_self_heal_decisions [decision "h1" 10; decision "h2" 20]
      empty_database in
  get_pending_approvals db
  ≡ₚ [decision "h2" 20]
     ++ get_pending_approvals (approve_self_heal 30 "h2" "ok" db).1.
Proof.
  intros decision db.
  apply (approve_leaves_the_queue 30 "h2" "ok" db
           [decision "h1" 10] (decision "h2" 20) []).
  split; [reflexivity|]. split; [|vm_compute; reflexivity].
  constructor; [vm_compute; reflexivity|constructor].
Defined.

(* ===================================================================== *)
(** * Rates are rates *)
(* ===================================================================== *)

Lemma cond_eq_1_0_le (d : document) f v : (cond_eq_1_0 d f v ≤ 1)%nat.
Proof.
  unfold cond_eq_1_0. destruct (d !! f); [|lia].
  destruct (value_eqb _ _); lia.
Qed.

(** A quotient of two counters, the first at most the second, is between 0
    and 1. *)
Lemma ratio_bounds (p t : nat) :
  (p ≤ t)%nat → (1 ≤ t)%nat →
  (0 <= Z.of_nat p # Pos.of_nat t)%Q ∧ (Z.of_nat p # Pos.of_nat t <= 1)%Q.
Proof.
  intros Hp Ht. unfold Qle. simpl.
  assert (Z.pos (Pos.of_nat t) = Z.of_nat t) as ->.
  { destruct t as [|t]; [lia|].
    by rewrite <- Pos.of_nat_succ, Zpos_P_of_succ_nat, <- Nat2Z.inj_succ. }
  lia.
Qed.

Lemma group_add_counted d gs :
  Forall counted gs → Forall counted (group_add d gs).
Proof.
  induction 1 as [|g gs [Hp Ht] Hgs IH]; simpl.
  - constructor; [|done]. split; simpl; [apply cond_eq_1_0_le|lia].
  - destruct (value_eqb _ _).
    + constructor; [|done]. split; simpl; [|lia].
      pose proof (cond_eq_1_0_le d "status" (VStr "passed")). lia.
    + constructor; [by split|done].
Qed.

Lemma group_by_test_case_counted c : Forall counted (group_by_test_case c).
Proof.
  unfold group_by_test_case.
  induction c as [|d c IH] using rev_ind; [constructor|].
  rewrite fold_left_app. simpl. by apply group_add_counted.
Qed.

Lemma no_elements_nil {A : Type} (l : list A) : (∀ x, x ∉ l) → l = [].
Proof. destruct l as [|x l]; [done|]. intros H. destruct (H x). left. Qed.

(** X13.  Every row of [get_flaky_tests] counts at least 5 runs, no more
    passes than runs, and has as [pass_rate] their quotient, which lies
    between 0 and 1 and between the two bounds.  So the result is empty when
    the lower bound is above the upper one, when it is above 1, and when the
    upper bound is below 0. *)
Theorem flaky_rows_bounds (pass_rate_min pass_rate_max : Q) (db : database) :
  (∀ r, r ∈ get_flaky_tests pass_rate_min pass_rate_max db →
        (5 ≤ total_runs r)%nat
        ∧ (pass_count r ≤ total_runs r)%nat
        ∧ pass_rate r = (Z.of_nat (pass_count r) # Pos.of_nat (total_runs r))
        ∧ (0 <= pass_rate r)%Q ∧ (pass_rate r <= 1)%Q
        ∧ (pass_rate_min <= pass_rate r)%Q
        ∧ (pass_rate r <= pass_rate_max)%Q)
  ∧ ((pass_rate_max < pass_rate_min)%Q ∨ (1 < pass_rate_min)%Q
     ∨ (pass_rate_max < 0)%Q →
     get_flaky_tests pass_rate_min pass_rate_max db = []).
Proof.
  assert (∀ r, r ∈ get_flaky_tests pass_rate_min pass_rate_max db →
               (5 ≤ total_runs r)%nat
               ∧ (pass_count r ≤ total_runs r)%nat
               ∧ pass_rate r
                 = (Z.of_nat (pass_count r) # Pos.of_nat (total_runs r))
               ∧ (0 <= pass_rate r)%Q ∧ (pass_rate r <= 1)%Q
               ∧ (pass_rate_min <= pass_rate r)%Q
               ∧ (pass_rate r <= pass_rate_max)%Q) as Hrows.
  { intros r Hr. apply get_flaky_tests_elem in Hr as [Hm (g & Hg & ->)].
    apply flaky_match_spec in Hm as (H5 & Hlo & Hhi).
    pose proof (group_by_test_case_counted (test_executions db)) as Hall.
    rewrite Forall_forall in Hall. destruct (Hall g Hg) as [Hp Ht].
    destruct (ratio_bounds (g_pass g) (g_total g) Hp Ht) as [H0 H1].
    by repeat split. }
  split; [exact Hrows|].
  intros Hout. apply no_elements_nil. intros r Hr.
  destruct (Hrows r Hr) as (_ & _ & _ & H0 & H1 & Hlo & Hhi).
  destruct Hout as [Hout|[Hout|Hout]].
  - apply (Qlt_not_le _ _ Hout). by eapply Qle_trans.
  - apply (Qlt_not_le _ _ Hout). by eapply Qle_trans.
  - apply (Qlt_not_le _ _ Hout). by eapply Qle_trans.
Qed.

Lemma flaky_rows_bounds_witness :
  let run (id status : string) (t : Z) : document :=
    {[ "test_case_id" := VStr id; "status" := VStr status;
       "timestamp" := VDate t ]} in
  let db :=
    set_test_executions
      [run "X" "passed" 1; run "X" "failed" 2; run "X" "passed" 3;
       run "X" "failed" 4; run "X" "failed" 5]
      empty_database in
  get_flaky_tests (7 # 10) (3 # 10) db = []
  ∧ ∀ r, r ∈ get_flaky_tests (3 # 10) (7 # 10) db →
         (0 <= pass_rate r)%Q ∧ (pass_rate r <= 1)%Q.
Proof.
  intros run db. split.
  - apply (proj2 (flaky_rows_bounds (7 # 10) (3 # 10) db)). left.
    reflexivity.
  - intros r Hr.
    destruct (proj1 (flaky_rows_bounds (3 # 10) (7 # 10) db) r Hr)
      as (_ & _ & _ & H0 & H1 & _).
    by split.
Defined.

Lemma length_filter_le {A : Type} (p : A → bool) (l : list A) :
  (length (List.filter p l) ≤ length l)%nat.
Proof.
  induction l as [|x l IH]; simpl; [lia|]. destruct (p x); simpl; lia.
Qed.

Lemma group_all_counted (c : list document) (r : rate_row) :
  r ∈ group_all c → (approved r ≤ total r)%nat ∧ (1 ≤ total r)%nat.
Proof.
  unfold group_all. destruct c as [|d c]; [by intros ?%elem_of_nil|].
  intros ->%list_elem_of_singleton. cbn [approved total].
  rewrite cond_eq_1_0_count. split; [|simpl; lia].
  apply length_filter_le.
Qed.

(** X14.  Whatever is stored, [get_self_heal_success_rate] either returns
    a number between 0 and 1, never dividing by zero, or raises
    [OverflowError]; it raises exactly when the start of the window, [now]
    minus [days], is no [datetime]. *)
Theorem success_rate_bounds (now days_back : Z) (db : database) :
  if in_datetime (now - days days_back)
  then ∃ rate,
         get_self_heal_success_rate now days_back db = Ok rate
         ∧ (0 <= rate)%Q ∧ (rate <= 1)%Q
  else get_self_heal_success_rate now days_back db = Raise OverflowError.
Proof.
  unfold get_self_heal_success_rate, datetime_sub.
  destruct (in_datetime _); [|done]. cbn [mbind result_bind].
  eexists. split; [reflexivity|].
  set (window := Mongo.find _ _).
  destruct (group_all window) as [|r rows] eqn:Hg; [done|].
  destruct (group_all_counted window r) as [Hp Ht]; [rewrite Hg; left|].
  by apply ratio_bounds.
Qed.

(* ===================================================================== *)
(** * Writing: what is accepted and what is refused *)
(* ===================================================================== *)

Lemma with_id_fresh oid (doc : document) :
  doc !! "_id" = None → Mongo.with_id oid doc !! "_id" = Some (VOid oid).
Proof. intros H. unfold Mongo.with_id. rewrite H. apply lookup_insert_eq. Qed.

Lemma with_id_is_Some oid (doc : document) :
  is_Some (Mongo.with_id oid doc !! "_id").
Proof.
  unfold Mongo.with_id. destruct (doc !! "_id") eqn:H; [by rewrite H|].
  rewrite lookup_insert_eq. by eexists.
Qed.

Lemma with_id_id oid (doc : document) :
  is_Some (doc !! "_id") → Mongo.with_id oid doc = doc.
Proof. intros [v H]. unfold Mongo.with_id. by rewrite H. Qed.

(** A dictionary without [_id] is stored under a fresh identifier when no
    other index stands in the way. *)
Lemma insert_one_fresh oid (stamp given : document) (c : list document) :
  given !! "_id" = None → stamp !! "_id" = None → fresh oid c →
  Mongo.insert_one [] oid (py_update given stamp) c
  = (Mongo.with_id oid (py_update given stamp),
     c ++ [Mongo.with_id oid (py_update given stamp)],
     Ok (VOid oid)).
Proof.
  intros Hg Hs Hf. unfold Mongo.insert_one.
  assert (Mongo.with_id oid (py_update given stamp) !! "_id"
          = Some (VOid oid)) as Hid.
  { apply with_id_fresh. by rewrite py_update_lookup_None. }
  rewrite (fresh_not_violated oid) by done.
  unfold py_get. by rewrite Hid.
Qed.

Lemma insert_one_again unique oid (doc : document) c arg c' v oid'
    (stamp : document) :
  Mongo.insert_one unique oid doc c = (arg, c', Ok v) →
  stamp !! "_id" = None →
  Mongo.insert_one unique oid' (py_update arg stamp) c'
  = (py_update arg stamp, c', Raise DuplicateKeyError).
Proof.
  intros Hins Hs. apply insert_one_Ok in Hins as (-> & -> & _ & _).
  set (arg := Mongo.with_id oid doc).
  assert (py_update arg stamp !! "_id" = arg !! "_id") as Hid
    by (by apply py_update_lookup_None).
  unfold Mongo.insert_one. rewrite with_id_id
    by (rewrite Hid; apply with_id_is_Some).
  rewrite (violates_elem _ "_id" _ arg); [done| |by left|done].
  apply elem_of_app. right. left.
Qed.

(** X15.  The dictionary a writing method has stored cannot be stored
    again: the method has put [_id] into it, so handing the same dictionary
    to the method once more, at any time, raises [DuplicateKeyError] and
    leaves the database as it is. *)
Theorem same_dictionary_twice (py_str : value → string)
    (self : MongoDBManager) (now later now' later' : Z) (oid oid' : N)
    (given arg : document) (db db' : database) (id : string) :
  (create_test_case py_str self now later oid given db = (arg, db', Ok id) →
   ∃ arg', create_test_case py_str self now' later' oid' arg db'
           = (arg', db', Raise DuplicateKeyError))
  ∧ (record_execution py_str self now oid given db = (arg, db', Ok id) →
     ∃ arg', record_execution py_str self now' oid' arg db'
             = (arg', db', Raise DuplicateKeyError))
  ∧ (record_self_heal_decision py_str self now oid given db
     = (arg, db', Ok id) →
     ∃ arg', record_self_heal_decision py_str self now' oid' arg db'
             = (arg', db', Raise DuplicateKeyError))
  ∧ (save_ui_snapshot py_str self now oid given db = (arg, db', Ok id) →
     ∃ arg', save_ui_snapshot py_str self now' oid' arg db'
             = (arg', db', Raise DuplicateKeyError)).
Proof.
  split; [|split; [|split]].
  - unfold create_test_case.
    destruct (Mongo.insert_one _ oid _ _) as [[a c'] r] eqn:Hins.
    destruct r as [v|e]; [|discriminate]. cbn [mbind result_bind].
    intros [= <- <- _]. cbn [test_cases set_test_cases].
    erewrite (insert_one_again _ _ _ _ _ _ _ oid' _ Hins) by done.
    by eexists.
  - unfold record_execution.
    destruct (Mongo.insert_one _ oid _ _) as [[a c'] r] eqn:Hins.
    destruct r as [v|e]; [|discriminate]. cbn [mbind result_bind].
    intros [= <- <- _]. cbn [test_executions set_test_executions].
    erewrite (insert_one_again _ _ _ _ _ _ _ oid' _ Hins) by done.
    by eexists.
  - unfold record_self_heal_decision.
    destruct (Mongo.insert_one _ oid _ _) as [[a c'] r] eqn:Hins.
    destruct r as [v|e]; [|discriminate]. cbn [mbind result_bind].
    intros [= <- <- _]. cbn [self_heal_decisions set_self_heal_decisions].
    erewrite (insert_one_again _ _ _ _ _ _ _ oid' _ Hins) by done.
    by eexists.
  - unfold save_ui_snapshot.
    destruct (Mongo.insert_one _ oid _ _) as [[a c'] r] eqn:Hins.
    destruct r as [v|e]; [|discriminate]. cbn [mbind result_bind].
    intros [= <- <- _]. cbn [ui_snapshots set_ui_snapshots].
    erewrite (insert_one_again _ _ _ _ _ _ _ oid' _ Hins) by done.
    by eexists.
Qed.

Lemma same_dictionary_twice_witness :
  let self := MongoDBManager_init "client_A" in
  let execution : document :=
    {[ "test_case_id" := VStr "TC_1"; "status" := VStr "passed" ]} in
  let first := record_execution show_id self 10 1 execution empty_database in
  ∃ arg', record_execution show_id self 20 2 first.1.1 first.1.2
          = (arg', first.1.2, Raise DuplicateKeyError).
Proof.
  intros self execution first.
  refine (proj1 (proj2 (same_dictionary_twice show_id self 10 10 20 20 1 2
                          execution first.1.1 empty_database first.1.2
                          "ObjectId")) _).
  vm_compute. reflexivity.
Defined.

(* ===================================================================== *)
(** * Tenant tags and the shape of cache entries *)
(* ===================================================================== *)

Lemma insert_one_tagged (self : MongoDBManager) unique oid
    (stamp d : document) (c : list document) :
  stamp !! "_id" = None →
  stamp !! "hospital" = Some (VStr (hospital_id self)) →
  Forall (tagged (db_name self)) c →
  Forall (tagged (db_name self))
    (Mongo.insert_one unique oid (py_update d stamp) c).1.2.
Proof.
  intros Hid Hh Hc. unfold Mongo.insert_one.
  destruct (Mongo.violates _ _ c); simpl; [done|].
  apply Forall_app. split; [done|]. constructor; [|done].
  exists (hospital_id self). split; [done|].
  by apply (stamped_argument oid stamp d Hid).
Qed.

Lemma approve_self_heal_tagged n now heal_id notes db :
  Forall (tagged n) (self_heal_decisions db) →
  Forall (tagged n)
    (self_heal_decisions (approve_self_heal now heal_id notes db).1).
Proof.
  intros Hst.
  destruct (first_match_or_none (by_id heal_id) (self_heal_decisions db))
    as [Hno|(before & d & after & Hm)].
  - by rewrite approve_self_heal_no_match.
  - rewrite (approve_self_heal_first_match _ _ _ _ _ _ _ Hm). simpl.
    destruct Hm as (Hc & _ & _). rewrite Hc in Hst.
    apply Forall_app in Hst as [Hb Ha].
    apply Forall_cons in Ha as [(h & Hn & Hh) Ha].
    apply Forall_app. split; [done|]. constructor; [|done].
    exists h. split; [done|]. rewrite <- Hh.
    apply set_fields_lookup_None. by rewrite approval_lookup.
Qed.

Lemma exec_tagged py_str self c db :
  tagged_database (db_name self) db →
  tagged_database (db_name self) (exec py_str self c db).1.
Proof.
  intros (He & Hh & Hu). destruct c; simpl; try done.
  - unfold create_test_case.
    by destruct (Mongo.insert_one _ _ _ _) as [[? ?] ?].
  - rewrite update_test_case_eq. done.
  - unfold record_execution.
    match goal with
    | |- context [Mongo.insert_one ?u ?o (py_update ?d ?st) ?c] =>
        pose proof (insert_one_tagged self u o st d c eq_refl eq_refl He) as H;
        destruct (Mongo.insert_one u o (py_update d st) c) as [[? ?] ?]
    end.
    done.
  - unfold record_self_heal_decision.
    match goal with
    | |- context [Mongo.insert_one ?u ?o (py_update ?d ?st) ?c] =>
        pose proof (insert_one_tagged self u o st d c eq_refl eq_refl Hh) as H;
        destruct (Mongo.insert_one u o (py_update d st) c) as [[? ?] ?]
    end.
    done.
  - pose proof (approve_self_heal_tagged (db_name self) now heal_id
                  engineer_notes db Hh) as H.
    destruct (approve_self_heal now heal_id engineer_notes db) as [db' r] eqn:E.
    simpl in *. unfold approve_self_heal in E.
    destruct (Mongo.update_one _ _ _ _ _ _). injection E as <- _. done.
  - unfold save_ui_snapshot.
    match goal with
    | |- context [Mongo.insert_one ?u ?o (py_update ?d ?st) ?c] =>
        pose proof (insert_one_tagged self u o st d c eq_refl eq_refl Hu) as H;
        destruct (Mongo.insert_one u o (py_update d st) c) as [[? ?] ?]
    end.
    done.
  - unfold cache_llm_context.
    destruct (datetime_add _ _); [|done].
    by destruct (Mongo.update_one _ _ _ _ _ _).
Qed.

Lemma run_all_tagged py_str calls s :
  (∀ n, tagged_database n (s n)) →
  ∀ n, tagged_database n (run_all py_str calls s n).
Proof.
  revert s. induction calls as [|[m c] calls IH]; intros s Hs n; simpl.
  - apply Hs.
  - apply IH. intros n'. rewrite run_exec. simpl. unfold set_database.
    case_bool_decide as Hn; [|apply Hs]. subst n'. apply exec_tagged, Hs.
Qed.

Lemma tagged_hospital (m : MongoDBManager) (d : document) :
  tagged (db_name m) d → d !! "hospital" = Some (VStr (hospital_id m)).
Proof.
  intros (h & Hn & Hh).
  pose proof (db_name_inj m (MongoDBManager_init h) Hn) as Hm.
  simpl in Hm. congruence.
Qed.

(** X16.  On a server that managers alone have written, every execution,
    every self-heal decision and every UI snapshot stored in a tenant's
    database names that tenant in its [hospital] field, whatever the
    dictionaries handed in said. *)
Theorem stored_documents_name_their_tenant (py_str : value → string)
    (calls : list (MongoDBManager * call)) (m : MongoDBManager)
    (d : document) :
  let db := run_all py_str calls empty_server (db_name m) in
  d ∈ test_executions db ∨ d ∈ self_heal_decisions db ∨ d ∈ ui_snapshots db →
  d !! "hospital" = Some (VStr (hospital_id m)).
Proof.
  intros db Hd. apply tagged_hospital.
  destruct (run_all_tagged py_str calls empty_server) with (n := db_name m)
    as (He & Hh & Hu).
  { intros n. repeat split; constructor. }
  fold db in He, Hh, Hu. rewrite Forall_forall in He, Hh, Hu.
  destruct Hd as [Hd|[Hd|Hd]]; auto.
Qed.

Lemma stored_documents_name_their_tenant_witness :
  let a := MongoDBManager_init "client_A" in
  let b := MongoDBManager_init "client_B" in
  let calls :=
    [ (b, RecordExecution 1 1 {[ "hospital" := VStr "client_A" ]});
      (a, RecordExecution 2 2 {[ "hospital" := VStr "client_B" ]}) ] in
  let stored : document :=
    {[ "_id" := VOid 2; "hospital" := VStr "client_A";
       "timestamp" := VDate 2 ]} in
  stored !! "hospital" = Some (VStr (hospital_id a)).
Proof.
  intros a b calls stored.
  apply (stored_documents_name_their_tenant show_id calls a stored).
  left. vm_compute. left.
Defined.

(** A [$set] of fields the entry already has, and an insertion of the five
    fields, keep the shape. *)
Lemma cache_llm_context_shape now_expiry now_created oid h data ttl_hours db :
  Forall (λ d : document, dom d = cache_fields) (llm_context_cache db) →
  Forall (λ d : document, dom d = cache_fields)
    (llm_context_cache
       (cache_llm_context now_expiry now_created oid h data ttl_hours db).1).
Proof.
  intros Hall. unfold cache_llm_context, datetime_add.
  destruct (in_datetime _); [|exact Hall].
  change [Mongo.FieldEq "prompt_hash" (VStr h)] with (by_hash h).
  set (upd := ({[ "context_data" := data;
                  "created_at" := VDate now_created;
                  "expires_at" := VDate (now_expiry + hours ttl_hours) ]}
               : document)).
  assert (dom upd = {[ "context_data"; "created_at"; "expires_at" ]}
            :> gset string) as Hupd.
  { unfold upd. rewrite !dom_insert_L, dom_singleton_L. set_solver. }
  destruct (first_match_or_none (by_hash h) (llm_context_cache db))
    as [Hno|(before & d & after & Hm)].
  - unfold Mongo.update_one.
    rewrite (proj2 (split_first_None _ _) Hno).
    unfold Mongo.insert_one.
    set (doc := Mongo.with_id oid (upd ∪ Mongo.filter_seed (by_hash h))).
    assert (dom doc = cache_fields) as Hdoc.
    { unfold doc, Mongo.with_id.
      assert ((upd ∪ Mongo.filter_seed (by_hash h)) !! "_id" = None) as ->
        by (by apply lookup_union_None_2).
      rewrite dom_insert_L, dom_union_L, Hupd. cbn [Mongo.filter_seed by_hash].
      rewrite dom_insert_L, dom_empty_L. unfold cache_fields. set_solver. }
    destruct (Mongo.violates _ _ _); simpl; [done|].
    apply Forall_app. split; [done|]. by constructor.
  - rewrite (update_one_first_match _ _ _ _ _ _ _ _ _ Hm).
    unfold Mongo.apply_set.
    replace (upd !! "_id") with (@None value) by done.
    rewrite violates_nil. simpl.
    destruct Hm as (Hc & _ & _). rewrite Hc in Hall.
    apply Forall_app in Hall as [Hb Ha].
    apply Forall_cons in Ha as [Hd Ha].
    apply Forall_app. split; [done|]. constructor; [|done].
    unfold Mongo.set_fields. rewrite dom_union_L, Hupd, Hd.
    unfold cache_fields. set_solver.
Qed.

Lemma exec_cache_shape py_str self c db :
  Forall (λ d : document, dom d = cache_fields) (llm_context_cache db) →
  Forall (λ d : document, dom d = cache_fields)
    (llm_context_cache (exec py_str self c db).1).
Proof.
  intros H. destruct c; simpl; try done.
  - unfold create_test_case.
    by destruct (Mongo.insert_one _ _ _ _) as [[? ?] ?].
  - rewrite update_test_case_eq. done.
  - unfold record_execution.
    by destruct (Mongo.insert_one _ _ _ _) as [[? ?] ?].
  - unfold record_self_heal_decision.
    by destruct (Mongo.insert_one _ _ _ _) as [[? ?] ?].
  - unfold approve_self_heal.
    by destruct (Mongo.update_one _ _ _ _ _ _).
  - unfold save_ui_snapshot.
    by destruct (Mongo.insert_one _ _ _ _) as [[? ?] ?].
  - pose proof (cache_llm_context_shape now_expiry now_created oid
                  prompt_hash context_data ttl_hours db H) as H'.
    destruct (cache_llm_context _ _ _ _ _ _ db) as [db' r] eqn:E.
    simpl in *. unfold cache_llm_context in E.
    destruct (datetime_add _ _); [|by injection E as <- _].
    destruct (Mongo.update_one _ _ _ _ _ _). injection E as <- _. done.
Qed.

(** X17.  On a server that managers alone have written, a cache entry has
    exactly the fields [_id], [prompt_hash], [context_data], [created_at]
    and [expires_at]: unlike the other documents it carries no [hospital]
    field, and belongs to a tenant by its database alone. *)
Theorem cache_entries_have_five_fields (py_str : value → string)
    (calls : list (MongoDBManager * call)) (n : string) (d : document) :
  d ∈ llm_context_cache (run_all py_str calls empty_server n) →
  dom d = cache_fields ∧ d !! "hospital" = None.
Proof.
  assert (∀ s, (∀ n', Forall (λ d : document, dom d = cache_fields)
                        (llm_context_cache (s n'))) →
               ∀ n', Forall (λ d : document, dom d = cache_fields)
                       (llm_context_cache (run_all py_str calls s n')))
    as Hinv.
  { induction calls as [|[m c] calls IH]; intros s Hs n'; simpl; [apply Hs|].
    apply IH. intros n''. rewrite run_exec. simpl. unfold set_database.
    case_bool_decide; [|apply Hs]. apply exec_cache_shape, Hs. }
  intros Hd.
  assert (dom d = cache_fields) as Hdom.
  { specialize (Hinv empty_server (λ _, Forall_nil_2 _) n).
    by eapply Forall_forall in Hinv. }
  split; [done|]. apply not_elem_of_dom. rewrite Hdom.
  apply (bool_decide_unpack _). by vm_compute.
Qed.

Lemma cache_entries_have_five_fields_witness :
  let a := MongoDBManager_init "client_A" in
  let calls :=
    [ (a, CacheLlmContext 1 1 1 "abc" (VStr "old") 24);
      (a, CacheLlmContext 2 2 2 "abc" (VStr "new") 24) ] in
  let entry : document :=
    {[ "_id" := VOid 1; "prompt_hash" := VStr "abc";
       "context_data" := VStr "new"; "created_at" := VDate 2;
       "expires_at" := VDate (2 + hours 24) ]} in
  dom entry = cache_fields ∧ entry !! "hospital" = None.
Proof.
  intros a calls entry.
  apply (cache_entries_have_five_fields show_id calls (db_name a) entry).
  vm_compute. left.
Defined.

(* ===================================================================== *)
(** * When [detect_ui_changes] reports nothing *)
(* ===================================================================== *)

Lemma py_mem_refl (x : value) (s : list value) : x ∈ s → py_mem x s = true.
Proof. intros H. apply py_mem_spec. by exists x. Qed.

Lemma py_set_diff_nil (a b : list value) :
  py_set_diff a b = [] ↔ ∀ x, x ∈ a → py_mem x b = true.
Proof.
  split.
  - intros H x Hx. destruct (py_mem x b) eqn:E; [done|].
    assert (x ∈ py_set_diff a b) as Hin by (by apply py_set_diff_spec).
    rewrite H in Hin. by apply elem_of_nil in Hin.
  - intros H. apply no_elements_nil. intros x Hx.
    apply py_set_diff_spec in Hx as [Hx Hb]. rewrite (H x Hx) in Hb. done.
Qed.

(** Two sets have the same members, up to [==]. *)
Lemma same_members_iff (a b : list value) :
  (∀ x, py_mem x a = py_mem x b)
  ↔ (∀ x, x ∈ a → py_mem x b = true) ∧ (∀ x, x ∈ b → py_mem x a = true).
Proof.
  split.
  - intros H. split; intros x Hx.
    + rewrite <- H. by apply py_mem_refl.
    + rewrite H. by apply py_mem_refl.
  - intros [Hab Hba] x. apply eq_true_iff_eq. rewrite !py_mem_spec. split.
    + intros (y & Hy & Hk). specialize (Hab y Hy).
      apply py_mem_spec in Hab as (z & Hz & Hk'). exists z.
      split; [done|congruence].
    + intros (y & Hy & Hk). specialize (Hba y Hy).
      apply py_mem_spec in Hba as (z & Hz & Hk'). exists z.
      split; [done|congruence].
Qed.

(** X18.  [detect_ui_changes] looks at membership alone.  Against a stored
    previous snapshot, and the two selector collections being ones [set]
    accepts, it reports [has_changes] false, with an empty [changes],
    exactly when the two sets have the same members: order and repetition of
    selectors never count as a change. *)
Theorem no_changes_iff_same_selectors (page_identifier : string)
    (current_snapshot : document) (db : database) (previous : document)
    (prev_selectors curr_selectors : list value) :
  get_latest_ui_snapshot page_identifier db = Some previous →
  previous ≠ ∅ →
  py_set (py_get_default previous "selectors" (VList [])) = Ok prev_selectors →
  py_set (py_get_default current_snapshot "selectors" (VList []))
  = Ok curr_selectors →
  ∃ r,
    detect_ui_changes page_identifier current_snapshot db = Ok r
    ∧ r !! "is_new" = Some (VBool false)
    ∧ (r !! "has_changes" = Some (VBool false)
       ↔ ∀ x, py_mem x prev_selectors = py_mem x curr_selectors)
    ∧ (r !! "has_changes" = Some (VBool false) →
       r !! "changes" = Some (VList [])).
Proof.
  intros Hlatest Hne Hprev Hcurr. unfold detect_ui_changes.
  rewrite Hlatest. unfold py_truthy.
  rewrite bool_decide_eq_false_2 by done. cbn [negb].
  rewrite Hprev, Hcurr. cbn [mbind result_bind].
  eexists. split; [reflexivity|].
  rewrite same_members_iff, <- !py_set_diff_nil.
  destruct (py_set_diff prev_selectors curr_selectors) as [|r removed];
    destruct (py_set_diff curr_selectors prev_selectors) as [|a added];
    (split; [done|]); split; try done.
  - split; [|by intros [_ ?]].
    rewrite lookup_insert_ne, lookup_insert_eq by done. by intros [= ?].
  - split; [|by intros [? _]].
    rewrite lookup_insert_ne, lookup_insert_eq by done. by intros [= ?].
  - split; [|by intros [? _]].
    rewrite lookup_insert_ne, lookup_insert_eq by done. by intros [= ?].
Qed.

Lemma no_changes_iff_same_selectors_witness :
  let previous : document :=
    {[ "page_identifier" := VStr "login"; "timestamp" := VDate 20;
       "selectors" := VList [VStr "#a"; VStr "#b"; VStr "#c"] ]} in
  let db := set_ui_snapshots [previous] empty_database in
  let current : document :=
    {[ "selectors" := VList [VStr "#c"; VStr "#a"; VStr "#b"; VStr "#a"] ]} in
  ∃ r,
    detect_ui_changes "login" current db = Ok r
    ∧ r !! "has_changes" = Some (VBool false)
    ∧ r !! "changes" = Some (VList []).
Proof.
  intros previous db current.
  destruct (no_changes_iff_same_selectors "login" current db previous
              [VStr "#a"; VStr "#b"; VStr "#c"]
              [VStr "#c"; VStr "#a"; VStr "#b"])
    as (r & Hr & _ & Hiff & Hchanges).
  - vm_compute. reflexivity.
  - intros H. apply (f_equal (λ d : document, d !! "timestamp")) in H.
    vm_compute in H. discriminate.
  - vm_compute. reflexivity.
  - vm_compute. reflexivity.
  - exists r. split; [exact Hr|].
    assert (r !! "has_changes" = Some (VBool false)) as Hno.
    { apply Hiff. apply same_members_iff. split.
      - intros x Hx. repeat (apply elem_of_cons in Hx as [->|Hx];
                             [vm_compute; reflexivity|]).
        by apply elem_of_nil in Hx.
      - intros x Hx. repeat (apply elem_of_cons in Hx as [->|Hx];
                             [vm_compute; reflexivity|]).
        by apply elem_of_nil in Hx. }
    split; [exact Hno|]. by apply Hchanges.
Defined.

(* ===================================================================== *)
(** * Execution statistics *)
(* ===================================================================== *)

Lemma sum_Z_app (a b : list Z) : sum_Z (a ++ b) = sum_Z a + sum_Z b.
Proof. unfold sum_Z. induction a as [|x a IH]; simpl; [done|]. lia. Qed.

Lemma with_status_snoc (v : value) (p : list document) (d : document) :
  with_status v (p ++ [d])
  = with_status v p ++ (if value_eqb (py_get d "status") v then [d] else []).
Proof.
  unfold with_status. rewrite List.filter_app. cbn [List.filter].
  by destruct (value_eqb _ _).
Qed.

Lemma status_row_snoc_other (v : value) (p : list document) (d : document) :
  py_get d "status" ≠ v → status_row (p ++ [d]) v = status_row p v.
Proof.
  intros Hne. unfold status_row. rewrite with_status_snoc.
  apply value_eqb_neq in Hne. rewrite Hne. by rewrite app_nil_r.
Qed.

Lemma status_row_snoc_same (p : list document) (d : document) :
  status_row (p ++ [d]) (py_get d "status")
  = status_step (status_row p (py_get d "status")) d.
Proof.
  unfold status_row, status_step. cbn [s_id s_count s_sum s_numeric].
  rewrite with_status_snoc, value_eqb_refl. unfold durations.
  rewrite omap_app, sum_Z_app, !length_app. cbn [omap list_omap length].
  destruct (duration_of d) as [n|]; unfold sum_Z;
    cbn [default foldr length]; unfold id; f_equal; lia.
Qed.

Lemma with_status_nil (v : value) (p : list document) :
  (∀ d, d ∈ p → py_get d "status" ≠ v) → with_status v p = [].
Proof.
  intros H. apply no_elements_nil. intros d Hd. unfold with_status in Hd.
  apply list_elem_of_In, List.filter_In in Hd as [Hd He].
  apply value_eqb_eq in He. by apply (H d); [apply list_elem_of_In|].
Qed.

Lemma status_row_new (p : list document) (d : document) :
  with_status (py_get d "status") p = [] →
  status_row (p ++ [d]) (py_get d "status") = status_new d.
Proof.
  intros Hnil. rewrite status_row_snoc_same. unfold status_row, status_step.
  rewrite Hnil. unfold status_new. cbn. by destruct (duration_of d).
Qed.

Lemma status_add_fresh (d : document) (gs : list status_acc) :
  py_get d "status" ∉ s_id <$> gs → status_add d gs = gs ++ [status_new d].
Proof.
  induction gs as [|g gs IH]; [done|]. intros Hnot.
  rewrite fmap_cons, not_elem_of_cons in Hnot. destruct Hnot as [Hne Hnot].
  cbn [status_add].
  assert (value_eqb (s_id g) (py_get d "status") = false) as ->
    by (by apply value_eqb_neq).
  by rewrite IH.
Qed.

Lemma status_add_ids (d : document) (gs : list status_acc) :
  py_get d "status" ∈ s_id <$> gs → s_id <$> status_add d gs = s_id <$> gs.
Proof.
  induction gs as [|g gs IH]; intros Hin; [by apply elem_of_nil in Hin|].
  cbn [status_add].
  destruct (value_eqb (s_id g) (py_get d "status")) eqn:He; [done|].
  apply value_eqb_neq in He. rewrite !fmap_cons. f_equal. apply IH.
  rewrite fmap_cons in Hin. apply elem_of_cons in Hin as [Hin|Hin]; [|done].
  by destruct He.
Qed.

Lemma status_add_rows (p : list document) (d : document)
    (gs : list status_acc) :
  NoDup (s_id <$> gs) →
  py_get d "status" ∈ s_id <$> gs →
  Forall (λ g, g = status_row p (s_id g)) gs →
  Forall (λ g, g = status_row (p ++ [d]) (s_id g)) (status_add d gs).
Proof.
  induction gs as [|g gs IH]; intros Hnd Hin Hrows;
    [by apply elem_of_nil in Hin|].
  rewrite fmap_cons in Hnd, Hin. apply NoDup_cons in Hnd as [Hg Hnd].
  apply Forall_cons in Hrows as [Hrow Hrows]. cbn [status_add].
  destruct (value_eqb (s_id g) (py_get d "status")) eqn:He.
  - apply value_eqb_eq in He. apply Forall_cons. split.
    + cbn [status_step s_id]. rewrite He, status_row_snoc_same.
      rewrite <- He. by rewrite <- Hrow.
    + apply Forall_forall. intros g' Hg'.
      rewrite Forall_forall in Hrows. rewrite status_row_snoc_other.
      * by apply Hrows.
      * intros Heq. apply Hg. rewrite He, Heq. by apply list_elem_of_fmap_2.
  - apply value_eqb_neq in He. apply Forall_cons. split.
    + rewrite status_row_snoc_other by done. done.
    + apply IH; [done| |done].
      apply elem_of_cons in Hin as [Hin|Hin]; [by destruct He|done].
Qed.

Lemma grouped_step (p : list document) (d : document) (gs : list status_acc) :
  grouped p gs → grouped (p ++ [d]) (status_add d gs).
Proof.
  intros (Hnd & Hids & Hrows).
  destruct (decide (py_get d "status" ∈ s_id <$> gs)) as [Hin|Hnot].
  - split; [|split].
    + by rewrite status_add_ids.
    + intros v. rewrite status_add_ids by done. rewrite Hids. split.
      * intros (x & Hx & Hv). exists x. split; [|done].
        apply elem_of_app. by left.
      * intros (x & Hx & Hv). apply elem_of_app in Hx as [Hx|Hx].
        -- by exists x.
        -- apply list_elem_of_singleton in Hx. subst x. subst v.
           by apply Hids.
    + by apply status_add_rows.
  - rewrite status_add_fresh by done. split; [|split].
    + rewrite fmap_app. apply NoDup_app. split; [done|]. split.
      * intros v Hv Hv'. apply list_elem_of_singleton in Hv'.
        cbn [status_new s_id] in Hv'. by subst v.
      * apply NoDup_singleton.
    + intros v. rewrite fmap_app, elem_of_app, Hids. split.
      * intros [(x & Hx & Hv)|Hv].
        -- exists x. split; [|done]. apply elem_of_app. by left.
        -- apply list_elem_of_singleton in Hv. cbn [status_new s_id] in Hv.
           exists d. split; [|done]. apply elem_of_app. right.
           by apply list_elem_of_singleton.
      * intros (x & Hx & Hv). apply elem_of_app in Hx as [Hx|Hx].
        -- left. by exists x.
        -- right. apply list_elem_of_singleton in Hx. subst x.
           apply list_elem_of_singleton. by cbn [status_new s_id].
    + apply Forall_app. split.
      * apply Forall_forall. intros g Hg. rewrite Forall_forall in Hrows.
        rewrite status_row_snoc_other; [by apply Hrows|].
        intros Heq. apply Hnot. rewrite Heq. by apply list_elem_of_fmap_2.
      * apply Forall_singleton. cbn [status_new s_id].
        rewrite status_row_new; [done|]. apply with_status_nil.
        intros x Hx Heq. apply Hnot, Hids. by exists x.
Qed.

Lemma grouped_fold (c p : list document) (gs : list status_acc) :
  grouped p gs →
  grouped (p ++ c) (fold_left (λ gs d, status_add d gs) c gs).
Proof.
  revert p gs. induction c as [|d c IH]; intros p gs Hg.
  - by rewrite app_nil_r.
  - cbn [fold_left]. rewrite cons_middle, app_assoc. apply IH.
    by apply grouped_step.
Qed.

Lemma group_by_status_grouped (c : list document) :
  grouped c (group_by_status c).
Proof.
  apply (grouped_fold c [] []). split; [|split].
  - apply NoDup_nil_2.
  - intros v. split.
    + intros H. by apply elem_of_nil in H.
    + intros (d & Hd & _). by apply elem_of_nil in Hd.
  - apply Forall_nil_2.
Qed.

Lemma status_avg_row (c : list document) (v : value) :
  status_avg (status_row c v) = mean_duration (with_status v c).
Proof.
  unfold status_avg, mean_duration, status_row. cbn [s_numeric s_sum].
  by destruct (durations (with_status v c)).
Qed.

Lemma stats_item_row (c : list document) (v : value) :
  stats_item (status_row c v) = stats_entry c v.
Proof. unfold stats_item, stats_entry. by rewrite status_avg_row. Qed.

Lemma py_dict_set_fresh {A : Type} (k : value) (a : A)
    (acc : list (value * A)) :
  Forall (λ k', py_key k' = k') acc.*1 → py_key k = k → k ∉ acc.*1 →
  py_dict_set k a acc = acc ++ [(k, a)].
Proof.
  intros Hacc Hk. induction acc as [|[k' a'] acc IH]; intros Hnot; [done|].
  rewrite fmap_cons in Hacc, Hnot. cbn [fst] in Hacc, Hnot.
  apply Forall_cons in Hacc as [Hk' Hacc].
  apply not_elem_of_cons in Hnot as [Hne Hnot]. cbn [py_dict_set].
  assert (py_eqb k' k = false) as ->.
  { unfold py_eqb. rewrite Hk, Hk'. apply value_eqb_neq. congruence. }
  by rewrite IH.
Qed.

Lemma stats_dict_plain (rows : list status_acc)
    (acc : list (value * (nat * option Q))) :
  Forall (λ r, plain_status (s_id r)) rows →
  NoDup (acc.*1 ++ (s_id <$> rows)) →
  Forall (λ k, py_key k = k) acc.*1 →
  stats_dict rows acc = Ok (acc ++ (stats_item <$> rows)).
Proof.
  revert acc. induction rows as [|r rows IH]; intros acc Hplain Hnd Hacc.
  - by rewrite app_nil_r.
  - apply Forall_cons in Hplain as [[Hh Hk] Hplain]. cbn [stats_dict].
    rewrite Hh. rewrite fmap_cons in Hnd.
    rewrite py_dict_set_fresh; [|done|done|].
    + rewrite IH; [by rewrite <- app_assoc|done| |].
      * rewrite fmap_app. cbn [fmap list_fmap fst]. by rewrite <- app_assoc.
      * rewrite fmap_app. apply Forall_app. split; [done|].
        by apply Forall_singleton.
    + apply NoDup_app in Hnd as (_ & Hdis & _). intros Hin.
      apply (Hdis _ Hin). left.
Qed.

Lemma stats_dict_TypeError (rows : list status_acc)
    (acc : list (value * (nat * option Q))) :
  stats_dict rows acc = Raise TypeError
  ↔ ∃ r, r ∈ rows ∧ py_hashable (s_id r) = false.
Proof.
  revert acc. induction rows as [|r rows IH]; intros acc; cbn [stats_dict].
  - split; [discriminate|]. intros (r & Hr & _). by apply elem_of_nil in Hr.
  - destruct (py_hashable (s_id r)) eqn:Hh.
    + rewrite IH. split.
      * intros (x & Hx & Hf). exists x. split; [by right|done].
      * intros (x & Hx & Hf). apply elem_of_cons in Hx as [->|Hx].
        -- congruence.
        -- by exists x.
    + split; [|done]. intros _. exists r. split; [left|done].
Qed.

Lemma stats_dict_Raise (rows : list status_acc)
    (acc : list (value * (nat * option Q))) (e : exn) :
  stats_dict rows acc = Raise e → e = TypeError.
Proof.
  revert acc. induction rows as [|r rows IH]; intros acc; cbn [stats_dict].
  - discriminate.
  - destruct (py_hashable (s_id r)); [apply IH|]. by intros [= <-].
Qed.

(** X19.  Over executions that carry their timestamp, when the start of the
    window, [now] minus [days], is a [datetime] and every status of the
    window is hashable and not a [bool], [get_test_execution_stats] returns
    a dictionary with exactly one entry per status met in the window,
    missing status counting as [None]: the number of executions of that
    status, and the mean of their integer durations, [None] when none has
    one. *)
Theorem get_test_execution_stats_spec (now days_back : Z) (db : database) :
  let window :=
    List.filter (in_window (now - days days_back)) (test_executions db) in
  Forall stamped (test_executions db) →
  in_datetime (now - days days_back) = true →
  Forall (λ d, plain_status (py_get d "status")) window →
  ∃ stats,
    get_test_execution_stats now days_back db = Ok stats
    ∧ NoDup stats.*1
    ∧ ∀ e, e ∈ stats
           ↔ ∃ d, d ∈ window ∧ e = stats_entry window (py_get d "status").
Proof.
  intros window Hst Hrange Hplain.
  unfold get_test_execution_stats, datetime_sub. rewrite Hrange.
  cbn [mbind result_bind]. rewrite find_since by done. fold window.
  destruct (group_by_status_grouped window) as (Hnd & Hids & Hrows).
  set (rows := group_by_status window) in *.
  rewrite Forall_forall in Hplain. rewrite Forall_forall in Hrows.
  exists (stats_item <$> rows). split; [|split].
  - rewrite (stats_dict_plain rows []); [done| |done|apply Forall_nil_2].
    apply Forall_forall. intros r Hr.
    destruct (proj1 (Hids (s_id r))) as (d & Hd & Hv);
      [by apply list_elem_of_fmap_2|].
    rewrite <- Hv. by apply Hplain.
  - by rewrite <- list_fmap_compose.
  - intros e. rewrite list_elem_of_fmap. split.
    + intros (r & -> & Hr).
      destruct (proj1 (Hids (s_id r))) as (d & Hd & Hv);
        [by apply list_elem_of_fmap_2|].
      exists d. split; [done|].
      rewrite Hv, <- stats_item_row. f_equal. by apply Hrows.
    + intros (d & Hd & ->).
      assert (py_get d "status" ∈ s_id <$> rows) as Hin
        by (apply Hids; by exists d).
      apply list_elem_of_fmap in Hin as (r & Hv & Hr).
      exists r. split; [|done].
      rewrite Hv, <- stats_item_row. f_equal. symmetry. by apply Hrows.
Qed.

Lemma get_test_execution_stats_spec_witness :
  let run (status : string) (t ms : Z) : document :=
    {[ "status" := VStr status; "timestamp" := VDate t;
       "duration_ms" := VInt ms ]} in
  let unknown : document := {[ "timestamp" := VDate (days 9) ]} in
  let db :=
    set_test_executions
      [run "passed" (days 1) 500; run "passed" (days 8) 100;
       run "failed" (days 9) 40; unknown; run "passed" (days 10) 300]
      empty_database in
  let window := [run "passed" (days 8) 100; run "failed" (days 9) 40;
                 unknown; run "passed" (days 10) 300] in
  ∃ stats,
    get_test_execution_stats (days 10) 7 db = Ok stats
    ∧ (VStr "passed", (2%nat, Some (400 # 2))) ∈ stats
    ∧ (VNull, (1%nat, None)) ∈ stats.
Proof.
  intros run unknown db window.
  destruct (get_test_execution_stats_spec (days 10) 7 db)
    as (stats & Hstats & _ & Hin).
  - repeat constructor; eexists; vm_compute; reflexivity.
  - vm_compute. reflexivity.
  - vm_compute. repeat constructor.
  - exists stats. split; [exact Hstats|]. split.
    + apply Hin. exists (run "passed" (days 8) 100).
      split; [vm_compute; left | vm_compute; reflexivity].
    + apply Hin. exists unknown.
      split; [vm_compute; right; right; left | vm_compute; reflexivity].
Defined.

(** X20.  Over executions that carry their timestamp,
    [get_test_execution_stats] raises [OverflowError] exactly when the start
    of the window, [now] minus [days], is no [datetime], and [TypeError]
    exactly when it is one and some execution of the window has a list or a
    sub-document for status: one such stored execution takes the whole
    dictionary down. *)
Theorem get_test_execution_stats_unhashable (now days_back : Z)
    (db : database) :
  Forall stamped (test_executions db) →
  (get_test_execution_stats now days_back db = Raise OverflowError
   ↔ in_datetime (now - days days_back) = false)
  ∧ (get_test_execution_stats now days_back db = Raise TypeError
     ↔ in_datetime (now - days days_back) = true
       ∧ ∃ d, d ∈ List.filter (in_window (now - days days_back))
                      (test_executions db)
              ∧ py_hashable (py_get d "status") = false).
Proof.
  intros Hst. unfold get_test_execution_stats, datetime_sub.
  destruct (in_datetime _); cbn [mbind result_bind];
    [|split; [done|]; split; [done|by intros [? _]]].
  rewrite find_since by done. set (window := List.filter _ _).
  destruct (group_by_status_grouped window) as (_ & Hids & _).
  split; [split; [|done]; by intros ?%stats_dict_Raise|].
  rewrite stats_dict_TypeError. split.
  - intros (r & Hr & Hh). split; [done|].
    destruct (proj1 (Hids (s_id r))) as (d & Hd & Hv);
      [by apply list_elem_of_fmap_2|].
    exists d. split; [done|]. by rewrite Hv.
  - intros (_ & d & Hd & Hh).
    assert (py_get d "status" ∈ s_id <$> group_by_status window) as Hin
      by (apply Hids; by exists d).
    apply list_elem_of_fmap in Hin as (r & Hv & Hr).
    exists r. split; [done|]. by rewrite <- Hv.
Qed.

Lemma get_test_execution_stats_unhashable_witness :
  let db :=
    set_test_executions
      [ {[ "status" := VStr "passed"; "timestamp" := VDate (days 9) ]};
        {[ "status" := VList [VStr "passed"; VStr "retried"];
           "timestamp" := VDate (days 10) ]} ]
      empty_database in
  get_test_execution_stats (days 10) 7 db = Raise TypeError
  ∧ get_test_execution_stats (days 10) 1000000 db = Raise OverflowError.
Proof.
  intros db.
  assert (Forall stamped (test_executions db)) as Hst.
  { repeat constructor; eexists; vm_compute; reflexivity. }
  split.
  - apply (get_test_execution_stats_unhashable (days 10) 7 db Hst).
    split; [vm_compute; reflexivity|].
    eexists. split; [vm_compute; right; left|]. vm_compute. reflexivity.
  - apply (get_test_execution_stats_unhashable (days 10) 1000000 db Hst).
    vm_compute. reflexivity.
Defined.

(* ===================================================================== *)
(** * Dates out of range *)
(* ===================================================================== *)

(** X21.  On a cache written by managers alone and given a fresh
    identifier, [cache_llm_context] fails in one way only: it raises
    [OverflowError] exactly when the expiry, [ttl_hours] after the call, is
    no [datetime], and then nothing is written: the database is as it was.
    Otherwise it returns [None]. *)
Theorem cache_llm_context_outcome (now_expiry now_created : Z) (oid : N)
    (prompt_hash : string) (context_data : value) (ttl_hours : Z)
    (db : database) :
  cache_wf (llm_context_cache db) →
  fresh oid (llm_context_cache db) →
  if in_datetime (now_expiry + hours ttl_hours)
  then (cache_llm_context now_expiry now_created oid prompt_hash
          context_data ttl_hours db).2 = Ok tt
  else cache_llm_context now_expiry now_created oid prompt_hash
         context_data ttl_hours db = (db, Raise OverflowError).
Proof.
  intros Hwf Hfresh. unfold cache_llm_context, datetime_add.
  destruct (in_datetime _); [|done].
  destruct (cache_upsert prompt_hash
              {[ "context_data" := context_data;
                 "created_at" := VDate now_created;
                 "expires_at" := VDate (now_expiry + hours ttl_hours) ]}
              oid (llm_context_cache db) Hwf Hfresh)
    as (c' & n & e & Hup & _); [done | done | by eexists |].
  change [Mongo.FieldEq "prompt_hash" (VStr prompt_hash)]
    with (by_hash prompt_hash).
  by rewrite Hup.
Qed.

Lemma cache_llm_context_outcome_witness :
  let stored : document :=
    {[ "_id" := VOid 1; "prompt_hash" := VStr "abc";
       "context_data" := VStr "old"; "created_at" := VDate 0;
       "expires_at" := VDate (hours 24) ]} in
  let db := set_llm_context_cache [stored] empty_database in
  cache_llm_context (hours 2) (hours 2) 2 "abc" (VStr "new") 100000000 db
  = (db, Raise OverflowError)
  ∧ get_cached_context (hours 3) "abc" db = VStr "old".
Proof.
  intros stored db. split; [|vm_compute; reflexivity].
  refine (cache_llm_context_outcome (hours 2) (hours 2) 2 "abc" (VStr "new")
            100000000 db _ _).
  - split.
    + repeat constructor; eexists; vm_compute; reflexivity.
    + vm_compute. apply NoDup_singleton.
  - repeat constructor. vm_compute. intros H. inversion H as [|? ? ? H'].
    inversion H'.
Defined.
